(* ===== verification/_CoqProject ===== *)
-Q . S2P
Prelude.v
Values.v
Tables.v
Machine.v
Executor.v
Libm.v
Run.v
Spec.v
Refinement.v
Loader.v
Render.v
Format.v
Stod.v
Output.v
