(* ===== verification/Prelude.v ===== *)
(** * VirtualMK in Rocq: a verification development of src/VirtualMK/VirtualMK.cpp

    ** The program

    VirtualMK is a stack-and-register virtual machine written as one C++
    file.  [main] reads a [.mk] file, upper-cases it and splits it into a
    vector of whitespace-separated tokens ([code]); it then calls
    [operations] until the machine stops.  [operations] is a
    fetch-decode-execute step: it reads an instruction mnemonic
    ([getInstruction]), then reads the operands that instruction needs
    ([getRegister], [getNumber]) and mutates the global state: a vector
    of doubles used as a stack ([stack], top at [back()]), a vector of 7
    doubles ([registers]: index 0 is the stack sentinel "S", 1..6 are the
    registers A..F), an iterator into the token vector
    ([instructionPointer]), a token counter ([commandCount]) and a flag
    ([isRunning]).  Every message goes to [std::cout]; fatal conditions
    call [execution()], which prints the final state and calls
    [exit(0)].

    ** Files, and what they model

    - [Prelude] (this file): the state-and-exit monad [M] in which the
      whole machine is written ([Ok] continues, [Exit] is [exit(0)],
      [Stuck] is undefined behaviour), its notation scope [mk_scope]
      ([let* x := m in k], [m ;; k]), the rewriting database [mk] of its
      laws and the tactic [mk_simp]; the vector helpers [back] and
      [set_back] ([v.back()], [v.back() = x]).
    - [Values]: doubles are Rocq's primitive IEEE-754 binary64 floats
      ([PrimFloat.float]); [+ - * /] and [std::sqrt] are the correctly
      rounded kernel operations.  The C library functions IEEE-754 does
      not fix ([std::pow], [std::log10], [std::log], [std::exp]) and
      [std::stod] are the fields of the class [CMath]: the machine is
      parametric in it, so every theorem holds for every C library.
      [ne0] and [ge0] are the source's [x != 0] and [x >= 0].
      [integer_cmath] is the instance the witnesses run with (its
      [stod] reads decimal integer literals, exactly as strtod does).
    - [Tables]: [instructionSet] and [registerSet] (lines 10-37) as
      stdpp [gmap string nat], with their range and injectivity.
    - [Machine]: the record [VM] (one field per global, lines 39-46,
      plus [output], the events written to [std::cout]); the
      diagnostics [error] and [event]; [execution] (lines 84-91); the
      Operand Resolver [pointerIncrement], [getInstruction],
      [getRegister], [getNumber] (lines 93-135).  [fetch_pos] and
      [advance] name where the next token is read and the state after
      it; [wf] is the well-formedness of a running machine.
    - [Executor]: one definition per case of [operations] (lines
      137-866): [op_HLT] .. [op_NOP], with ADD/SUB/MUL/POW as [arith]
      at their operator (the source repeats one block four times) and
      SQR/LOG/LON as [unary]; [dispatch] is the [switch] and
      [operations] the whole function.
    - [Libm]: the special values C Annex F fixes for [std::log10],
      [std::log], [std::exp] and [std::pow] (logarithm of a negative
      number or NaN is NaN, of 1 is 0, [exp 0 = 1], [pow x 0 = 1], ...),
      as the class [CMathLaws] over [CMath], with [special_cmath], a
      library that meets them.
    - [Run]: the loop [while (isRunning) operations(...)] of [main]
      (lines 896-898) as [run] with fuel; the predicate [safe] and the
      reachability relation [reachable].
    - [Spec]: the instruction-level specification, written after the
      specification document rather than the source: decoded
      instructions with a tagged register operand {Stack, Named A..F}, a
      decoder [decode] from tokens, one abstract step [aexec] on an
      abstract state (stack, registers A..F, count, diagnostics) and the
      abstract loop [arun].
    - [Refinement]: the abstraction [abs] of a [VM] (it forgets the
      cursor, the flag and the scratch slot [registers[0]]) and the
      simulation of [aexec] by [operations] and of [arun] by [run].
    - [Loader]: [main] (lines 868-901): the argument and extension
      checks, [file >> command] as the tokenizer [words], [toupper] on
      every character ([c_toupper], undefined above 127 where [char] is
      signed), the exit status.
    - [Render]: the characters behind each event: [printVector],
      [reversePrintVector], [printRegisters] (lines 48-82), the dump of
      [execution] (lines 84-91) and of PRT (lines 852-855, with the
      blank line of its [std::endl]), every diagnostic, the messages of
      [main]; how a [double] is written is the class [Ostream].
    - [Format]: [std::cout << x] on a double with the default flags,
      which is [printf("%.6g")]: the exact decimal exponent of [m * 2^e],
      rounding to six significant digits with ties to even, styles [f]
      and [e], trailing zeros removed; [show_g].
    - [Stod]: [std::stod] after the C standard's [strtod]: leading
      blanks, sign, INF/INFINITY/NAN(...), hexadecimal and decimal
      constants, rounding to nearest-even through [SpecFloat], [ERANGE]
      on overflow and inexact underflow; the [CMath] instance
      [strtod_cmath].
    - [Output]: the [Ostream] of a fresh [std::cout] ([g_ostream],
      writing doubles with [show_g]) and the text of a list of lines.

    ** What the theorems show

    - Safety and termination ([Run]): one iteration of [operations]
      keeps a well-formed running state well formed, never dereferences
      past the end of the token vector, strictly increases
      [commandCount], or exits through [execution()] with the final
      dump printed last ([operations_safe], proved compositionally for
      every handler with the hint database [safe]); every state the
      loop reaches is well formed ([reachable_wf], by rule induction);
      the loop calls [exit] within [length prog + 1] iterations on every
      non-empty program ([run_terminates]).  The fuel bound is exact in
      kind: there are no jumps, every completed iteration consumes at
      least one token, and [commandCount <= length prog] in every
      well-formed state.
    - The Operand Resolver ([Machine]): the first-token rule, the
      advance by exactly one token, the "not enough instructions" halt
      at the last token ([getRegister_cursor], [consume_spec]).
    - The Executor ([Executor]): every opcode on every branch: the stack
      and register forms of the binary operators, the recoverable
      errors (one diagnostic, nothing else changed) and the fatal ones
      ([exit] after one diagnostic and the dump); DIV's zero test and
      its ordering; the laws the specification states: MOV is
      self-inverse, SET idempotent, PSH then POP a round trip.
    - [Tables]: every code a lookup returns is below 16 (instructions)
      or 7 (registers), so the [default:] branches are dead code; the
      tables are exactly the mnemonic lists of the specification
      ([tables_agree], in [Refinement]).
    - Refinement ([Refinement]): on every state with seven registers
      and every token sequence that decodes to an instruction, one call
      of [operations] has the outcome and abstract state [aexec]
      prescribes and consumes exactly the instruction's tokens
      ([operations_refines]); whenever the abstract loop reaches a
      signal within some fuel, [run] with the same fuel ends the same
      way in a state with the same abstraction ([run_refines]).  The
      behaviours outside the decoder (S as a DIV register operand, a
      repeated register) are stated of [op_DIV] in [Executor]
      ([div_stack_operand_scratch], [div_registers_zero]).
    - The loader ([Loader]): every token is non-empty and holds none
      of the six characters C's [isspace] accepts and no lower-case
      letter a..z, stated by character codes ([load_tokens]); [words]
      inverts the single-space join ([words_unwords]); [main] reaches
      [exit(0)] with status 0 on every readable [.mk] file with at least
      one word ([main_exits]); [main] passes the extension check exactly
      when the name contains [".mk"] anywhere
      ([extension_check_substring]); a word with a byte from 128 to 254
      makes [main] undefined, and a blank file gives an empty program
      whose first fetch is undefined ([loader_undefined]).
    - Rendering ([Render]): each diagnostic is one line
      ([diagnostic_single_line]).
    - [Format]: a double holding an integer below 10^6 is written as
      that integer ([show_g_integer]); every double is written in at
      most 13 characters ([show_g_length]).
    - [Libm]: for every library meeting Annex F, LOG and LON of a
      negative value or a NaN pass the source's guard [!= 0] silently
      and store a NaN ([log_domain_silent]).
    - [Stod]: on every token the small reader [integer_stod] of
      [Values] accepts, the C library's [std::stod] returns the same
      double, read exactly and without [ERANGE]
      ([stod_extends_integer_stod], through SpecFloat's rounding of an
      integer below 2^53); a token of digits followed by a character
      that cannot continue a number is read as the digits
      ([getNumber_numeric_prefix]); every token starting with INF or NAN
      in any case makes [getNumber] return infinity or NaN with no
      diagnostic ([getNumber_inf_nan]).

    ** Modelling choices

    - The stack is a [list float] whose head is [stack.back()]; the
      source's vector is the reverse of the list.  [emplace_back] is
      [cons], [pop_back] is [tail].
    - [registers] is a [list float] read with [!!!] and written with
      stdpp's list insert; its length is 7 in every reachable state, so
      no write falls out of range.
    - [commandCount] is a [nat]: the source's [int] would overflow only
      after 2^31 tokens, beyond any file the loader reads in practice.
    - [exit(0)] is the outcome [Exit]; the state returned with it holds
      every line printed before the process ended.
    - Output is a list of structured events; [Render] turns them into
      text.  [operator<<] on a double is the class [Ostream]; its
      instance [g_ostream] of [Output] is the exact [%.6g] of [Format].
    - Fuel: [run] and [main] take [length code + 1] iterations, which
      [run_terminates] shows is enough; [arun] takes the number of
      instructions.  [strtod] is structural on the string.

    ** Not modelled

    - The values of [pow], [log10], [log] and [exp] away from the
      special cases of Annex F: no standard fixes them (glibc documents
      errors of up to a few ulps), so they stay fields of [CMath] and
      every theorem of the core is parametric in them.
    - The sign of a NaN: Rocq's primitive floats have a single NaN,
      while glibc prints the default NaN of [0/0] or [sqrt(-1)] on x86
      as ["-nan"].
    - The insertion [instructionSet[*ip]] would make in the unreachable
      [default] case of [operations]; [int] overflow of [commandCount]
      after 2^31 tokens. *)

From stdpp Require Import base list.

(** ** The machine monad *)

(** The outcome of running a statement of the program. *)
Inductive outcome (A : Type) : Type :=
| Ok (a : A)     (** the statement completed, control continues *)
| Exit           (** [exit(0)] was called: the process has ended *)
| Stuck.         (** undefined behaviour (an end iterator dereferenced) *)
Arguments Ok {A} a.
Arguments Exit {A}.
Arguments Stuck {A}.

(** State passing with an exit: every statement returns its outcome and
    the state it leaves (for [Exit], the state at the time of [exit]). *)
Definition M (S A : Type) : Type := S -> outcome A * S.

Definition ret {S A} (a : A) : M S A := fun s => (Ok a, s).

Definition bind {S A B} (m : M S A) (k : A -> M S B) : M S B :=
  fun s =>
    match m s with
    | (Ok a, s') => k a s'
    | (Exit, s') => (Exit, s')
    | (Stuck, s') => (Stuck, s')
    end.

Definition get {S} : M S S := fun s => (Ok s, s).
Definition gets {S A} (f : S -> A) : M S A := fun s => (Ok (f s), s).
Definition modify {S} (f : S -> S) : M S unit := fun s => (Ok tt, f s).
Definition exit {S A} : M S A := fun s => (Exit, s).
Definition stuck {S A} : M S A := fun s => (Stuck, s).

Declare Scope mk_scope.
Delimit Scope mk_scope with mk.

Notation "'let*' x ':=' m 'in' k" := (bind m (fun x => k))
  (at level 10, x name, m at level 100, k at level 200,
   format "'[' 'let*'  x  ':='  m  'in' ']' '/' k") : mk_scope.
Notation "m ;; k" := (bind m (fun _ => k))
  (at level 100, k at level 200, right associativity) : mk_scope.

(** ** Lists used as vectors *)

(** [v.back()] of a vector whose reverse is [l]; a C++ [back()] on an
    empty vector is undefined, and every caller checks non-emptiness
    first, so the default is never observed. *)
Definition back {A} `{Inhabited A} (l : list A) : A :=
  match l with x :: _ => x | [] => inhabitant end.

(** [v.back() = x]. *)
Definition set_back {A} (x : A) (l : list A) : list A :=
  match l with _ :: r => x :: r | [] => [] end.

(** ** Laws of the monad, pointwise *)

Section MonadLaws.
Context {S A B : Type}.

Lemma bind_Ok (m : M S A) (k : A -> M S B) s a s' :
  m s = (Ok a, s') -> bind m k s = k a s'.
Proof. unfold bind. by intros ->. Qed.

Lemma bind_Exit (m : M S A) (k : A -> M S B) s s' :
  m s = (Exit, s') -> bind m k s = (Exit, s').
Proof. unfold bind. by intros ->. Qed.

Lemma bind_Stuck (m : M S A) (k : A -> M S B) s s' :
  m s = (Stuck, s') -> bind m k s = (Stuck, s').
Proof. unfold bind. by intros ->. Qed.

Lemma bind_ret (a : A) (k : A -> M S B) s : bind (ret a) k s = k a s.
Proof. reflexivity. Qed.

Lemma bind_get (k : S -> M S B) s : bind get k s = k s s.
Proof. reflexivity. Qed.

Lemma bind_gets (f : S -> A) (k : A -> M S B) s : bind (gets f) k s = k (f s) s.
Proof. reflexivity. Qed.

Lemma bind_modify (f : S -> S) (k : unit -> M S B) s :
  bind (modify f) k s = k tt (f s).
Proof. reflexivity. Qed.

Lemma bind_exit (k : A -> M S B) s : bind exit k s = (Exit, s).
Proof. reflexivity. Qed.

Lemma bind_stuck (k : A -> M S B) s : bind stuck k s = (Stuck, s).
Proof. reflexivity. Qed.

Lemma ret_spec (a : A) (s : S) : (ret a : M S A) s = (Ok a, s).
Proof. reflexivity. Qed.

Lemma modify_spec (f : S -> S) s : modify f s = (Ok tt, f s).
Proof. reflexivity. Qed.

Lemma gets_spec (f : S -> A) s : gets f s = (Ok (f s), s).
Proof. reflexivity. Qed.

Lemma exit_spec s : (exit : M S A) s = (Exit, s).
Proof. reflexivity. Qed.

Lemma bind_assoc {C} (m : M S A) (k1 : A -> M S B) (k2 : B -> M S C) s :
  bind (bind m k1) k2 s = bind m (fun a => bind (k1 a) k2) s.
Proof. unfold bind. by destruct (m s) as [[] ?]. Qed.
End MonadLaws.

Arguments ret : simpl never.
Arguments bind : simpl never.
Arguments get : simpl never.
Arguments gets : simpl never.
Arguments modify : simpl never.
Arguments exit : simpl never.
Arguments stuck : simpl never.

Create HintDb mk discriminated.
Create Rewrite HintDb mk.
#[export] Hint Rewrite @bind_ret @bind_get @bind_gets @bind_modify
  @bind_exit @bind_stuck @bind_assoc @ret_spec @modify_spec @gets_spec @exit_spec : mk.

(** [mk_simp] normalises a goal in the monad: it applies the laws above
    and reduces the matches they expose. *)
Ltac mk_simp := repeat progress (autorewrite with mk; simpl).

(** [mk_bind H] rewrites the first statement of a bind whose outcome
    the hypothesis or lemma [H] gives. *)
Ltac mk_bind H :=
  first [ rewrite (bind_Ok _ _ _ _ _ H)
        | rewrite (bind_Exit _ _ _ _ H)
        | rewrite (bind_Stuck _ _ _ _ H) ].

(** ** Lemmas on lists used as vectors *)

Lemma length_set_back {A} (x : A) (l : list A) :
  length (set_back x l) = length l.
Proof. by destruct l. Qed.

Lemma set_back_set_back {A} (x y : A) (l : list A) :
  set_back x (set_back y l) = set_back x l.
Proof. by destruct l. Qed.

Lemma set_back_back {A} `{Inhabited A} (l : list A) : set_back (back l) l = l.
Proof. by destruct l. Qed.

(** Writing back the value a slot holds changes nothing, in or out of range. *)
Lemma list_insert_lookup_total_id {A} `{Inhabited A} (l : list A) (i : nat) :
  <[i := l !!! i]> l = l.
Proof.
  destruct (decide (i < length l)).
  - apply list_insert_id, list_lookup_lookup_total_lt. done.
  - apply list_insert_ge. lia.
Qed.

Lemma back_set_back {A} `{Inhabited A} (x : A) (l : list A) :
  l <> [] -> back (set_back x l) = x.
Proof. by destruct l. Qed.

#[export] Hint Rewrite @length_set_back @set_back_set_back @set_back_back
  @list_insert_lookup_total_id : mk.
