(* ===== verification/Values.v ===== *)
(** * Values: the doubles of VirtualMK and the C library it calls

    A [double] of the source is a primitive IEEE-754 binary64 float
    ([PrimFloat.float]): [+], [-], [*], [/] and [std::sqrt] are the
    correctly rounded operations IEEE-754 prescribes and Rocq's kernel
    implements ([PrimFloat.add], ..., [PrimFloat.sqrt]).  The functions
    of the C library that IEEE-754 does not pin down ([std::pow],
    [std::log10], [std::log], [std::exp]) and the parser [std::stod]
    are the fields of the class [CMath]: every theorem of the
    development holds for every implementation of them. *)

From Stdlib Require Import Floats ZArith Uint63 Ascii.
From stdpp Require Import base strings.
From S2P Require Import Prelude.

#[export] Instance float_inhabited : Inhabited float := populate PrimFloat.zero.

(** [x != 0] on doubles (IEEE equality: [-0.0 != 0] is false and
    [NaN != 0] is true). *)
Definition ne0 (x : float) : bool := negb (PrimFloat.eqb x PrimFloat.zero).

(** [x >= 0] on doubles (false on NaN, true on [-0.0]). *)
Definition ge0 (x : float) : bool := PrimFloat.leb PrimFloat.zero x.

(** The C library as the machine sees it.  [c_stod s] is [Some v] when
    [std::stod(s)] returns [v], [None] when it throws
    ([std::invalid_argument] or [std::out_of_range]: the source catches
    both with [catch (...)]). *)
Class CMath := {
  c_pow : float -> float -> float;
  c_log10 : float -> float;
  c_log : float -> float;
  c_exp : float -> float;
  c_stod : string -> option float
}.

(** ** An instance for running concrete programs

    The witnesses of the development run programs whose numeric literals
    are decimal integers of at most 15 digits and that never call a
    transcendental function.  On such literals [std::stod] is exact: the
    integer is below 2^53, so it is a double, and strtod returns it.
    [integer_stod] parses exactly those ([+] or [-] and digits, the whole
    token) and refuses the rest; the transcendental fields are
    [PrimFloat.nan], a value no witness reads. *)

Definition digit_value (c : ascii) : option Z :=
  let n := nat_of_ascii c in
  if (48 <=? n)%nat && (n <=? 57)%nat then Some (Z.of_nat (n - 48)) else None.

Fixpoint digits_value (acc : Z) (s : string) : option Z :=
  match s with
  | EmptyString => Some acc
  | String c r =>
      match digit_value c with
      | Some d => digits_value (acc * 10 + d) r
      | None => None
      end
  end.

Definition unsigned_value (s : string) : option Z :=
  match s with
  | EmptyString => None
  | _ => digits_value 0 s
  end.

Definition float_of_nat_Z (z : Z) : option float :=
  if (z <? 2 ^ 53)%Z then Some (PrimFloat.of_uint63 (Uint63.of_Z z)) else None.

Definition integer_stod (s : string) : option float :=
  match s with
  | String "-" r =>
      match unsigned_value r with
      | Some z => option_map PrimFloat.opp (float_of_nat_Z z)
      | None => None
      end
  | String "+" r => match unsigned_value r with Some z => float_of_nat_Z z | None => None end
  | _ => match unsigned_value s with Some z => float_of_nat_Z z | None => None end
  end.

Definition integer_cmath : CMath := {|
  c_pow := fun _ _ => PrimFloat.nan;
  c_log10 := fun _ => PrimFloat.nan;
  c_log := fun _ => PrimFloat.nan;
  c_exp := fun _ => PrimFloat.nan;
  c_stod := integer_stod
|}.
