(* ===== verification/Tables.v ===== *)
(** * Tables: the mnemonic tables of VirtualMK.cpp

    [instructionSet] and [registerSet] are the two global
    [std::map<std::string, int>] of the source (lines 10-37), modelled as
    stdpp finite maps from strings.  The lemmas give the range of the
    codes a lookup can return; the [default:] branches of every [switch]
    in [operations] are dead code because of them. *)

From stdpp Require Import base gmap strings list.
From S2P Require Import Prelude.

Local Open Scope string_scope.

Definition instructionSet : gmap string nat :=
  list_to_map [("HLT", 0); ("PSH", 1); ("POP", 2); ("ADD", 3);
               ("SUB", 4); ("MUL", 5); ("DIV", 6); ("POW", 7);
               ("SQR", 8); ("LOG", 9); ("LON", 10); ("EXP", 11);
               ("MOV", 12); ("SET", 13); ("PRT", 14); ("NOP", 15)].

Definition registerSet : gmap string nat :=
  list_to_map [("S", 0); ("A", 1); ("B", 2); ("C", 3);
               ("D", 4); ("E", 5); ("F", 6)].

(** The number of registers: [registers(registerSet.size(), 0)]. *)
Definition registerCount : nat := size registerSet.

(** ** Range and injectivity of the tables *)

(** A [map_Forall] over a closed table is decided by evaluation. *)
Ltac decide_table := apply (bool_decide_unpack _); vm_compute; reflexivity.

Lemma registerCount_eq : registerCount = 7.
Proof. vm_compute. reflexivity. Qed.

Lemma instructionSet_all_below : map_Forall (fun _ n => n < 16) instructionSet.
Proof. decide_table. Qed.

Lemma registerSet_all_below : map_Forall (fun _ n => n < 7) registerSet.
Proof. decide_table. Qed.

Lemma instructionSet_codes_distinct :
  map_Forall (fun s n => map_Forall (fun s' n' => n = n' -> s = s') instructionSet)
    instructionSet.
Proof. decide_table. Qed.

Lemma registerSet_codes_distinct :
  map_Forall (fun s n => map_Forall (fun s' n' => n = n' -> s = s') registerSet)
    registerSet.
Proof. decide_table. Qed.

(** Every code [instructionSet] maps a mnemonic to is one of the
    sixteen cases 0..15 of the [switch] in [operations], and no two
    mnemonics share a code. *)
Theorem instructionSet_range (s s' : string) (n n' : nat) :
  instructionSet !! s = Some n -> n < 16 /\ (instructionSet !! s' = Some n' -> n = n' -> s = s').
Proof.
  intros Hs. split; [exact (instructionSet_all_below s n Hs)|].
  intros Hs'. exact (instructionSet_codes_distinct s n Hs s' n' Hs').
Qed.

(** Every index [registerSet] maps a mnemonic to is one of the seven
    slots of [registers] (0 for S, 1..6 for A..F), and no two mnemonics
    share an index. *)
Theorem registerSet_range (s s' : string) (r r' : nat) :
  registerSet !! s = Some r -> r < 7 /\ (registerSet !! s' = Some r' -> r = r' -> s = s').
Proof.
  intros Hs. split; [exact (registerSet_all_below s r Hs)|].
  intros Hs'. exact (registerSet_codes_distinct s r Hs s' r' Hs').
Qed.

Lemma instructionSet_below s n : instructionSet !! s = Some n -> n < 16.
Proof. apply instructionSet_all_below. Qed.

Lemma registerSet_below s r : registerSet !! s = Some r -> r < 7.
Proof. apply registerSet_all_below. Qed.

(** Witnesses: a lookup of [MOV] and of [B]. *)
Lemma instructionSet_range_witness :
  instructionSet !! "MOV" = Some 12 /\ 12 < 16.
Proof.
  assert (H : instructionSet !! "MOV" = Some 12) by reflexivity.
  split; [exact H | exact (proj1 (instructionSet_range "MOV" "MOV" 12 12 H))].
Defined.

Lemma registerSet_range_witness :
  registerSet !! "B" = Some 2 /\ 2 < 7.
Proof.
  assert (H : registerSet !! "B" = Some 2) by reflexivity.
  split; [exact H | exact (proj1 (registerSet_range "B" "B" 2 2 H))].
Defined.
