(* ===== verification/Machine.v ===== *)
(** * Machine: the state of VirtualMK, its diagnostics and the Operand Resolver

    [VM] has one field per global variable of VirtualMK.cpp (lines
    39-46) and one for what has been written to [std::cout].  The
    statements of the source that read and advance the token cursor
    ([pointerIncrement], [getInstruction], [getRegister], [getNumber],
    lines 93-135) and the final dump [execution] (lines 84-91) are
    written in the monad [M VM] of the prelude. *)

From Stdlib Require Import Floats.
From stdpp Require Import base list strings gmap.
From S2P Require Import Prelude Values Tables.

Local Open Scope mk_scope.

(** ** Diagnostics *)

(** The conditions the source reports with ["<count> | error: ..."]. *)
Inductive error : Type :=
| NotEnoughInstructions                 (** "not enough instructions" *)
| InstructionUnknown (tok : string)     (** "instruction unknown: " tok *)
| RegisterUnknown (tok : string)        (** "register unknown: " tok *)
| NumberIncorrect (tok : string)        (** "number incorrect : " tok *)
| CouldNotPop                           (** "could not pop value, stack is empty " *)
| StackNotEnoughValues                  (** "stack has not enough values" *)
| RegisterIncorrect                     (** "register is incorrect" *)
| DivideByZero                          (** "could not be divide by zero" *)
| SqrtNegative (v : float)              (** "could not calculate square root from negative number: " v *)
| StackEmpty                            (** "stack is empty" *)
| StackValueZero                        (** "value on stack is zero" *)
| RegisterValueZero                     (** "register value is zero" *)
| UnknownInstructionCode (n : nat).     (** "unknown instruction: " n *)

(** One event per message the source writes to [std::cout]. *)
Inductive event : Type :=
| Error (count : nat) (e : error)            (** [count << " | error: " ...] *)
| Popped (v : float)                         (** ["popped value: " v] *)
| Dump (stk : list float) (regsAF : list float)
    (** PRT: ["Stack: "] top to bottom, then [printRegisters()] (A..F) *)
| DoNothing                                  (** NOP: ["do nothing"] *)
| Finished (stk : list float) (regsAF : list float).
    (** [execution()]: ["Finished execution"], the stack, the registers *)

Definition is_error (ev : event) : bool :=
  match ev with Error _ _ => true | _ => false end.

(** ** The state *)

#[projections(primitive)]
Record VM : Type := mkVM {
  code : list string;              (** [std::vector<std::string> code] *)
  instructionPointer : nat;        (** the iterator, as an index into [code] *)
  stack : list float;              (** [std::vector<double> stack], reversed *)
  registers : list float;          (** [std::vector<double> registers] *)
  isRunning : bool;
  commandCount : nat;
  output : list event              (** what has been printed, in order *)
}.

Definition with_ip (n : nat) (st : VM) : VM :=
  mkVM (code st) n (stack st) (registers st) (isRunning st) (commandCount st) (output st).
Definition with_stack (s : list float) (st : VM) : VM :=
  mkVM (code st) (instructionPointer st) s (registers st) (isRunning st) (commandCount st) (output st).
Definition with_registers (r : list float) (st : VM) : VM :=
  mkVM (code st) (instructionPointer st) (stack st) r (isRunning st) (commandCount st) (output st).
Definition with_running (b : bool) (st : VM) : VM :=
  mkVM (code st) (instructionPointer st) (stack st) (registers st) b (commandCount st) (output st).
Definition with_count (n : nat) (st : VM) : VM :=
  mkVM (code st) (instructionPointer st) (stack st) (registers st) (isRunning st) n (output st).
Definition with_output (o : list event) (st : VM) : VM :=
  mkVM (code st) (instructionPointer st) (stack st) (registers st) (isRunning st) (commandCount st) o.

(** The state [main] starts the loop in: [instructionPointer = code.begin()],
    an empty stack, seven registers at 0, [isRunning = true],
    [commandCount = 0]. *)
Definition initial (prog : list string) : VM :=
  mkVM prog 0 [] (replicate registerCount PrimFloat.zero) true 0 [].

(** ** Elementary statements *)

(** [std::cout << ev]. *)
Definition emit (ev : event) : M VM unit :=
  modify (fun st => with_output (output st ++ [ev]) st).

(** [std::cout << commandCount << " | error: " ...]. *)
Definition report (e : error) : M VM unit :=
  let* st := get in emit (Error (commandCount st) e).

(** [++commandCount]. *)
Definition incCount : M VM unit :=
  modify (fun st => with_count (S (commandCount st)) st).

(** [registers[i]] and [registers[i] = v]. *)
Definition readRegister (i : nat) : M VM float :=
  gets (fun st => registers st !!! i).
Definition writeRegister (i : nat) (v : float) : M VM unit :=
  modify (fun st => with_registers (<[i := v]> (registers st)) st).

(** [*ip]: reading the token under the cursor; dereferencing
    [code.end()] is undefined behaviour. *)
Definition deref : M VM string :=
  let* st := get in
  match code st !! instructionPointer st with
  | Some tok => ret tok
  | None => stuck
  end.

(** [printRegisters()] prints [registers.begin() + 1 .. end()]. *)
Definition registersAF (st : VM) : list float := drop 1 (registers st).

(** [execution()] (lines 84-91): [isRunning = false], print the final
    stack and registers, [exit(0)]. *)
Definition execution {A} : M VM A :=
  modify (with_running false) ;;
  let* st := get in
  emit (Finished (stack st) (registersAF st)) ;;
  exit.

(** The pattern [std::cout << commandCount << " | error: ..."; execution();]
    of every fatal condition. *)
Definition fatal {A} (e : error) : M VM A := report e ;; execution.

(** ** The Operand Resolver *)

(** [pointerIncrement] (lines 93-102). *)
Definition pointerIncrement : M VM unit :=
  let* st := get in
  if commandCount st =? 0 then ret tt
  else if S (instructionPointer st) =? length (code st) then
    incCount ;; report NotEnoughInstructions ;; execution
  else modify (fun st => with_ip (S (instructionPointer st)) st).

(** [getInstruction] (lines 104-112). *)
Definition getInstruction : M VM nat :=
  pointerIncrement ;;
  incCount ;;
  let* tok := deref in
  match instructionSet !! tok with
  | Some n => ret n
  | None => fatal (InstructionUnknown tok)
  end.

(** [getRegister] (lines 114-122). *)
Definition getRegister : M VM nat :=
  pointerIncrement ;;
  incCount ;;
  let* tok := deref in
  match registerSet !! tok with
  | Some r => ret r
  | None => fatal (RegisterUnknown tok)
  end.

Section Number.
Context `{CMath}.

(** [getNumber] (lines 124-135): [std::stod] inside [try]/[catch (...)]. *)
Definition getNumber : M VM float :=
  pointerIncrement ;;
  incCount ;;
  let* tok := deref in
  match c_stod tok with
  | Some v => ret v
  | None => fatal (NumberIncorrect tok)
  end.
End Number.

(** ** Results of the resolver statements *)

(** The position of the token the next resolver call reads: the
    current one for the very first token of the run, the following one
    afterwards (the first branch of [pointerIncrement]). *)
Definition fetch_pos (st : VM) : nat :=
  if commandCount st =? 0 then instructionPointer st else S (instructionPointer st).

(** The tokens the following resolver calls will read, in order. *)
Definition next_tokens (st : VM) : list string := drop (fetch_pos st) (code st).

(** The state after one token has been consumed. *)
Definition advance (st : VM) : VM :=
  with_count (S (commandCount st)) (with_ip (fetch_pos st) st).

(** The state [execution()] leaves when the process exits. *)
Definition stop (st : VM) : VM :=
  let st' := with_running false st in
  with_output (output st' ++ [Finished (stack st') (registersAF st')]) st'.

(** The state a fatal error [e] leaves: its line, then the final dump. *)
Definition failed (e : error) (st : VM) : VM :=
  stop (with_output (output st ++ [Error (commandCount st) e]) st).

(** The well-formedness of a running machine: the program is not empty,
    the cursor is on a token, [commandCount] counts the tokens consumed
    (zero before the first one, [instructionPointer + 1] after), and the
    register vector has its seven slots. *)
Definition wf (st : VM) : Prop :=
  instructionPointer st < length (code st) /\
  (commandCount st = 0 /\ instructionPointer st = 0 \/
   commandCount st = S (instructionPointer st)) /\
  length (registers st) = 7.

Lemma execution_spec {A} (st : VM) : (execution : M VM A) st = (Exit, stop st).
Proof. reflexivity. Qed.

Lemma fatal_spec {A} (e : error) (st : VM) : (fatal e : M VM A) st = (Exit, failed e st).
Proof. reflexivity. Qed.

#[export] Hint Rewrite @execution_spec @fatal_spec : mk.

(** Consuming a token: [pointerIncrement; ++commandCount; *ip], the
    prefix shared by the three resolver functions, on a well-formed
    state.  Either the token at [fetch_pos] is read and the cursor moves
    there, or the cursor is on the last token and the machine halts with
    "not enough instructions"; [*ip] is never applied to [code.end()]. *)
Lemma consume_spec {A} (k : string -> M VM A) (st : VM) :
  wf st ->
  (exists tok, code st !! fetch_pos st = Some tok /\
     (pointerIncrement ;; incCount ;; let* t := deref in k t) st = k tok (advance st)) \/
  (commandCount st <> 0 /\ S (instructionPointer st) = length (code st) /\
     (pointerIncrement ;; incCount ;; let* t := deref in k t) st =
       (Exit, failed NotEnoughInstructions (with_count (S (commandCount st)) st))).
Proof.
  intros (Hip & Hcnt & _). unfold pointerIncrement, advance, fetch_pos.
  autorewrite with mk.
  destruct (Nat.eqb_spec (commandCount st) 0) as [H0|H0].
  - left. destruct (lookup_lt_is_Some_2 (code st) (instructionPointer st) Hip) as [tok Htok].
    exists tok. split; [done|]. unfold incCount, deref. mk_simp. by rewrite Htok.
  - destruct (Nat.eqb_spec (S (instructionPointer st)) (length (code st))) as [Hl|Hl].
    + right. split; [done|]. split; [done|]. reflexivity.
    + left. assert (Hlt : S (instructionPointer st) < length (code st)) by lia.
      destruct (lookup_lt_is_Some_2 _ _ Hlt) as [tok Htok].
      exists tok. split; [done|]. unfold incCount, deref. mk_simp. by rewrite Htok.
Qed.

(** When the token exists, consuming it does not depend on [wf]. *)
Lemma consume_ok {A} (k : string -> M VM A) (st : VM) tok :
  code st !! fetch_pos st = Some tok ->
  (pointerIncrement ;; incCount ;; let* t := deref in k t) st = k tok (advance st).
Proof.
  intros Htok. unfold pointerIncrement, advance, fetch_pos in *. autorewrite with mk.
  destruct (Nat.eqb_spec (commandCount st) 0) as [H0|H0].
  - unfold incCount, deref. mk_simp. by rewrite Htok.
  - destruct (Nat.eqb_spec (S (instructionPointer st)) (length (code st))) as [Hl|Hl].
    + exfalso. rewrite lookup_ge_None_2 in Htok; [done | lia].
    + unfold incCount, deref. mk_simp. by rewrite Htok.
Qed.

Lemma advance_wf (st : VM) tok :
  wf st -> code st !! fetch_pos st = Some tok -> wf (advance st).
Proof.
  intros (Hip & Hcnt & Hreg) Htok. apply lookup_lt_Some in Htok.
  unfold wf, advance, fetch_pos in *. cbn.
  destruct (Nat.eqb_spec (commandCount st) 0); cbn in *; lia.
Qed.

Lemma fetch_pos_advance (st : VM) : fetch_pos (advance st) = S (fetch_pos st).
Proof. reflexivity. Qed.

Lemma advance_code (st : VM) : code (advance st) = code st.
Proof. reflexivity. Qed.

Lemma advance_stack (st : VM) : stack (advance st) = stack st.
Proof. reflexivity. Qed.

Lemma advance_registers (st : VM) : registers (advance st) = registers st.
Proof. reflexivity. Qed.

Lemma advance_output (st : VM) : output (advance st) = output st.
Proof. reflexivity. Qed.

Lemma advance_count (st : VM) : commandCount (advance st) = S (commandCount st).
Proof. reflexivity. Qed.

Lemma advance_running (st : VM) : isRunning (advance st) = isRunning st.
Proof. reflexivity. Qed.

#[export] Hint Rewrite fetch_pos_advance advance_code advance_stack advance_registers
  advance_output advance_count advance_running : mk.

Lemma next_tokens_cons (st : VM) tok rest :
  next_tokens st = tok :: rest ->
  code st !! fetch_pos st = Some tok /\ next_tokens (advance st) = rest.
Proof.
  unfold next_tokens. intros Hd.
  assert (Htok : code st !! fetch_pos st = Some tok).
  { rewrite <- (Nat.add_0_r (fetch_pos st)), <- lookup_drop, Hd. done. }
  split; [done|]. rewrite fetch_pos_advance, advance_code.
  rewrite (drop_S _ _ _ Htok) in Hd. congruence.
Qed.

Lemma next_tokens_advance (st : VM) tok rest :
  next_tokens st = tok :: rest -> next_tokens (advance st) = rest.
Proof. intros Hn. exact (proj2 (next_tokens_cons _ _ _ Hn)). Qed.

(** The three resolver functions, when the next token exists. *)
Lemma getRegister_ok (st : VM) tok r :
  code st !! fetch_pos st = Some tok -> registerSet !! tok = Some r ->
  getRegister st = (Ok r, advance st).
Proof. intros Htok Hr. unfold getRegister. rewrite (consume_ok _ _ _ Htok), Hr. done. Qed.

Lemma getRegister_unknown (st : VM) tok :
  code st !! fetch_pos st = Some tok -> registerSet !! tok = None ->
  getRegister st = (Exit, failed (RegisterUnknown tok) (advance st)).
Proof. intros Htok Hr. unfold getRegister. rewrite (consume_ok _ _ _ Htok), Hr. done. Qed.

Lemma getInstruction_ok (st : VM) tok n :
  code st !! fetch_pos st = Some tok -> instructionSet !! tok = Some n ->
  getInstruction st = (Ok n, advance st).
Proof. intros Htok Hn. unfold getInstruction. rewrite (consume_ok _ _ _ Htok), Hn. done. Qed.

Lemma getInstruction_unknown (st : VM) tok :
  code st !! fetch_pos st = Some tok -> instructionSet !! tok = None ->
  getInstruction st = (Exit, failed (InstructionUnknown tok) (advance st)).
Proof. intros Htok Hn. unfold getInstruction. rewrite (consume_ok _ _ _ Htok), Hn. done. Qed.

Lemma getNumber_ok `{CMath} (st : VM) tok v :
  code st !! fetch_pos st = Some tok -> c_stod tok = Some v ->
  getNumber st = (Ok v, advance st).
Proof. intros Htok Hv. unfold getNumber. rewrite (consume_ok _ _ _ Htok), Hv. done. Qed.

Lemma getNumber_bad `{CMath} (st : VM) tok :
  code st !! fetch_pos st = Some tok -> c_stod tok = None ->
  getNumber st = (Exit, failed (NumberIncorrect tok) (advance st)).
Proof. intros Htok Hv. unfold getNumber. rewrite (consume_ok _ _ _ Htok), Hv. done. Qed.

(** At the last token, every resolver call halts the machine. *)
Lemma consume_end {A} (k : string -> M VM A) (st : VM) :
  commandCount st <> 0 -> S (instructionPointer st) = length (code st) ->
  (pointerIncrement ;; incCount ;; let* t := deref in k t) st =
    (Exit, failed NotEnoughInstructions (with_count (S (commandCount st)) st)).
Proof.
  intros H0 Hl. unfold pointerIncrement. autorewrite with mk.
  destruct (Nat.eqb_spec (commandCount st) 0); [done|].
  destruct (Nat.eqb_spec (S (instructionPointer st)) (length (code st))); [|done].
  reflexivity.
Qed.

(** C8. The cursor rule of the Operand Resolver, shown on [getRegister]
    (the other two resolver functions share the prefix, [consume_spec]):
    from a well-formed state, [getRegister] either reads the token at
    [fetch_pos] (the token under the cursor for the very first read of
    the run, the next one afterwards), moves the cursor onto it, counts
    it, and returns its index or halts with "register unknown"; or, when
    the cursor is already on the last token, halts with "not enough
    instructions" after counting one more.  It never reads past the end
    of [code]. *)
Theorem getRegister_cursor (st : VM) :
  wf st ->
  (exists tok, code st !! fetch_pos st = Some tok /\
     getRegister st = match registerSet !! tok with
                      | Some r => (Ok r, advance st)
                      | None => (Exit, failed (RegisterUnknown tok) (advance st))
                      end) \/
  (commandCount st <> 0 /\ S (instructionPointer st) = length (code st) /\
   getRegister st = (Exit, failed NotEnoughInstructions (with_count (S (commandCount st)) st))).
Proof.
  intros Hwf. unfold getRegister.
  destruct (consume_spec (fun tok => match registerSet !! tok with
                                     | Some r => ret r
                                     | None => fatal (RegisterUnknown tok)
                                     end) st Hwf) as [(tok & Htok & ->)|(H0 & Hl & ->)].
  - left. exists tok. split; [done|]. by destruct (registerSet !! tok).
  - by right.
Qed.

Lemma getRegister_cursor_witness :
  wf (mkVM ["ADD"; "A"] 0 [] (replicate 7 PrimFloat.zero) true 1 []) /\
  ((exists tok,
      code (mkVM ["ADD"; "A"] 0 [] (replicate 7 PrimFloat.zero) true 1 []) !!
        fetch_pos (mkVM ["ADD"; "A"] 0 [] (replicate 7 PrimFloat.zero) true 1 []) = Some tok /\
      getRegister (mkVM ["ADD"; "A"] 0 [] (replicate 7 PrimFloat.zero) true 1 []) =
        match registerSet !! tok with
        | Some r => (Ok r, advance (mkVM ["ADD"; "A"] 0 [] (replicate 7 PrimFloat.zero) true 1 []))
        | None => (Exit, failed (RegisterUnknown tok)
                           (advance (mkVM ["ADD"; "A"] 0 [] (replicate 7 PrimFloat.zero) true 1 [])))
        end) \/
   (1 <> 0 /\ 1 = length ["ADD"; "A"] /\
    getRegister (mkVM ["ADD"; "A"] 0 [] (replicate 7 PrimFloat.zero) true 1 []) =
      (Exit, failed NotEnoughInstructions
               (with_count 2 (mkVM ["ADD"; "A"] 0 [] (replicate 7 PrimFloat.zero) true 1 []))))).
Proof.
  assert (Hwf : wf (mkVM ["ADD"; "A"] 0 [] (replicate 7 PrimFloat.zero) true 1 []))
    by (unfold wf; cbn; lia).
  split; [exact Hwf | exact (getRegister_cursor _ Hwf)].
Defined.
