(* ===== verification/Executor.v ===== *)
(** * Executor: the opcodes of VirtualMK and [operations]

    One definition per [case] of the [switch] in [operations]
    (VirtualMK.cpp lines 137-866).  The source writes ADD, SUB, MUL and
    POW as four copies of one block that differ only in the operator; the
    block is [arith] and the four opcodes are [arith] at their operator.
    DIV, whose checks are ordered differently, has its own definition.
    SQR, LOG and LON share the guarded in-place block [unary]; EXP, which
    has no guard, has its own.  The theorems state every branch: the
    functional result, the recoverable errors (one diagnostic, no state
    change) and the fatal ones ([exit] after the final dump). *)

From Stdlib Require Import Floats.
From stdpp Require Import base list strings gmap.
From S2P Require Import Prelude Values Tables Machine.

Local Open Scope mk_scope.

(** [switch (r) { case 0: ...; case 1: ... case 6: ...; default: ... }]
    over a register index. *)
Definition switch_reg {A} (r : nat) (caseS caseAF caseDefault : A) : A :=
  match r with
  | 0 => caseS
  | 1 | 2 | 3 | 4 | 5 | 6 => caseAF
  | _ => caseDefault
  end.

(** [vec.empty()]. *)
Definition empty {A} (l : list A) : bool :=
  match l with [] => true | _ => false end.
Arguments empty : simpl never.

(** [stack.pop_back()]. *)
Definition pop_back : M VM unit := modify (fun st => with_stack (tail (stack st)) st).

(** [stack.back() = v]. *)
Definition write_back (v : float) : M VM unit :=
  modify (fun st => with_stack (set_back v (stack st)) st).

Section Executor.
Context `{CMath}.

(** HLT (lines 140-142). *)
Definition op_HLT : M VM unit := execution.

(** PSH (lines 144-146): [stack.emplace_back(getNumber(ip))]. *)
Definition op_PSH : M VM unit :=
  let* v := getNumber in
  modify (fun st => with_stack (v :: stack st) st).

(** POP (lines 148-156). *)
Definition op_POP : M VM unit :=
  let* st := get in
  if negb (empty (stack st)) then
    emit (Popped (back (stack st))) ;;
    pop_back
  else report CouldNotPop.

(** The stack form of a binary operator (lines 163-165):
    [registers[0] = stack.back(); stack.pop_back();
     stack.back() = registers[0] OP stack.back();]. *)
Definition stack_apply (f : float -> float -> float) : M VM unit :=
  let* st := get in
  writeRegister 0 (back (stack st)) ;;
  pop_back ;;
  let* r0 := readRegister 0 in
  let* st := get in
  write_back (f r0 (back (stack st))).

(** The destination part of the register form (lines 192-212):
    read [regTarget]; it must name A..F;
    [registers[regTarget] = registers[regFirst] OP registers[regSecond]]. *)
Definition register_apply (f : float -> float -> float) (regFirst regSecond : nat)
  : M VM unit :=
  let* regTarget := getRegister in
  switch_reg regTarget
    (fatal RegisterIncorrect)
    (let* a := readRegister regFirst in
     let* b := readRegister regSecond in
     writeRegister regTarget (f a b))
    (fatal RegisterIncorrect).

(** ADD (lines 158-232), the block SUB, MUL and POW repeat. *)
Definition arith (f : float -> float -> float) : M VM unit :=
  let* regFirst := getRegister in
  switch_reg regFirst
    (let* st := get in
     if 2 <=? length (stack st) then stack_apply f
     else report StackNotEnoughValues)
    (let* regSecond := getRegister in
     if negb (regFirst =? regSecond) then
       switch_reg regSecond
         (fatal RegisterIncorrect)
         (register_apply f regFirst regSecond)
         (fatal RegisterIncorrect)
     else fatal RegisterIncorrect)
    (fatal RegisterIncorrect).

Definition op_ADD : M VM unit := arith PrimFloat.add.
(** SUB (lines 234-308). *)
Definition op_SUB : M VM unit := arith PrimFloat.sub.
(** MUL (lines 310-384). *)
Definition op_MUL : M VM unit := arith PrimFloat.mul.
(** POW (lines 473-547). *)
Definition op_POW : M VM unit := arith c_pow.

(** DIV (lines 386-471).  Unlike [arith], the register form reads
    [registers[regFirst]] and [registers[regSecond]] and tests them
    against zero before it checks [regSecond]; on a zero it reads and
    discards one more register token. *)
Definition op_DIV : M VM unit :=
  let* regFirst := getRegister in
  switch_reg regFirst
    (let* st := get in
     if 2 <=? length (stack st) then
       if ne0 (stack st !!! 0) && ne0 (stack st !!! 1) then stack_apply PrimFloat.div
       else report DivideByZero
     else report StackNotEnoughValues)
    (let* regSecond := getRegister in
     let* a := readRegister regFirst in
     let* b := readRegister regSecond in
     if ne0 a && ne0 b then
       if negb (regFirst =? regSecond) then
         switch_reg regSecond
           (fatal RegisterIncorrect)
           (register_apply PrimFloat.div regFirst regSecond)
           (fatal RegisterIncorrect)
       else fatal RegisterIncorrect
     else
       report DivideByZero ;;
       getRegister ;;
       ret tt)
    (fatal RegisterIncorrect).

(** SQR (lines 549-585), the guarded in-place block LOG and LON repeat:
    [ok] is the guard, [f] the function, [errS]/[errR] the diagnostics
    of a failed guard on the stack and on a register. *)
Definition unary (ok : float -> bool) (f : float -> float) (errS errR : float -> error)
  : M VM unit :=
  let* regFirst := getRegister in
  switch_reg regFirst
    (let* st := get in
     if negb (empty (stack st)) then
       if ok (back (stack st)) then write_back (f (back (stack st)))
       else report (errS (back (stack st)))
     else report StackEmpty)
    (let* v := readRegister regFirst in
     if ok v then writeRegister regFirst (f v)
     else report (errR v))
    (fatal RegisterIncorrect).

Definition op_SQR : M VM unit := unary ge0 PrimFloat.sqrt SqrtNegative SqrtNegative.
(** LOG (lines 587-623). *)
Definition op_LOG : M VM unit :=
  unary ne0 c_log10 (fun _ => StackValueZero) (fun _ => RegisterValueZero).
(** LON (lines 625-661). *)
Definition op_LON : M VM unit :=
  unary ne0 c_log (fun _ => StackValueZero) (fun _ => RegisterValueZero).

(** EXP (lines 663-689). *)
Definition op_EXP : M VM unit :=
  let* regFirst := getRegister in
  switch_reg regFirst
    (let* st := get in
     if negb (empty (stack st)) then write_back (c_exp (back (stack st)))
     else report StackEmpty)
    (let* v := readRegister regFirst in
     writeRegister regFirst (c_exp v))
    (fatal RegisterIncorrect).

(** [std::swap(registers[r], stack.back())]. *)
Definition swap_top (r : nat) : M VM unit :=
  let* st := get in
  let v := registers st !!! r in
  let t := back (stack st) in
  modify (fun st => with_registers (<[r := t]> (registers st))
                      (with_stack (set_back v (stack st)) st)).

(** [std::swap(registers[r1], registers[r2])]. *)
Definition swap_registers (r1 r2 : nat) : M VM unit :=
  let* a := readRegister r1 in
  let* b := readRegister r2 in
  writeRegister r1 b ;;
  writeRegister r2 a.

(** MOV (lines 691-769). *)
Definition op_MOV : M VM unit :=
  let* regFirst := getRegister in
  switch_reg regFirst
    (let* st := get in
     if negb (empty (stack st)) then
       let* regSecond := getRegister in
       switch_reg regSecond
         (fatal RegisterIncorrect)
         (swap_top regSecond)
         (fatal RegisterIncorrect)
     else fatal StackEmpty)
    (let* regSecond := getRegister in
     switch_reg regSecond
       (let* st := get in
        if negb (empty (stack st)) then swap_top regFirst
        else fatal StackEmpty)
       (if negb (regFirst =? regSecond) then swap_registers regFirst regSecond
        else fatal RegisterIncorrect)
       (fatal RegisterIncorrect))
    (fatal RegisterIncorrect).

(** SET (lines 771-849). *)
Definition op_SET : M VM unit :=
  let* regFirst := getRegister in
  switch_reg regFirst
    (let* st := get in
     if negb (empty (stack st)) then
       let* regSecond := getRegister in
       switch_reg regSecond
         (fatal RegisterIncorrect)
         (let* v := readRegister regSecond in write_back v)
         (fatal RegisterIncorrect)
     else fatal StackEmpty)
    (let* regSecond := getRegister in
     switch_reg regSecond
       (let* st := get in
        if negb (empty (stack st)) then writeRegister regFirst (back (stack st))
        else fatal StackEmpty)
       (if negb (regFirst =? regSecond) then
          let* v := readRegister regSecond in writeRegister regFirst v
        else fatal RegisterIncorrect)
       (fatal RegisterIncorrect))
    (fatal RegisterIncorrect).

(** PRT (lines 851-856). *)
Definition op_PRT : M VM unit :=
  let* st := get in emit (Dump (stack st) (registersAF st)).

(** NOP (lines 858-860). *)
Definition op_NOP : M VM unit := emit DoNothing.

(** The [switch] of [operations] (lines 139-865) on a decoded code.
    The [default] case, unreachable because [getInstruction] returns a
    code below 16, prints [instructionSet[*ip]]; the insertion
    [operator[]] would make into the table is not modelled. *)
Definition dispatch (n : nat) : M VM unit :=
  match n with
  | 0 => op_HLT
  | 1 => op_PSH
  | 2 => op_POP
  | 3 => op_ADD
  | 4 => op_SUB
  | 5 => op_MUL
  | 6 => op_DIV
  | 7 => op_POW
  | 8 => op_SQR
  | 9 => op_LOG
  | 10 => op_LON
  | 11 => op_EXP
  | 12 => op_MOV
  | 13 => op_SET
  | 14 => op_PRT
  | 15 => op_NOP
  | _ =>
      let* tok := deref in
      report (UnknownInstructionCode (default 0 (instructionSet !! tok)))
  end.

(** [operations] (lines 137-139): decode one instruction, run its case. *)
Definition operations : M VM unit :=
  let* n := getInstruction in
  dispatch n.
End Executor.

(** ** Reasoning about the handlers *)

(** The state a recoverable error [e] leaves: its line, nothing else. *)
Definition reported (e : error) (st : VM) : VM :=
  with_output (output st ++ [Error (commandCount st) e]) st.

(** A state just after [getInstruction] has read the first token [op] of
    the program [op :: toks]: the next resolver call reads [toks]. *)
Definition after_opcode (op : string) (toks : list string) (stk regs : list float) : VM :=
  mkVM (op :: toks) 0 stk regs true 1 [].

(** Seven registers at 0, as [main] starts them. *)
Definition zeros : list float := replicate 7 PrimFloat.zero.

(** The registers and the stack after a valid MOV [r1] [r2]: the two
    locations exchange their values (index 0 is the top of the stack). *)
Definition mov_effect (r1 r2 : nat) (regs stk : list float) : list float * list float :=
  if r1 =? 0 then (<[r2 := back stk]> regs, set_back (regs !!! r2) stk)
  else if r2 =? 0 then (<[r1 := back stk]> regs, set_back (regs !!! r1) stk)
  else (<[r2 := regs !!! r1]> (<[r1 := regs !!! r2]> regs), stk).

(** The registers and the stack after a valid SET [r1] [r2]: the first
    location receives the value of the second. *)
Definition set_effect (r1 r2 : nat) (regs stk : list float) : list float * list float :=
  if r1 =? 0 then (regs, set_back (regs !!! r2) stk)
  else if r2 =? 0 then (<[r1 := back stk]> regs, stk)
  else (<[r1 := regs !!! r2]> regs, stk).

Definition with_machine (p : list float * list float) (st : VM) : VM :=
  with_registers p.1 (with_stack p.2 st).

(** Seven registers with A = [a] and the scratch slot = [s]. *)
Definition regs_A_S (a s : float) : list float :=
  [s; a; PrimFloat.zero; PrimFloat.zero; PrimFloat.zero; PrimFloat.zero; PrimFloat.zero].

Lemma switch_reg_S {A} (a b c : A) : switch_reg 0 a b c = a.
Proof. reflexivity. Qed.

Lemma switch_reg_AF {A} r (a b c : A) : 0 < r < 7 -> switch_reg r a b c = b.
Proof. intros Hr. do 7 (destruct r as [|r]; [done || lia|]). lia. Qed.

Lemma switch_reg_default {A} r (a b c : A) : 7 <= r -> switch_reg r a b c = c.
Proof. intros Hr. do 7 (destruct r as [|r]; [lia|]). done. Qed.

Lemma report_spec (e : error) (st : VM) : report e st = (Ok tt, reported e st).
Proof. reflexivity. Qed.

Lemma emit_spec (ev : event) (st : VM) :
  emit ev st = (Ok tt, with_output (output st ++ [ev]) st).
Proof. reflexivity. Qed.

Lemma bind_report {A} (e : error) (k : unit -> M VM A) (st : VM) :
  bind (report e) k st = k tt (reported e st).
Proof. reflexivity. Qed.

Lemma bind_emit {A} (ev : event) (k : unit -> M VM A) (st : VM) :
  bind (emit ev) k st = k tt (with_output (output st ++ [ev]) st).
Proof. reflexivity. Qed.

Lemma next_tokens_reported (e : error) (st : VM) :
  next_tokens (reported e st) = next_tokens st.
Proof. reflexivity. Qed.

#[export] Hint Rewrite report_spec emit_spec @bind_report @bind_emit : mk.

Lemma bind_getRegister_ok {A} (k : nat -> M VM A) (st : VM) tok r :
  code st !! fetch_pos st = Some tok -> registerSet !! tok = Some r ->
  bind getRegister k st = k r (advance st).
Proof. intros Htok Hr. apply bind_Ok. exact (getRegister_ok st tok r Htok Hr). Qed.

Lemma bind_getRegister_unknown {A} (k : nat -> M VM A) (st : VM) tok :
  code st !! fetch_pos st = Some tok -> registerSet !! tok = None ->
  bind getRegister k st = (Exit, failed (RegisterUnknown tok) (advance st)).
Proof. intros Htok Hr. apply bind_Exit. exact (getRegister_unknown st tok Htok Hr). Qed.

(** [read_register Hn Hr] consumes the register token at the head of
    [next_tokens] (hypothesis [Hn]) whose lookup is [Hr], and leaves in
    [Hn] the tokens that follow. *)
Ltac read_register Hn Hr :=
  let Htok := fresh "Htok" in
  let Hn' := fresh "Hn" in
  destruct (next_tokens_cons _ _ _ Hn) as [Htok Hn'];
  rewrite (bind_getRegister_ok _ _ _ _ Htok Hr);
  clear Htok Hn; rename Hn' into Hn.

(** [exec] unfolds the statements of the handlers and normalises. *)
Ltac exec :=
  unfold stack_apply, register_apply, writeRegister, readRegister, pop_back,
    write_back, swap_top, swap_registers in *;
  mk_simp.

Lemma nonempty_empty {A} (l : list A) : l <> [] -> empty l = false.
Proof. by destruct l. Qed.

Lemma back_cons {A} `{Inhabited A} (x : A) l : back (x :: l) = x.
Proof. reflexivity. Qed.

#[export] Hint Rewrite @back_cons : mk.

(** ** The binary operators: ADD, SUB, MUL, POW *)

(** The stack form of a binary operator on two values: the scratch slot
    receives the top [x], and [y] becomes [f x y]. *)
Lemma stack_apply_spec (f : float -> float -> float) (st : VM) x y rest :
  stack st = x :: y :: rest -> length (registers st) = 7 ->
  stack_apply f st =
    (Ok tt, with_stack (f x y :: rest) (with_registers (<[0 := x]> (registers st)) st)).
Proof.
  intros Hs Hr. repeat (exec; rewrite ?Hs).
  rewrite list_lookup_total_insert_eq by lia. done.
Qed.

(** The destination part of the register form, on a named register. *)
Lemma register_apply_spec (f : float -> float -> float) (st : VM) t3 toks r1 r2 r3 :
  next_tokens st = t3 :: toks -> registerSet !! t3 = Some r3 -> r3 <> 0 ->
  register_apply f r1 r2 st =
    (Ok tt, with_registers (<[r3 := f (registers st !!! r1) (registers st !!! r2)]>
                              (registers st)) (advance st)).
Proof.
  intros Hn H3 N3. pose proof (registerSet_below _ _ H3).
  unfold register_apply. read_register Hn H3. rewrite switch_reg_AF by lia. by exec.
Qed.

Section Arith.
Context `{CMath} (f : float -> float -> float).

(** With S as first operand, [arith] tests the stack size. *)
Lemma arith_stack_form (st : VM) t1 toks :
  next_tokens st = t1 :: toks -> registerSet !! t1 = Some 0 ->
  arith f st =
    (if 2 <=? length (stack st) then stack_apply f else report StackNotEnoughValues)
      (advance st).
Proof.
  intros Hn H1. unfold arith. read_register Hn H1.
  rewrite switch_reg_S. by exec.
Qed.

(** With a named first operand and a valid second one, [arith] goes on
    to the destination. *)
Lemma arith_register_form (st : VM) t1 t2 toks r1 r2 :
  next_tokens st = t1 :: t2 :: toks ->
  registerSet !! t1 = Some r1 -> registerSet !! t2 = Some r2 ->
  r1 <> 0 -> r2 <> 0 -> r1 <> r2 ->
  arith f st = register_apply f r1 r2 (advance (advance st)).
Proof.
  intros Hn H1 H2 N1 N2 N12.
  pose proof (registerSet_below _ _ H1). pose proof (registerSet_below _ _ H2).
  unfold arith. read_register Hn H1. rewrite switch_reg_AF by lia.
  read_register Hn H2. destruct (Nat.eqb_spec r1 r2); [done|]. simpl.
  by rewrite switch_reg_AF by lia.
Qed.

(** C9. Stack form of a binary operator: with [S] as operand and at
    least two values, the top [x] is popped and the new top [y]
    becomes [x OP y]; the top is also left in [registers[0]], the
    scratch slot the source uses for it. *)
Theorem arith_stack (st : VM) x y rest toks :
  next_tokens st = "S" :: toks -> stack st = x :: y :: rest ->
  length (registers st) = 7 ->
  arith f st =
    (Ok tt, with_stack (f x y :: rest)
              (with_registers (<[0 := x]> (registers st)) (advance st))).
Proof.
  intros Hn Hs Hr. rewrite (arith_stack_form _ _ _ Hn eq_refl), Hs.
  exact (stack_apply_spec f (advance st) x y rest Hs Hr).
Qed.

(** C17. Stack form with fewer than two values: one recoverable
    diagnostic, no change to the stack or the registers. *)
Theorem arith_stack_short (st : VM) toks :
  next_tokens st = "S" :: toks -> length (stack st) < 2 ->
  arith f st = (Ok tt, reported StackNotEnoughValues (advance st)).
Proof.
  intros Hn Hs. rewrite (arith_stack_form _ _ _ Hn eq_refl).
  destruct (Nat.leb_spec 2 (length (stack st))); [lia | done].
Qed.
End Arith.

Section ArithRegisters.
Context `{CMath} (f : float -> float -> float).

(** C10. Register form of a binary operator: with three register
    operands [r1 r2 r3] naming A..F and [r1 <> r2],
    [registers[r3] = registers[r1] OP registers[r2]]; the stack is
    untouched and three operand tokens are consumed. *)
Theorem arith_registers (st : VM) t1 t2 t3 toks r1 r2 r3 :
  next_tokens st = t1 :: t2 :: t3 :: toks ->
  registerSet !! t1 = Some r1 -> registerSet !! t2 = Some r2 ->
  registerSet !! t3 = Some r3 ->
  r1 <> 0 -> r2 <> 0 -> r3 <> 0 -> r1 <> r2 ->
  arith f st =
    (Ok tt, with_registers
              (<[r3 := f (registers st !!! r1) (registers st !!! r2)]> (registers st))
              (advance (advance (advance st)))).
Proof.
  intros Hn H1 H2 H3 N1 N2 N3 N12.
  rewrite (arith_register_form f st t1 t2 (t3 :: toks) r1 r2) by done.
  do 2 apply next_tokens_advance in Hn.
  exact (register_apply_spec f _ t3 toks r1 r2 r3 Hn H3 N3).
Qed.

(** C18. Register form with an invalid second operand (the same
    register as the first, or S): fatal "register is incorrect" once the
    two operand tokens are read. *)
Theorem arith_register_incorrect (st : VM) t1 t2 toks r1 r2 :
  next_tokens st = t1 :: t2 :: toks ->
  registerSet !! t1 = Some r1 -> registerSet !! t2 = Some r2 ->
  r1 <> 0 -> r2 = r1 \/ r2 = 0 ->
  arith f st = (Exit, failed RegisterIncorrect (advance (advance st))).
Proof.
  intros Hn H1 H2 N1 Hbad. pose proof (registerSet_below _ _ H1).
  unfold arith. read_register Hn H1. rewrite switch_reg_AF by lia.
  read_register Hn H2.
  destruct Hbad as [->| ->]; [by rewrite Nat.eqb_refl|].
  destruct (Nat.eqb_spec r1 0); [done|]. done.
Qed.

(** Register form with S as destination: fatal after three tokens. *)
Lemma arith_target_stack (st : VM) t1 t2 t3 toks r1 r2 :
  next_tokens st = t1 :: t2 :: t3 :: toks ->
  registerSet !! t1 = Some r1 -> registerSet !! t2 = Some r2 ->
  registerSet !! t3 = Some 0 ->
  r1 <> 0 -> r2 <> 0 -> r1 <> r2 ->
  arith f st = (Exit, failed RegisterIncorrect (advance (advance (advance st)))).
Proof.
  intros Hn H1 H2 H3 N1 N2 N12.
  rewrite (arith_register_form f st t1 t2 (t3 :: toks) r1 r2) by done.
  do 2 apply next_tokens_advance in Hn.
  unfold register_apply. read_register Hn H3. by rewrite switch_reg_S.
Qed.
End ArithRegisters.

(** ** Witnesses of the binary-operator theorems *)


Lemma arith_stack_witness :
  next_tokens (after_opcode "ADD" ["S"] [2%float; 3%float] zeros) = "S" :: [] /\
  stack (after_opcode "ADD" ["S"] [2%float; 3%float] zeros) = 2%float :: 3%float :: [] /\
  length (registers (after_opcode "ADD" ["S"] [2%float; 3%float] zeros)) = 7 /\
  arith PrimFloat.add (after_opcode "ADD" ["S"] [2%float; 3%float] zeros) =
    (Ok tt, with_stack (PrimFloat.add 2%float 3%float :: [])
              (with_registers (<[0 := 2%float]> (registers (after_opcode "ADD" ["S"] [2%float; 3%float] zeros)))
                 (advance (after_opcode "ADD" ["S"] [2%float; 3%float] zeros)))).
Proof.
  split; [reflexivity|]. split; [reflexivity|]. split; [reflexivity|].
  apply (arith_stack PrimFloat.add _ 2%float 3%float [] []); reflexivity.
Defined.

Lemma arith_stack_short_witness :
  next_tokens (after_opcode "SUB" ["S"] [2%float] zeros) = "S" :: [] /\
  length (stack (after_opcode "SUB" ["S"] [2%float] zeros)) < 2 /\
  arith PrimFloat.sub (after_opcode "SUB" ["S"] [2%float] zeros) =
    (Ok tt, reported StackNotEnoughValues (advance (after_opcode "SUB" ["S"] [2%float] zeros))).
Proof.
  split; [reflexivity|]. split; [cbn; lia|].
  apply (arith_stack_short PrimFloat.sub _ []); [reflexivity | cbn; lia].
Defined.

Lemma arith_registers_witness :
  next_tokens (after_opcode "MUL" ["A"; "B"; "C"] [] zeros) = "A" :: "B" :: "C" :: [] /\
  arith PrimFloat.mul (after_opcode "MUL" ["A"; "B"; "C"] [] zeros) =
    (Ok tt, with_registers
              (<[3 := PrimFloat.mul (zeros !!! 1) (zeros !!! 2)]> zeros)
              (advance (advance (advance (after_opcode "MUL" ["A"; "B"; "C"] [] zeros))))).
Proof.
  split; [reflexivity|].
  apply (arith_registers PrimFloat.mul (after_opcode "MUL" ["A"; "B"; "C"] [] zeros)
           "A" "B" "C" [] 1 2 3);
    reflexivity || lia.
Defined.

Lemma arith_register_incorrect_witness :
  next_tokens (after_opcode "ADD" ["B"; "B"; "C"] [] zeros) = "B" :: "B" :: ["C"] /\
  arith PrimFloat.add (after_opcode "ADD" ["B"; "B"; "C"] [] zeros) =
    (Exit, failed RegisterIncorrect (advance (advance (after_opcode "ADD" ["B"; "B"; "C"] [] zeros)))).
Proof.
  split; [reflexivity|].
  apply (arith_register_incorrect PrimFloat.add _ "B" "B" ["C"] 2 2);
    [reflexivity | reflexivity | reflexivity | lia | left; reflexivity].
Defined.

(** ** DIV *)

(** DIV in register form when [registers[r1]] or [registers[r2]] is
    zero: the diagnostic, then one more register token is read. *)
Lemma div_zero_skip (st : VM) t1 t2 t3 toks r1 r2 r3 :
  next_tokens st = t1 :: t2 :: t3 :: toks ->
  registerSet !! t1 = Some r1 -> registerSet !! t2 = Some r2 ->
  registerSet !! t3 = Some r3 -> r1 <> 0 ->
  ne0 (registers st !!! r1) && ne0 (registers st !!! r2) = false ->
  op_DIV st = (Ok tt, advance (reported DivideByZero (advance (advance st)))).
Proof.
  intros Hn H1 H2 H3 N1 Hz. pose proof (registerSet_below _ _ H1).
  unfold op_DIV. read_register Hn H1. rewrite switch_reg_AF by lia.
  read_register Hn H2. exec. rewrite Hz. mk_simp.
  rewrite <- (next_tokens_reported DivideByZero) in Hn. read_register Hn H3. done.
Qed.

(** C11. DIV with a zero operand in register form (spec: "dividing by a
    register holding exactly 0.0 never mutates any register and emits
    exactly one recoverable diagnostic"): when [registers[r1]] or
    [registers[r2]] is zero, DIV continues, leaves every register and
    the stack as they were, prints exactly one line, "could not be
    divide by zero" stamped with the count of the second operand, and
    still consumes the third operand token.  The test comes before any
    check of [r2], so it also applies when [r2] is S or equals [r1]. *)
Theorem div_registers_zero (st : VM) t1 t2 t3 toks r1 r2 r3 :
  next_tokens st = t1 :: t2 :: t3 :: toks ->
  registerSet !! t1 = Some r1 -> registerSet !! t2 = Some r2 ->
  registerSet !! t3 = Some r3 -> r1 <> 0 ->
  ne0 (registers st !!! r1) && ne0 (registers st !!! r2) = false ->
  fst (op_DIV st) = Ok tt /\
  registers (snd (op_DIV st)) = registers st /\ stack (snd (op_DIV st)) = stack st /\
  output (snd (op_DIV st)) = output st ++ [Error (S (S (commandCount st))) DivideByZero] /\
  next_tokens (snd (op_DIV st)) = toks.
Proof.
  intros Hn H1 H2 H3 N1 Hz. rewrite (div_zero_skip _ _ _ _ _ _ _ _ Hn H1 H2 H3 N1 Hz).
  do 3 apply next_tokens_advance in Hn. by split_and!.
Qed.

(** DIV in register form with non-zero operands behaves as [arith]. *)
Lemma div_registers (st : VM) t1 t2 t3 toks r1 r2 r3 :
  next_tokens st = t1 :: t2 :: t3 :: toks ->
  registerSet !! t1 = Some r1 -> registerSet !! t2 = Some r2 ->
  registerSet !! t3 = Some r3 ->
  r1 <> 0 -> r2 <> 0 -> r3 <> 0 -> r1 <> r2 ->
  ne0 (registers st !!! r1) && ne0 (registers st !!! r2) = true ->
  op_DIV st =
    (Ok tt, with_registers
              (<[r3 := PrimFloat.div (registers st !!! r1) (registers st !!! r2)]> (registers st))
              (advance (advance (advance st)))).
Proof.
  intros Hn H1 H2 H3 N1 N2 N3 N12 Hz.
  pose proof (registerSet_below _ _ H1). pose proof (registerSet_below _ _ H2).
  unfold op_DIV. read_register Hn H1. rewrite switch_reg_AF by lia.
  read_register Hn H2. exec. rewrite Hz. destruct (Nat.eqb_spec r1 r2); [done|]. simpl.
  rewrite switch_reg_AF by lia.
  exact (register_apply_spec _ _ t3 toks r1 r2 r3 Hn H3 N3).
Qed.

(** C13. DIV whose second operand is S reads the scratch slot
    [registers[0]] (the last top of stack a stack-form ADD, SUB, MUL,
    DIV or POW saved there) before it rejects S: if the first register
    and that hidden slot are both non-zero the machine halts with
    "register is incorrect"; otherwise it reports a division by zero and
    goes on after reading one more register token. *)
Theorem div_stack_operand_scratch (st : VM) t1 t3 toks r1 r3 :
  next_tokens st = t1 :: "S" :: t3 :: toks ->
  registerSet !! t1 = Some r1 -> registerSet !! t3 = Some r3 -> r1 <> 0 ->
  op_DIV st =
    if ne0 (registers st !!! r1) && ne0 (registers st !!! 0)
    then (Exit, failed RegisterIncorrect (advance (advance st)))
    else (Ok tt, advance (reported DivideByZero (advance (advance st)))).
Proof.
  intros Hn H1 H3 N1.
  destruct (ne0 (registers st !!! r1) && ne0 (registers st !!! 0)) eqn:Hz;
    [|exact (div_zero_skip _ _ _ _ _ _ _ _ Hn H1 eq_refl H3 N1 Hz)].
  pose proof (registerSet_below _ _ H1).
  unfold op_DIV. read_register Hn H1. rewrite switch_reg_AF by lia.
  read_register Hn (eq_refl (Some 0)). exec. rewrite Hz.
  destruct (Nat.eqb_spec r1 0); [done|]. done.
Qed.

(** With S as first operand, DIV tests the size of the stack, then the
    two topmost values. *)
Lemma div_stack_form (st : VM) t1 toks :
  next_tokens st = t1 :: toks -> registerSet !! t1 = Some 0 ->
  op_DIV st =
    (if 2 <=? length (stack st) then
       if ne0 (stack st !!! 0) && ne0 (stack st !!! 1) then stack_apply PrimFloat.div
       else report DivideByZero
     else report StackNotEnoughValues) (advance st).
Proof.
  intros Hn H1. unfold op_DIV. read_register Hn H1.
  rewrite switch_reg_S. by exec.
Qed.

(** DIV in stack form: the top two values must both be non-zero. *)
Lemma div_stack (st : VM) x y rest toks :
  next_tokens st = "S" :: toks -> stack st = x :: y :: rest ->
  length (registers st) = 7 ->
  op_DIV st =
    if ne0 x && ne0 y
    then (Ok tt, with_stack (PrimFloat.div x y :: rest)
                   (with_registers (<[0 := x]> (registers st)) (advance st)))
    else (Ok tt, reported DivideByZero (advance st)).
Proof.
  intros Hn Hs Hr. rewrite (div_stack_form _ _ _ Hn eq_refl), Hs. cbn.
  destruct (ne0 x && ne0 y); [|done].
  exact (stack_apply_spec _ (advance st) x y rest Hs Hr).
Qed.

(** ** SQR, LOG, LON, EXP *)

Section Unary.
Context `{CMath} (ok : float -> bool) (f : float -> float) (errS errR : float -> error).

(** The guarded in-place form with S as operand. *)
Lemma unary_stack_form (st : VM) t1 toks :
  next_tokens st = t1 :: toks -> registerSet !! t1 = Some 0 ->
  unary ok f errS errR st =
    match stack st with
    | v :: rest =>
        if ok v then (Ok tt, with_stack (f v :: rest) (advance st))
        else (Ok tt, reported (errS v) (advance st))
    | [] => (Ok tt, reported StackEmpty (advance st))
    end.
Proof.
  intros Hn H1. unfold unary. read_register Hn H1.
  rewrite switch_reg_S. exec.
  destruct (stack st) as [|v rest] eqn:Hs; [done|]. repeat (exec; rewrite ?Hs).
  destruct (ok v); repeat (exec; rewrite ?Hs); done.
Qed.

(** The guarded in-place form on the top of the stack. *)
Lemma unary_stack (st : VM) v rest toks :
  next_tokens st = "S" :: toks -> stack st = v :: rest ->
  unary ok f errS errR st =
    if ok v then (Ok tt, with_stack (f v :: rest) (advance st))
    else (Ok tt, reported (errS v) (advance st)).
Proof. intros Hn Hs. by rewrite (unary_stack_form _ _ _ Hn eq_refl), Hs. Qed.

(** The guarded in-place form on a register A..F. *)
Lemma unary_register (st : VM) t1 toks r :
  next_tokens st = t1 :: toks -> registerSet !! t1 = Some r -> r <> 0 ->
  unary ok f errS errR st =
    if ok (registers st !!! r)
    then (Ok tt, with_registers (<[r := f (registers st !!! r)]> (registers st)) (advance st))
    else (Ok tt, reported (errR (registers st !!! r)) (advance st)).
Proof.
  intros Hn H1 N1. pose proof (registerSet_below _ _ H1).
  unfold unary. read_register Hn H1. rewrite switch_reg_AF by lia. exec.
  destruct (ok (registers st !!! r)); exec; done.
Qed.

(** On an empty stack: one recoverable "stack is empty". *)
Lemma unary_stack_empty (st : VM) toks :
  next_tokens st = "S" :: toks -> stack st = [] ->
  unary ok f errS errR st = (Ok tt, reported StackEmpty (advance st)).
Proof. intros Hn Hs. by rewrite (unary_stack_form _ _ _ Hn eq_refl), Hs. Qed.
End Unary.

(** EXP is the guarded in-place form with a guard that always holds
    (its two domain diagnostics are then never printed). *)
Lemma exp_unary `{CMath} (errS errR : float -> error) :
  op_EXP = unary (fun _ => true) c_exp errS errR.
Proof. reflexivity. Qed.

(** C21. SQR of a negative (or NaN) register value leaves the register
    unchanged and emits exactly one recoverable diagnostic, which carries
    the value (spec: "SQR on a negative register value leaves the
    register unchanged and emits exactly one recoverable diagnostic"). *)
Theorem sqr_negative_register `{CMath} (st : VM) t1 toks r :
  next_tokens st = t1 :: toks -> registerSet !! t1 = Some r -> r <> 0 ->
  ge0 (registers st !!! r) = false ->
  op_SQR st = (Ok tt, reported (SqrtNegative (registers st !!! r)) (advance st)).
Proof.
  intros Hn H1 N1 Hneg. unfold op_SQR.
  rewrite (unary_register _ _ _ _ _ _ _ _ Hn H1 N1), Hneg. done.
Qed.

(** SQR of a non-negative register value stores its IEEE square root. *)
Lemma sqr_register `{CMath} (st : VM) t1 toks r :
  next_tokens st = t1 :: toks -> registerSet !! t1 = Some r -> r <> 0 ->
  ge0 (registers st !!! r) = true ->
  op_SQR st =
    (Ok tt, with_registers (<[r := PrimFloat.sqrt (registers st !!! r)]> (registers st))
              (advance st)).
Proof.
  intros Hn H1 N1 Hpos. unfold op_SQR.
  rewrite (unary_register _ _ _ _ _ _ _ _ Hn H1 N1), Hpos. done.
Qed.

(** LOG and LON of a zero register report "register value is zero". *)
Lemma log_zero_register `{CMath} (st : VM) t1 toks r :
  next_tokens st = t1 :: toks -> registerSet !! t1 = Some r -> r <> 0 ->
  ne0 (registers st !!! r) = false ->
  op_LOG st = (Ok tt, reported RegisterValueZero (advance st)) /\
  op_LON st = (Ok tt, reported RegisterValueZero (advance st)).
Proof.
  intros Hn H1 N1 Hz. unfold op_LOG, op_LON.
  rewrite !(unary_register _ _ _ _ _ _ _ _ Hn H1 N1), Hz. done.
Qed.

(** EXP has no guard. *)
Lemma exp_register `{CMath} (st : VM) t1 toks r :
  next_tokens st = t1 :: toks -> registerSet !! t1 = Some r -> r <> 0 ->
  op_EXP st =
    (Ok tt, with_registers (<[r := c_exp (registers st !!! r)]> (registers st)) (advance st)).
Proof.
  intros Hn H1 N1. pose proof (registerSet_below _ _ H1).
  unfold op_EXP. read_register Hn H1. rewrite switch_reg_AF by lia. by exec.
Qed.

(** C22. SQR, LOG, LON and EXP with S on an empty stack report one
    recoverable "stack is empty" and change nothing else (the
    specification lists no such recoverable error). *)
Theorem unary_ops_empty_stack `{CMath} (st : VM) toks :
  next_tokens st = "S" :: toks -> stack st = [] ->
  op_SQR st = (Ok tt, reported StackEmpty (advance st)) /\
  op_LOG st = (Ok tt, reported StackEmpty (advance st)) /\
  op_LON st = (Ok tt, reported StackEmpty (advance st)) /\
  op_EXP st = (Ok tt, reported StackEmpty (advance st)).
Proof.
  intros Hn Hs. unfold op_SQR, op_LOG, op_LON.
  rewrite !(unary_stack_empty _ _ _ _ _ _ Hn Hs). split_and!; try done.
  unfold op_EXP. read_register Hn (eq_refl (Some 0)). rewrite switch_reg_S.
  exec. rewrite Hs. done.
Qed.

(** ** PSH and POP *)

Lemma psh_spec `{CMath} (st : VM) t toks v :
  next_tokens st = t :: toks -> c_stod t = Some v ->
  op_PSH st = (Ok tt, with_stack (v :: stack st) (advance st)).
Proof.
  intros Hn Hv. destruct (next_tokens_cons _ _ _ Hn) as [Htok _].
  unfold op_PSH. rewrite (bind_Ok _ _ _ _ _ (getNumber_ok _ _ _ Htok Hv)). by exec.
Qed.

Lemma psh_bad_number `{CMath} (st : VM) t toks :
  next_tokens st = t :: toks -> c_stod t = None ->
  op_PSH st = (Exit, failed (NumberIncorrect t) (advance st)).
Proof.
  intros Hn Hv. destruct (next_tokens_cons _ _ _ Hn) as [Htok _].
  unfold op_PSH. rewrite (bind_Exit _ _ _ _ (getNumber_bad _ _ Htok Hv)). done.
Qed.

Lemma pop_spec (st : VM) :
  op_POP st =
    match stack st with
    | v :: rest => (Ok tt, with_stack rest (with_output (output st ++ [Popped v]) st))
    | [] => (Ok tt, reported CouldNotPop st)
    end.
Proof.
  unfold op_POP, pop_back. mk_simp.
  destruct (stack st) as [|v rest] eqn:E; repeat (mk_simp; rewrite ?E); done.
Qed.

(** ** MOV and SET *)

(** MOV with two valid operands exchanges them. *)
Lemma mov_spec (st : VM) t1 t2 toks r1 r2 :
  next_tokens st = t1 :: t2 :: toks ->
  registerSet !! t1 = Some r1 -> registerSet !! t2 = Some r2 -> r1 <> r2 ->
  ((r1 = 0 \/ r2 = 0) -> stack st <> []) ->
  op_MOV st =
    (Ok tt, with_machine (mov_effect r1 r2 (registers st) (stack st)) (advance (advance st))).
Proof.
  intros Hn H1 H2 N12 Hs.
  pose proof (registerSet_below _ _ H1). pose proof (registerSet_below _ _ H2).
  unfold op_MOV, mov_effect. read_register Hn H1.
  destruct (Nat.eqb_spec r1 0) as [->|N1].
  - rewrite switch_reg_S. exec. rewrite (nonempty_empty _ (Hs (or_introl eq_refl))).
    exec. read_register Hn H2. rewrite switch_reg_AF by lia. exec. reflexivity.
  - rewrite switch_reg_AF by lia. read_register Hn H2.
    destruct (Nat.eqb_spec r2 0) as [->|N2].
    + rewrite switch_reg_S. exec. rewrite (nonempty_empty _ (Hs (or_intror eq_refl))).
      exec. reflexivity.
    + rewrite switch_reg_AF by lia. destruct (Nat.eqb_spec r1 r2); [done|].
      exec. reflexivity.
Qed.

(** SET with two valid operands copies the second into the first. *)
Lemma set_spec (st : VM) t1 t2 toks r1 r2 :
  next_tokens st = t1 :: t2 :: toks ->
  registerSet !! t1 = Some r1 -> registerSet !! t2 = Some r2 -> r1 <> r2 ->
  ((r1 = 0 \/ r2 = 0) -> stack st <> []) ->
  op_SET st =
    (Ok tt, with_machine (set_effect r1 r2 (registers st) (stack st)) (advance (advance st))).
Proof.
  intros Hn H1 H2 N12 Hs.
  pose proof (registerSet_below _ _ H1). pose proof (registerSet_below _ _ H2).
  unfold op_SET, set_effect. read_register Hn H1.
  destruct (Nat.eqb_spec r1 0) as [->|N1].
  - rewrite switch_reg_S. exec. rewrite (nonempty_empty _ (Hs (or_introl eq_refl))).
    exec. read_register Hn H2. rewrite switch_reg_AF by lia. exec. reflexivity.
  - rewrite switch_reg_AF by lia. read_register Hn H2.
    destruct (Nat.eqb_spec r2 0) as [->|N2].
    + rewrite switch_reg_S. exec. rewrite (nonempty_empty _ (Hs (or_intror eq_refl))).
      exec. reflexivity.
    + rewrite switch_reg_AF by lia. destruct (Nat.eqb_spec r1 r2); [done|].
      repeat exec. reflexivity.
Qed.

(** MOV and SET with S first on an empty stack: fatal before the second
    operand is read. *)
Lemma mov_set_empty_first (st : VM) t1 toks :
  next_tokens st = t1 :: toks -> registerSet !! t1 = Some 0 -> stack st = [] ->
  op_MOV st = (Exit, failed StackEmpty (advance st)) /\
  op_SET st = (Exit, failed StackEmpty (advance st)).
Proof.
  intros Hn H1 Hs. unfold op_MOV, op_SET.
  split; read_register Hn H1; rewrite switch_reg_S; exec; rewrite Hs; done.
Qed.

(** MOV and SET with a named register then S on an empty stack: fatal
    after both operands. *)
Lemma mov_set_empty_second (st : VM) t1 t2 toks r1 :
  next_tokens st = t1 :: t2 :: toks ->
  registerSet !! t1 = Some r1 -> registerSet !! t2 = Some 0 -> r1 <> 0 -> stack st = [] ->
  op_MOV st = (Exit, failed StackEmpty (advance (advance st))) /\
  op_SET st = (Exit, failed StackEmpty (advance (advance st))).
Proof.
  intros Hn H1 H2 N1 Hs. pose proof (registerSet_below _ _ H1). unfold op_MOV, op_SET.
  split; read_register Hn H1; rewrite switch_reg_AF by lia; read_register Hn H2;
    rewrite switch_reg_S; exec; rewrite Hs; done.
Qed.

(** C19. MOV and SET on an empty stack are fatal, unlike the arithmetic
    opcodes ([arith_stack_short]): with S as first operand the machine halts with "stack is
    empty" before reading the second operand; with S as second operand
    it halts after reading both. *)
Theorem mov_set_empty_stack (st : VM) t1 t2 toks r1 r2 :
  next_tokens st = t1 :: t2 :: toks ->
  registerSet !! t1 = Some r1 -> registerSet !! t2 = Some r2 -> stack st = [] ->
  (r1 = 0 ->
   op_MOV st = (Exit, failed StackEmpty (advance st)) /\
   op_SET st = (Exit, failed StackEmpty (advance st))) /\
  (r1 <> 0 -> r2 = 0 ->
   op_MOV st = (Exit, failed StackEmpty (advance (advance st))) /\
   op_SET st = (Exit, failed StackEmpty (advance (advance st)))).
Proof.
  intros Hn H1 H2 Hs. split.
  - intros ->. exact (mov_set_empty_first _ _ _ Hn H1 Hs).
  - intros N1 ->. exact (mov_set_empty_second _ _ _ _ _ Hn H1 H2 N1 Hs).
Qed.

(** ** Whole instructions *)

(** [operations] reads the opcode token and runs its case. *)
Lemma operations_decode `{CMath} (st : VM) tok toks n :
  next_tokens st = tok :: toks -> instructionSet !! tok = Some n ->
  operations st = dispatch n (advance st).
Proof.
  intros Hn Hi. destruct (next_tokens_cons _ _ _ Hn) as [Htok _].
  unfold operations. exact (bind_Ok _ _ _ _ _ (getInstruction_ok _ _ _ Htok Hi)).
Qed.

Lemma length_mov_effect r1 r2 regs stk :
  length (mov_effect r1 r2 regs stk).1 = length regs /\
  length (mov_effect r1 r2 regs stk).2 = length stk.
Proof.
  unfold mov_effect. destruct (r1 =? 0), (r2 =? 0); cbn;
    rewrite ?length_insert, ?length_set_back; done.
Qed.

Lemma length_set_effect r1 r2 regs stk :
  length (set_effect r1 r2 regs stk).1 = length regs /\
  length (set_effect r1 r2 regs stk).2 = length stk.
Proof.
  unfold set_effect. destruct (r1 =? 0), (r2 =? 0); cbn;
    rewrite ?length_insert, ?length_set_back; done.
Qed.

(** Exchanging two locations twice restores them. *)
Lemma mov_effect_involutive r1 r2 regs stk :
  r1 <> r2 -> r1 < length regs -> r2 < length regs ->
  ((r1 = 0 \/ r2 = 0) -> stk <> []) ->
  mov_effect r1 r2 (mov_effect r1 r2 regs stk).1 (mov_effect r1 r2 regs stk).2 = (regs, stk).
Proof.
  intros N12 L1 L2 Hs. unfold mov_effect.
  destruct (Nat.eqb_spec r1 0) as [->|N1]; cbn.
  - rewrite list_lookup_total_insert_eq, back_set_back, list_insert_insert_eq by naive_solver.
    by rewrite set_back_set_back, list_insert_lookup_total_id, set_back_back.
  - destruct (Nat.eqb_spec r2 0) as [->|N2]; cbn.
    + rewrite list_lookup_total_insert_eq, back_set_back, list_insert_insert_eq by naive_solver.
      by rewrite set_back_set_back, list_insert_lookup_total_id, set_back_back.
    + rewrite list_lookup_total_insert_eq by (rewrite length_insert; lia).
      rewrite list_lookup_total_insert_ne, list_lookup_total_insert_eq by done || lia.
      rewrite (list_insert_insert_ne _ r1 r2) by done.
      by rewrite !list_insert_insert_eq, !list_insert_lookup_total_id.
Qed.

(** Copying a location twice is copying it once. *)
Lemma set_effect_idempotent r1 r2 regs stk :
  r1 <> r2 -> r1 < length regs -> r2 < length regs ->
  ((r1 = 0 \/ r2 = 0) -> stk <> []) ->
  set_effect r1 r2 (set_effect r1 r2 regs stk).1 (set_effect r1 r2 regs stk).2 =
    set_effect r1 r2 regs stk.
Proof.
  intros N12 L1 L2 Hs. unfold set_effect.
  destruct (Nat.eqb_spec r1 0) as [->|N1]; cbn; [by rewrite set_back_set_back|].
  destruct (Nat.eqb_spec r2 0) as [->|N2]; cbn; [by rewrite list_insert_insert_eq|].
  rewrite list_lookup_total_insert_ne by done. by rewrite list_insert_insert_eq.
Qed.

(** The whole MOV and SET instructions. *)
Lemma operations_mov `{CMath} (st : VM) t1 t2 toks r1 r2 :
  next_tokens st = "MOV" :: t1 :: t2 :: toks ->
  registerSet !! t1 = Some r1 -> registerSet !! t2 = Some r2 -> r1 <> r2 ->
  ((r1 = 0 \/ r2 = 0) -> stack st <> []) ->
  operations st =
    (Ok tt, with_machine (mov_effect r1 r2 (registers st) (stack st))
              (advance (advance (advance st)))).
Proof.
  intros Hn H1 H2 N12 Hs. rewrite (operations_decode _ _ _ 12 Hn eq_refl).
  exact (mov_spec _ _ _ _ _ _ (next_tokens_advance _ _ _ Hn) H1 H2 N12 Hs).
Qed.

Lemma operations_set `{CMath} (st : VM) t1 t2 toks r1 r2 :
  next_tokens st = "SET" :: t1 :: t2 :: toks ->
  registerSet !! t1 = Some r1 -> registerSet !! t2 = Some r2 -> r1 <> r2 ->
  ((r1 = 0 \/ r2 = 0) -> stack st <> []) ->
  operations st =
    (Ok tt, with_machine (set_effect r1 r2 (registers st) (stack st))
              (advance (advance (advance st)))).
Proof.
  intros Hn H1 H2 N12 Hs. rewrite (operations_decode _ _ _ 13 Hn eq_refl).
  exact (set_spec _ _ _ _ _ _ (next_tokens_advance _ _ _ Hn) H1 H2 N12 Hs).
Qed.

Lemma nonempty_length {A} (l l' : list A) : length l' = length l -> l <> [] -> l' <> [].
Proof. intros E. rewrite <- !length_zero_iff_nil, E. done. Qed.

(** C20. MOV is self-inverse (spec: "MOV(x,y) followed by MOV(x,y)
    restores the original values of x and y"): two MOV instructions with
    the same valid operands leave the stack, the registers and the output
    as they were, and consume their six tokens. *)
Theorem mov_involutive `{CMath} (st : VM) t1 t2 toks r1 r2 :
  next_tokens st = "MOV" :: t1 :: t2 :: "MOV" :: t1 :: t2 :: toks ->
  registerSet !! t1 = Some r1 -> registerSet !! t2 = Some r2 -> r1 <> r2 ->
  ((r1 = 0 \/ r2 = 0) -> stack st <> []) -> length (registers st) = 7 ->
  exists st', (operations ;; operations) st = (Ok tt, st') /\
    stack st' = stack st /\ registers st' = registers st /\
    output st' = output st /\ next_tokens st' = toks.
Proof.
  intros Hn H1 H2 N12 Hs Hr.
  pose proof (registerSet_below _ _ H1). pose proof (registerSet_below _ _ H2).
  pose proof (length_mov_effect r1 r2 (registers st) (stack st)) as [L1 L2].
  rewrite (bind_Ok _ _ _ _ _ (operations_mov _ _ _ _ _ _ Hn H1 H2 N12 Hs)).
  set (st1 := with_machine _ _).
  assert (Hn1 : next_tokens st1 = "MOV" :: t1 :: t2 :: toks)
    by (do 3 apply next_tokens_advance in Hn; exact Hn).
  rewrite (operations_mov st1 _ _ _ _ _ Hn1 H1 H2 N12)
    by (intros Hor; exact (nonempty_length _ _ L2 (Hs Hor))).
  eexists. split; [reflexivity|]. cbn.
  rewrite mov_effect_involutive by (done || lia).
  do 3 apply next_tokens_advance in Hn1. done.
Qed.

(** SET is idempotent (spec: "applying SET(dest, src) twice in a row
    yields the same state as applying it once"): after a first SET with
    valid operands, a second identical SET leaves the stack and the
    registers as the first left them. *)
Theorem set_idempotent `{CMath} (st : VM) t1 t2 toks r1 r2 :
  next_tokens st = "SET" :: t1 :: t2 :: "SET" :: t1 :: t2 :: toks ->
  registerSet !! t1 = Some r1 -> registerSet !! t2 = Some r2 -> r1 <> r2 ->
  ((r1 = 0 \/ r2 = 0) -> stack st <> []) -> length (registers st) = 7 ->
  exists st1 st2, operations st = (Ok tt, st1) /\ operations st1 = (Ok tt, st2) /\
    stack st2 = stack st1 /\ registers st2 = registers st1 /\ output st2 = output st1.
Proof.
  intros Hn H1 H2 N12 Hs Hr.
  pose proof (registerSet_below _ _ H1). pose proof (registerSet_below _ _ H2).
  pose proof (length_set_effect r1 r2 (registers st) (stack st)) as [L1 L2].
  eexists _, _. split; [exact (operations_set _ _ _ _ _ _ Hn H1 H2 N12 Hs)|].
  set (st1 := with_machine _ _).
  assert (Hn1 : next_tokens st1 = "SET" :: t1 :: t2 :: toks)
    by (do 3 apply next_tokens_advance in Hn; exact Hn).
  split; [exact (operations_set st1 _ _ _ _ _ Hn1 H1 H2 N12
                   (fun Hor => nonempty_length _ _ L2 (Hs Hor)))|].
  cbn. rewrite set_effect_idempotent by (done || lia). done.
Qed.

(** C16. PSH then POP round-trips the value (spec: "PSH followed by POP
    round-trips the exact value pushed"): the stack and the registers are
    as before and the only line printed is the popped value, the double
    [std::stod] read from the literal. *)
Theorem psh_pop_roundtrip `{CMath} (st : VM) t toks v :
  next_tokens st = "PSH" :: t :: "POP" :: toks -> c_stod t = Some v ->
  exists st', (operations ;; operations) st = (Ok tt, st') /\
    stack st' = stack st /\ registers st' = registers st /\
    output st' = output st ++ [Popped v] /\ next_tokens st' = toks.
Proof.
  intros Hn Hv.
  assert (E1 : operations st = (Ok tt, with_stack (v :: stack st) (advance (advance st)))).
  { rewrite (operations_decode _ _ _ 1 Hn eq_refl).
    exact (psh_spec _ _ _ _ (next_tokens_advance _ _ _ Hn) Hv). }
  rewrite (bind_Ok _ _ _ _ _ E1).
  set (st1 := with_stack _ _).
  assert (Hn1 : next_tokens st1 = "POP" :: toks)
    by (do 2 apply next_tokens_advance in Hn; exact Hn).
  rewrite (operations_decode _ _ _ 2 Hn1 eq_refl), pop_spec.
  eexists. split; [reflexivity|]. cbn. split_and!; try done.
  exact (next_tokens_advance _ _ _ Hn1).
Qed.

(** ** Witnesses of the opcode theorems *)

Lemma div_registers_zero_witness :
  ne0 (zeros !!! 1) && ne0 (zeros !!! 2) = false /\
  next_tokens (snd (op_DIV (after_opcode "DIV" ["A"; "B"; "C"] [] zeros))) = [].
Proof.
  split; [reflexivity|].
  exact (proj2 (proj2 (proj2 (proj2
    (div_registers_zero (after_opcode "DIV" ["A"; "B"; "C"] [] zeros) "A" "B" "C" [] 1 2 3
       eq_refl eq_refl eq_refl eq_refl ltac:(lia) eq_refl))))).
Defined.

Lemma div_stack_operand_scratch_witness :
  op_DIV (after_opcode "DIV" ["A"; "S"; "B"] [] (regs_A_S 4%float 2%float)) =
    (Exit, failed RegisterIncorrect
             (advance (advance (after_opcode "DIV" ["A"; "S"; "B"] [] (regs_A_S 4%float 2%float))))).
Proof.
  exact (div_stack_operand_scratch (after_opcode "DIV" ["A"; "S"; "B"] [] (regs_A_S 4%float 2%float))
           "A" "B" [] 1 2 eq_refl eq_refl eq_refl ltac:(lia)).
Defined.

Lemma mov_set_empty_stack_witness :
  op_MOV (after_opcode "MOV" ["S"; "A"] [] zeros) =
    (Exit, failed StackEmpty (advance (after_opcode "MOV" ["S"; "A"] [] zeros))) /\
  op_SET (after_opcode "SET" ["S"; "A"] [] zeros) =
    (Exit, failed StackEmpty (advance (after_opcode "SET" ["S"; "A"] [] zeros))).
Proof.
  split.
  - exact (proj1 (proj1 (mov_set_empty_stack (after_opcode "MOV" ["S"; "A"] [] zeros) "S" "A" [] 0 1
                   eq_refl eq_refl eq_refl eq_refl) eq_refl)).
  - exact (proj2 (proj1 (mov_set_empty_stack (after_opcode "SET" ["S"; "A"] [] zeros) "S" "A" [] 0 1
                   eq_refl eq_refl eq_refl eq_refl) eq_refl)).
Defined.

Lemma sqr_negative_register_witness :
  ge0 (regs_A_S (-4)%float PrimFloat.zero !!! 1) = false /\
  op_SQR (after_opcode "SQR" ["A"] [] (regs_A_S (-4)%float PrimFloat.zero)) =
    (Ok tt, reported (SqrtNegative (-4)%float)
              (advance (after_opcode "SQR" ["A"] [] (regs_A_S (-4)%float PrimFloat.zero)))).
Proof.
  split; [reflexivity|].
  exact (sqr_negative_register (H := integer_cmath)
           (after_opcode "SQR" ["A"] [] (regs_A_S (-4)%float PrimFloat.zero)) "A" [] 1 eq_refl eq_refl ltac:(lia) eq_refl).
Defined.

Lemma unary_ops_empty_stack_witness :
  @op_LOG integer_cmath (after_opcode "LOG" ["S"] [] zeros) =
    (Ok tt, reported StackEmpty (advance (after_opcode "LOG" ["S"] [] zeros))).
Proof.
  exact (proj1 (proj2 (unary_ops_empty_stack (H := integer_cmath)
                        (after_opcode "LOG" ["S"] [] zeros) [] eq_refl eq_refl))).
Defined.

Lemma mov_involutive_witness :
  exists st', (@operations integer_cmath ;; @operations integer_cmath)
                (mkVM ["MOV"; "A"; "S"; "MOV"; "A"; "S"] 0 [5%float] zeros true 0 []) = (Ok tt, st') /\
    stack st' = [5%float] /\ registers st' = zeros /\ output st' = [] /\ next_tokens st' = [].
Proof.
  exact (mov_involutive (H := integer_cmath)
           (mkVM ["MOV"; "A"; "S"; "MOV"; "A"; "S"] 0 [5%float] zeros true 0 []) "A" "S" [] 1 0 eq_refl eq_refl eq_refl
           ltac:(lia) ltac:(done) eq_refl).
Defined.

Lemma set_idempotent_witness :
  exists st1 st2,
    @operations integer_cmath (mkVM ["SET"; "S"; "B"; "SET"; "S"; "B"] 0 [5%float] zeros true 0 []) =
      (Ok tt, st1) /\
    @operations integer_cmath st1 = (Ok tt, st2) /\
    stack st2 = stack st1 /\ registers st2 = registers st1 /\ output st2 = output st1.
Proof.
  exact (set_idempotent (H := integer_cmath)
           (mkVM ["SET"; "S"; "B"; "SET"; "S"; "B"] 0 [5%float] zeros true 0 []) "S" "B" [] 0 2 eq_refl eq_refl eq_refl
           ltac:(lia) ltac:(done) eq_refl).
Defined.

Lemma psh_pop_roundtrip_witness :
  exists st', (@operations integer_cmath ;; @operations integer_cmath)
                (mkVM ["PSH"; "7"; "POP"] 0 [] zeros true 0 []) = (Ok tt, st') /\
    stack st' = [] /\ registers st' = zeros /\ output st' = [Popped 7%float] /\ next_tokens st' = [].
Proof.
  exact (psh_pop_roundtrip (H := integer_cmath) (mkVM ["PSH"; "7"; "POP"] 0 [] zeros true 0 []) "7" [] 7%float eq_refl eq_refl).
Defined.
