(* ===== verification/Libm.v ===== *)
(** * Libm: what the C standard requires of [std::log10], [std::log],
    [std::exp] and [std::pow]

    The values of the transcendental functions are not fixed by
    IEEE-754, and the machine is parametric in them (the class [CMath]).
    Annex F of the C standard (IEC 60559 floating-point arithmetic,
    F.10) does fix their special cases, which every conforming library
    (glibc among them) returns: [log] and [log10] of a negative number
    or of a NaN is a NaN, of [+-0] is [-inf], of 1 is [+0], of [+inf]
    is [+inf]; [exp] of [+-0] is 1, of [-inf] is [+0], of [+inf] is
    [+inf], of a NaN a NaN; [pow x (+-0)] is 1 for every [x], NaN
    included, and [pow 1 y] is 1 for every [y].  [CMathLaws] states
    them of a [CMath]; the theorems of this file hold for every library
    that satisfies them.  [special_cmath] is a [CMath] that returns
    exactly these values and a NaN everywhere else: it shows the laws
    can be met together and runs the witnesses. *)

From Stdlib Require Import Floats ZArith.
From stdpp Require Import base list strings.
From S2P Require Import Prelude Values Tables Machine Executor.

Local Open Scope float_scope.

(** A double is negative: [x < 0]. *)
Definition negative (x : float) : bool := PrimFloat.ltb x PrimFloat.zero.

(** A double is a zero, [+0] or [-0]: [x == 0]. *)
Definition is_zero (x : float) : bool := PrimFloat.eqb x PrimFloat.zero.

Class CMathLaws (C : CMath) := {
  log10_domain : forall x, negative x = true \/ PrimFloat.is_nan x = true ->
                 PrimFloat.is_nan (@c_log10 C x) = true;
  log_domain : forall x, negative x = true \/ PrimFloat.is_nan x = true ->
               PrimFloat.is_nan (@c_log C x) = true;
  log10_zero : forall x, is_zero x = true -> @c_log10 C x = PrimFloat.neg_infinity;
  log_zero : forall x, is_zero x = true -> @c_log C x = PrimFloat.neg_infinity;
  log10_one : @c_log10 C 1 = 0;
  log_one : @c_log C 1 = 0;
  log10_inf : @c_log10 C PrimFloat.infinity = PrimFloat.infinity;
  log_inf : @c_log C PrimFloat.infinity = PrimFloat.infinity;
  exp_zero : forall x, is_zero x = true -> @c_exp C x = 1;
  exp_neg_inf : @c_exp C PrimFloat.neg_infinity = 0;
  exp_inf : @c_exp C PrimFloat.infinity = PrimFloat.infinity;
  exp_nan : forall x, PrimFloat.is_nan x = true -> PrimFloat.is_nan (@c_exp C x) = true;
  pow_zero : forall x y, is_zero y = true -> @c_pow C x y = 1;
  pow_one : forall y, @c_pow C 1 y = 1
}.

(** The logarithm (either base) fixed by Annex F, or [None] where it
    leaves the value to the library. *)
Definition special_log (x : float) : option float :=
  if PrimFloat.is_nan x || negative x then Some PrimFloat.nan
  else if is_zero x then Some PrimFloat.neg_infinity
  else if PrimFloat.eqb x 1 then Some 0
  else if PrimFloat.eqb x PrimFloat.infinity then Some PrimFloat.infinity
  else None.

Definition special_exp (x : float) : option float :=
  if PrimFloat.is_nan x then Some PrimFloat.nan
  else if is_zero x then Some 1
  else if PrimFloat.eqb x PrimFloat.neg_infinity then Some 0
  else if PrimFloat.eqb x PrimFloat.infinity then Some PrimFloat.infinity
  else None.

Definition special_pow (x y : float) : option float :=
  if is_zero y || PrimFloat.eqb x 1 then Some 1 else None.

Definition special_cmath : CMath := {|
  c_pow := fun x y => default PrimFloat.nan (special_pow x y);
  c_log10 := fun x => default PrimFloat.nan (special_log x);
  c_log := fun x => default PrimFloat.nan (special_log x);
  c_exp := fun x => default PrimFloat.nan (special_exp x);
  c_stod := integer_stod
|}.

(** ** Comparisons of doubles *)

Lemma sf_eqb_refl (x : SpecFloat.spec_float) :
  x <> SpecFloat.S754_nan -> SpecFloat.SFeqb x x = true.
Proof.
  intros Hx. destruct x as [[]|[]| |[] m e]; try done; unfold SpecFloat.SFeqb; cbn;
    by rewrite Z.compare_refl, Pos.compare_cont_refl.
Qed.

(** A NaN is the one double that differs from itself. *)
Lemma is_nan_sf (x : float) : PrimFloat.is_nan x = true -> FloatOps.Prim2SF x = SpecFloat.S754_nan.
Proof.
  unfold PrimFloat.is_nan. rewrite FloatAxioms.eqb_spec.
  destruct (FloatOps.Prim2SF x) eqn:E; [| |reflexivity|];
    rewrite sf_eqb_refl by discriminate; discriminate.
Qed.

(** A negative double and a NaN both pass the guard [x != 0]. *)
Lemma ne0_negative_or_nan (x : float) :
  negative x = true \/ PrimFloat.is_nan x = true -> ne0 x = true.
Proof.
  unfold ne0, negative. rewrite FloatAxioms.eqb_spec. intros [Hl|Hn].
  - rewrite FloatAxioms.ltb_spec in Hl. unfold SpecFloat.SFltb in Hl. unfold SpecFloat.SFeqb.
    by destruct (SpecFloat.SFcompare _ _) as [[]|].
  - by rewrite (is_nan_sf x Hn).
Qed.

(** A zero is neither a NaN nor negative. *)
Lemma is_zero_sf (x : float) : is_zero x = true ->
  exists s, FloatOps.Prim2SF x = SpecFloat.S754_zero s.
Proof.
  unfold is_zero. rewrite FloatAxioms.eqb_spec.
  destruct (FloatOps.Prim2SF x) as [[]|[]| |[] m e]; try discriminate; eauto.
Qed.

Lemma is_zero_not_nan (x : float) : is_zero x = true -> PrimFloat.is_nan x = false.
Proof.
  intros [s Hs]%is_zero_sf. unfold PrimFloat.is_nan. rewrite FloatAxioms.eqb_spec, Hs.
  by destruct s.
Qed.

Lemma is_zero_not_negative (x : float) : is_zero x = true -> negative x = false.
Proof.
  intros [s Hs]%is_zero_sf. unfold negative. rewrite FloatAxioms.ltb_spec, Hs.
  by destruct s.
Qed.

(** [special_cmath] meets the laws. *)
Lemma special_cmath_laws : CMathLaws special_cmath.
Proof.
  split; cbn [c_pow c_log10 c_log c_exp special_cmath].
  all: try (intros x [Hx|Hx]; unfold special_log; rewrite Hx, ?orb_true_r; reflexivity).
  all: try (intros x Hx; unfold special_log, special_exp;
            rewrite ?(is_zero_not_nan x Hx), ?(is_zero_not_negative x Hx), Hx; reflexivity).
  all: try (vm_compute; reflexivity).
  - intros x y Hy. unfold special_pow. rewrite Hy. reflexivity.
  - intros y. unfold special_pow. rewrite orb_true_r. reflexivity.
Qed.

Section LibmTheorems.
Context {C : CMath} {HC : CMathLaws C}.

(** C23. LOG and LON of a negative value or of a NaN on the top of the stack
    (the specification, section 4: "Guard: value must be != 0") pass the
    source's guard [stack.back() != 0]: no diagnostic is printed, and
    Annex F puts a NaN on the stack.  The specification says stack
    values are always real numbers and lists only the logarithm of zero
    among the recoverable errors. *)
Theorem log_domain_silent (st : VM) t1 toks v rest :
  next_tokens st = t1 :: toks -> registerSet !! t1 = Some 0%nat -> stack st = v :: rest ->
  negative v = true \/ PrimFloat.is_nan v = true ->
  op_LOG st = (Ok tt, with_stack (c_log10 v :: rest) (advance st)) /\
  PrimFloat.is_nan (c_log10 v) = true /\
  op_LON st = (Ok tt, with_stack (c_log v :: rest) (advance st)) /\
  PrimFloat.is_nan (c_log v) = true.
Proof.
  intros Hn H1 Hs Hv. unfold op_LOG, op_LON.
  rewrite !(unary_stack_form _ _ _ _ _ _ _ Hn H1), Hs, (ne0_negative_or_nan v Hv).
  split_and!; [done | by apply log10_domain | done | by apply log_domain].
Qed.

(** The same on a register A..F: [registers[r] != 0] passes and the
    register becomes a NaN. *)
Lemma log_domain_register (st : VM) t1 toks r :
  next_tokens st = t1 :: toks -> registerSet !! t1 = Some r -> r <> 0%nat ->
  negative (registers st !!! r) = true \/ PrimFloat.is_nan (registers st !!! r) = true ->
  op_LOG st = (Ok tt, with_registers (<[r := c_log10 (registers st !!! r)]> (registers st)) (advance st)) /\
  PrimFloat.is_nan (c_log10 (registers st !!! r)) = true.
Proof.
  intros Hn H1 Hr Hv. unfold op_LOG.
  rewrite (unary_register _ _ _ _ _ _ _ _ Hn H1 Hr), (ne0_negative_or_nan _ Hv).
  split; [done | by apply log10_domain].
Qed.

(** LOG and LON of 1 store [+0]; EXP of a zero stores 1. *)
Lemma log_exp_exact (st : VM) t1 toks rest :
  next_tokens st = t1 :: toks -> registerSet !! t1 = Some 0%nat ->
  (stack st = 1 :: rest ->
   op_LOG st = (Ok tt, with_stack (0 :: rest) (advance st)) /\
   op_LON st = (Ok tt, with_stack (0 :: rest) (advance st))) /\
  (forall z, is_zero z = true -> stack st = z :: rest ->
   op_EXP st = (Ok tt, with_stack (1 :: rest) (advance st))).
Proof.
  intros Hn H1. split.
  - intros Hs. unfold op_LOG, op_LON.
    rewrite !(unary_stack_form _ _ _ _ _ _ _ Hn H1), Hs, log10_one, log_one. done.
  - intros z Hz Hs. rewrite (exp_unary (fun _ => StackEmpty) (fun _ => StackEmpty)).
    rewrite (unary_stack_form _ _ _ _ _ _ _ Hn H1), Hs, exp_zero by exact Hz. done.
Qed.
End LibmTheorems.

Lemma log_domain_silent_witness :
  negative (-5) = true /\
  @op_LOG special_cmath (after_opcode "LOG" ["S"] [(-5)%float] zeros) =
    (Ok tt, with_stack [@c_log10 special_cmath (-5)] (advance (after_opcode "LOG" ["S"] [(-5)%float] zeros))).
Proof.
  split; [vm_compute; reflexivity|].
  exact (proj1 (@log_domain_silent special_cmath special_cmath_laws
                  (after_opcode "LOG" ["S"] [(-5)%float] zeros) "S" [] (-5)%float []
                  eq_refl eq_refl eq_refl (or_introl (eq_refl true)))).
Defined.
