(* ===== verification/Run.v ===== *)
(** * Run: the main loop of VirtualMK

    [while (isRunning) { operations(instructionPointer); }] (lines
    894-898) as [run], with a fuel bound.  The theorems of this file are
    about whole runs: the well-formedness invariant of running states,
    the absence of undefined behaviour, and the bound on the number of
    iterations after which every run has called [exit]. *)

From Stdlib Require Import Floats.
From stdpp Require Import base list strings gmap.
From S2P Require Import Prelude Values Tables Machine Executor.

Local Open Scope mk_scope.

(** ** Safety of a statement *)

(** The machine has stopped through [execution()]: [isRunning] is false
    and the last line printed is the final dump of its stack and
    registers. *)
Definition exited (st : VM) : Prop :=
  isRunning st = false /\
  exists pre, output st = pre ++ [Finished (stack st) (registersAF st)].

(** A statement is safe, with [R] relating the token counts before and
    after, when from every well-formed running state it never reaches
    undefined behaviour, and either completes in a well-formed running
    state over the same program whose count is related by [R], or exits
    through [execution()]. *)
Definition safe {A} (R : nat -> nat -> Prop) (m : M VM A) : Prop :=
  forall st, wf st -> isRunning st = true ->
    match m st with
    | (Ok _, st') =>
        wf st' /\ isRunning st' = true /\ code st' = code st /\
        R (commandCount st) (commandCount st')
    | (Exit, st') => exited st'
    | (Stuck, _) => False
    end.

Section Run.
Context `{CMath}.

(** The loop, for at most [fuel] iterations. *)
Fixpoint run (fuel : nat) : M VM unit :=
  match fuel with
  | 0 => ret tt
  | S fuel' =>
      let* st := get in
      if isRunning st then operations ;; run fuel' else ret tt
  end.
End Run.

(** The states the loop passes through: the initial one, and every state
    an iteration that did not exit returns. *)
Inductive reachable `{CMath} (prog : list string) : VM -> Prop :=
| reach_init : reachable prog (initial prog)
| reach_step st st' : reachable prog st -> operations st = (Ok tt, st') -> reachable prog st'.

(** ** Safety of the elementary statements *)

Lemma safe_weaken {A} (R R' : nat -> nat -> Prop) (m : M VM A) :
  (forall x y, R x y -> R' x y) -> safe R m -> safe R' m.
Proof.
  intros HR Hm st Hwf Hrun. specialize (Hm st Hwf Hrun).
  destruct (m st) as [[] st']; naive_solver.
Qed.

Lemma safe_bind {A B} (R1 R2 R : nat -> nat -> Prop) (m : M VM A) (k : A -> M VM B) :
  (forall x y z, R1 x y -> R2 y z -> R x z) ->
  safe R1 m -> (forall a, safe R2 (k a)) -> safe R (bind m k).
Proof.
  intros HR Hm Hk st Hwf Hrun. specialize (Hm st Hwf Hrun). unfold bind.
  destruct (m st) as [[a| |] st']; [|done|done].
  destruct Hm as (Hwf' & Hrun' & Hc & Hr). specialize (Hk a st' Hwf' Hrun').
  destruct (k a st') as [[b| |] st'']; [|done|done].
  destruct Hk as (? & ? & Hc' & Hr'). split_and!; [done | done | congruence | eauto].
Qed.

Lemma safe_bind_le {A B} (m : M VM A) (k : A -> M VM B) :
  safe le m -> (forall a, safe le (k a)) -> safe le (bind m k).
Proof. apply safe_bind. lia. Qed.

Lemma safe_bind_lt {A B} (m : M VM A) (k : A -> M VM B) :
  safe lt m -> (forall a, safe le (k a)) -> safe lt (bind m k).
Proof. apply safe_bind. lia. Qed.

(** A statement that only rewrites the stack, the registers (keeping
    seven of them) or the output is safe. *)
Lemma safe_modify (f : VM -> VM) :
  (forall st, code (f st) = code st /\ instructionPointer (f st) = instructionPointer st /\
              commandCount (f st) = commandCount st /\ isRunning (f st) = isRunning st /\
              length (registers (f st)) = length (registers st)) ->
  safe le (modify f).
Proof.
  intros Hf st (Hip & Hc & Hr) Hrun. destruct (Hf st) as (E1 & E2 & E3 & E4 & E5).
  unfold modify, wf. rewrite E1, E2, E3, E4, E5. naive_solver lia.
Qed.

Lemma safe_ret {A} (a : A) : safe le (ret a).
Proof. intros st Hwf Hrun. unfold ret. naive_solver. Qed.

Lemma safe_get : safe le get.
Proof. intros st Hwf Hrun. unfold ret. naive_solver. Qed.

Lemma safe_gets {A} (f : VM -> A) : safe le (gets f).
Proof. intros st Hwf Hrun. unfold gets. naive_solver. Qed.

Lemma safe_emit ev : safe le (emit ev).
Proof. apply safe_modify. done. Qed.

Lemma safe_report e : safe le (report e).
Proof. apply safe_bind_le; [apply safe_get | intros; apply safe_emit]. Qed.

Lemma safe_writeRegister i v : safe le (writeRegister i v).
Proof. apply safe_modify. intros st. cbn. by rewrite length_insert. Qed.

Lemma safe_readRegister i : safe le (readRegister i).
Proof. apply safe_gets. Qed.

Lemma safe_pop_back : safe le pop_back.
Proof. apply safe_modify. done. Qed.

Lemma safe_write_back v : safe le (write_back v).
Proof. apply safe_modify. done. Qed.

Lemma exited_stop (st : VM) : exited (stop st).
Proof. split; [reflexivity | eexists; reflexivity]. Qed.

Lemma safe_execution {A} R : safe R (execution : M VM A).
Proof. intros st _ _. rewrite execution_spec. apply exited_stop. Qed.

Lemma safe_fatal {A} R e : safe R (fatal e : M VM A).
Proof. intros st _ _. rewrite fatal_spec. apply exited_stop. Qed.

Lemma safe_if {A} R (b : bool) (m1 m2 : M VM A) :
  safe R m1 -> safe R m2 -> safe R (if b then m1 else m2).
Proof. by destruct b. Qed.

Lemma safe_switch_reg {A} R r (a b c : M VM A) :
  safe R a -> safe R b -> safe R c -> safe R (switch_reg r a b c).
Proof. intros. do 7 (destruct r as [|r]; [done|]). done. Qed.

Lemma safe_deref : safe le deref.
Proof.
  intros st (Hip & Hc & Hr) Hrun. unfold deref. mk_simp.
  destruct (lookup_lt_is_Some_2 _ _ Hip) as [tok ->]. cbn. unfold wf. naive_solver.
Qed.

(** Consuming a token is safe and increases the count. *)
Lemma safe_consume {A} (k : string -> M VM A) :
  (forall tok, safe le (k tok)) ->
  safe lt (pointerIncrement ;; incCount ;; let* t := deref in k t).
Proof.
  intros Hk st Hwf Hrun.
  destruct (consume_spec k st Hwf) as [(tok & Htok & ->)|(_ & _ & ->)];
    [|apply exited_stop].
  specialize (Hk tok (advance st) (advance_wf _ _ Hwf Htok) Hrun).
  destruct (k tok (advance st)) as [[| |] st']; [|done|done].
  cbn in Hk. naive_solver lia.
Qed.

Lemma safe_getRegister : safe lt getRegister.
Proof.
  apply safe_consume. intros tok.
  destruct (registerSet !! tok); [apply safe_ret | apply safe_fatal].
Qed.

Lemma safe_getInstruction : safe lt getInstruction.
Proof.
  apply safe_consume. intros tok.
  destruct (instructionSet !! tok); [apply safe_ret | apply safe_fatal].
Qed.

Lemma safe_getNumber `{CMath} : safe lt getNumber.
Proof.
  apply safe_consume. intros tok.
  destruct (c_stod tok); [apply safe_ret | apply safe_fatal].
Qed.

(** ** Safety of the handlers *)

Lemma safe_lt_le {A} (m : M VM A) : safe lt m -> safe le m.
Proof. apply safe_weaken. lia. Qed.

Create HintDb safe discriminated.
#[export] Hint Resolve safe_ret safe_get safe_gets safe_emit safe_report
  safe_writeRegister safe_readRegister safe_pop_back safe_write_back safe_deref
  safe_execution safe_fatal : safe.
#[export] Hint Resolve safe_lt_le safe_getRegister safe_getNumber : safe.
#[export] Hint Extern 2 (safe le (modify _)) =>
  apply safe_modify; intros; cbn; rewrite ?length_insert; split_and!; done : safe.

(** [safe_auto] follows the structure of a handler: binds, conditionals
    and register switches, and closes the leaves with the database. *)
Ltac safe_auto :=
  repeat first [ progress intros
               | solve [eauto with safe]
               | apply safe_bind_le
               | apply safe_if
               | apply safe_switch_reg ].

Section Handlers.
Context `{CMath}.

Lemma safe_arith f : safe le (arith f).
Proof. unfold arith, stack_apply, register_apply. safe_auto. Qed.

Lemma safe_unary ok f errS errR : safe le (unary ok f errS errR).
Proof. unfold unary. safe_auto. Qed.

Lemma safe_dispatch n : safe le (dispatch n).
Proof.
  pose proof safe_arith. pose proof safe_unary.
  do 16 (destruct n as [|n];
    [cbn; unfold op_HLT, op_PSH, op_POP, op_ADD, op_SUB, op_MUL, op_DIV, op_POW,
       op_SQR, op_LOG, op_LON, op_EXP, op_MOV, op_SET, op_PRT, op_NOP,
       stack_apply, register_apply, swap_top, swap_registers; safe_auto|]).
  cbn. safe_auto.
Qed.
End Handlers.

(** C1. One iteration of the loop is safe: from a well-formed running
    state, [operations] never dereferences past the end of [code] (no
    undefined behaviour), and either returns in a well-formed running
    state over the same program, with [commandCount] strictly larger,
    the register bank still of size 7, and the cursor still on a token,
    or ends the process through [execution()] with the final dump as the
    last line printed. *)
Theorem operations_safe `{CMath} : safe lt operations.
Proof.
  apply safe_bind_lt; [apply safe_getInstruction | intros n; apply safe_dispatch].
Qed.

(** ** Runs *)

Lemma initial_wf (prog : list string) : prog <> [] -> wf (initial prog).
Proof.
  intros Hp. unfold wf, initial. rewrite registerCount_eq. cbn.
  destruct prog; [done|]. cbn. lia.
Qed.

Lemma wf_count_bound (st : VM) : wf st -> commandCount st <= length (code st).
Proof. unfold wf. lia. Qed.

(** From a well-formed running state, [run] exits through [execution()]
    within [length code - commandCount + 1] iterations. *)
Lemma run_exits `{CMath} fuel (st : VM) :
  wf st -> isRunning st = true -> length (code st) - commandCount st < fuel ->
  exists st', run fuel st = (Exit, st') /\ exited st'.
Proof.
  revert st. induction fuel as [|fuel IH]; intros st Hwf Hrun Hf; [lia|].
  cbn [run]. mk_simp. rewrite Hrun.
  pose proof ((safe_bind_lt _ _ safe_getInstruction safe_dispatch : safe lt operations) st Hwf Hrun) as Hs.
  destruct (operations st) as [[[]| |] st'] eqn:E;
    [| rewrite (bind_Exit _ _ _ _ E); by eexists | done].
  destruct Hs as (Hwf' & Hrun' & Hc & Hlt). rewrite (bind_Ok _ _ _ _ _ E).
  apply IH; [done | done |]. pose proof (wf_count_bound _ Hwf'). rewrite Hc in *. lia.
Qed.

(** C4. Termination: on every non-empty token list, the main loop has
    called [exit(0)] after at most [length prog + 1] iterations, with
    [isRunning] false and the final dump as the last line printed; it
    never reaches undefined behaviour on the way.  (There are no jumps:
    every completed iteration consumes at least one token.) *)
Theorem run_terminates `{CMath} (prog : list string) :
  prog <> [] ->
  exists st', run (S (length prog)) (initial prog) = (Exit, st') /\ exited st'.
Proof.
  intros Hp. apply run_exits; [by apply initial_wf | done | cbn; lia].
Qed.

(** C6. The invariant of running states, by induction on the run: every
    state the loop reaches on a non-empty program is well formed (the
    cursor is on a token of [prog], [commandCount] is the number of
    tokens consumed, the register bank has its 7 slots), is running,
    and has consumed no more tokens than [prog] holds. *)
Theorem reachable_wf `{CMath} (prog : list string) (st : VM) :
  prog <> [] -> reachable prog st ->
  wf st /\ isRunning st = true /\ code st = prog /\ commandCount st <= length prog.
Proof.
  intros Hp Hr. induction Hr as [|st st' Hr IH E].
  - split_and!; [by apply initial_wf | done | done | cbn; lia].
  - destruct IH as (Hwf & Hrun & Hc & _).
    pose proof ((safe_bind_lt _ _ safe_getInstruction safe_dispatch : safe lt operations) st Hwf Hrun) as Hs. rewrite E in Hs.
    destruct Hs as (Hwf' & Hrun' & Hc' & _). split_and!; [done | done | congruence |].
    rewrite <- Hc, <- Hc'. by apply wf_count_bound.
Qed.

(** ** Witnesses *)

Lemma run_terminates_witness :
  ["PSH"; "1"; "POP"] <> [] /\
  exists st', @run integer_cmath 4 (initial ["PSH"; "1"; "POP"]) = (Exit, st') /\ exited st'.
Proof.
  split; [done|]. exact (run_terminates (H := integer_cmath) ["PSH"; "1"; "POP"] ltac:(done)).
Defined.

Lemma reachable_wf_witness :
  wf (initial ["HLT"]) /\ isRunning (initial ["HLT"]) = true /\
  code (initial ["HLT"]) = ["HLT"] /\ commandCount (initial ["HLT"]) <= length ["HLT"].
Proof.
  exact (reachable_wf (H := integer_cmath) ["HLT"] (initial ["HLT"]) ltac:(done) (reach_init _)).
Defined.
