(* ===== verification/Spec.v ===== *)
(** * Spec: the instruction-level specification of the core

    What the core promises, written after the specification's own
    description (sections 4.1-4.2, 6 and 9) rather than after the
    source: the opcode and register tables as association lists, a
    register operand as the tagged choice {Stack, Named A..F} instead of
    an index whose 0 means "the stack", one instruction type with a
    parameterised binary-operator and unary-operator form, a decoder
    from tokens to instructions that accepts exactly the well-formed
    ones, and a machine [aexec] that runs one decoded instruction on an
    abstract state (stack, the six registers A..F, the instruction
    counter, the diagnostics printed).  There is no scratch slot
    [registers[0]] and no cursor: the decoder says how many tokens an
    instruction occupies.  [Refinement] proves that [operations]
    implements this machine. *)

From Stdlib Require Import Floats.
From stdpp Require Import base list strings.
From S2P Require Import Prelude Values Tables Machine.

(** ** Instructions *)

Inductive opcode : Type :=
  HLT | PSH | POP | ADD | SUB | MUL | DIV | POW | SQR | LOG | LON | EXP | MOV | SET | PRT | NOP.

Inductive reg : Type := RA | RB | RC | RD | RE | RF.

#[export] Instance reg_eq_dec : EqDecision reg.
Proof. solve_decision. Defined.

(** A register operand: the stack sentinel S or a named register. *)
Inductive operand : Type := OS | ON (r : reg).

#[export] Instance operand_eq_dec : EqDecision operand.
Proof. solve_decision. Defined.

Inductive binop : Type := Add | Sub | Mul | Div | Pow.
Inductive unop : Type := Sqr | Log | Lon | Exp.

(** A decoded instruction with its operands. *)
Inductive instr : Type :=
| IHLT
| IPSH (v : float)
| IPOP
| IBinS (o : binop)                  (** [o S]: on the two topmost values *)
| IBinR (o : binop) (x y d : reg)    (** [o x y d]: [d := x o y] *)
| IUn (o : unop) (a : operand)
| IMOV (a b : operand)
| ISET (a b : operand)
| IPRT
| INOP.

(** ** The tables of section 6 *)

Definition mnemonics : list (string * opcode) :=
  [("HLT", HLT); ("PSH", PSH); ("POP", POP); ("ADD", ADD); ("SUB", SUB);
   ("MUL", MUL); ("DIV", DIV); ("POW", POW); ("SQR", SQR); ("LOG", LOG);
   ("LON", LON); ("EXP", EXP); ("MOV", MOV); ("SET", SET); ("PRT", PRT); ("NOP", NOP)].

Definition opcode_number (o : opcode) : nat :=
  match o with
  | HLT => 0 | PSH => 1 | POP => 2 | ADD => 3 | SUB => 4 | MUL => 5 | DIV => 6
  | POW => 7 | SQR => 8 | LOG => 9 | LON => 10 | EXP => 11 | MOV => 12
  | SET => 13 | PRT => 14 | NOP => 15
  end.

Definition operands : list (string * operand) :=
  [("S", OS); ("A", ON RA); ("B", ON RB); ("C", ON RC); ("D", ON RD);
   ("E", ON RE); ("F", ON RF)].

(** The position of a named register among A..F, and the index of an
    operand in the register table (S is 0). *)
Definition reg_pos (r : reg) : nat :=
  match r with RA => 0 | RB => 1 | RC => 2 | RD => 3 | RE => 4 | RF => 5 end.

Definition operand_number (a : operand) : nat :=
  match a with OS => 0 | ON r => S (reg_pos r) end.

(** Lookup in a table given as an association list. *)
Fixpoint assoc {A} (l : list (string * A)) (t : string) : option A :=
  match l with
  | [] => None
  | (s, a) :: l' => if String.eqb s t then Some a else assoc l' t
  end.

Definition opcode_of (t : string) : option opcode := assoc mnemonics t.
Definition operand_of (t : string) : option operand := assoc operands t.

Definition named_of (t : string) : option reg :=
  match operand_of t with Some (ON r) => Some r | _ => None end.

(** ** Decoding

    [decode toks] is [Some (i, k)] when the first [k] tokens of [toks]
    are the well-formed instruction [i]: a known opcode with all its
    operands present and valid, a parsable number for PSH, the second
    and third operands of the register form of a binary operator named
    registers with the first two distinct, the two operands of MOV and
    SET distinct. *)

Section Decode.
Context `{CMath}.

Definition binop_of (o : opcode) : option binop :=
  match o with
  | ADD => Some Add | SUB => Some Sub | MUL => Some Mul | DIV => Some Div
  | POW => Some Pow | _ => None
  end.

Definition unop_of (o : opcode) : option unop :=
  match o with
  | SQR => Some Sqr | LOG => Some Log | LON => Some Lon | EXP => Some Exp | _ => None
  end.

Definition decode_binop (o : binop) (rest : list string) : option (instr * nat) :=
  match rest with
  | t1 :: rest' =>
      match operand_of t1, rest' with
      | Some OS, _ => Some (IBinS o, 2)
      | Some (ON x), t2 :: t3 :: _ =>
          match named_of t2, named_of t3 with
          | Some y, Some d => if decide (x = y) then None else Some (IBinR o x y d, 4)
          | _, _ => None
          end
      | _, _ => None
      end
  | [] => None
  end.

Definition decode_pair (mk : operand -> operand -> instr) (rest : list string)
  : option (instr * nat) :=
  match rest with
  | t1 :: t2 :: _ =>
      match operand_of t1, operand_of t2 with
      | Some a, Some b => if decide (a = b) then None else Some (mk a b, 3)
      | _, _ => None
      end
  | _ => None
  end.

Definition decode (toks : list string) : option (instr * nat) :=
  match toks with
  | [] => None
  | t :: rest =>
      match opcode_of t with
      | None => None
      | Some HLT => Some (IHLT, 1)
      | Some PSH =>
          match rest with
          | t1 :: _ => match c_stod t1 with Some v => Some (IPSH v, 2) | None => None end
          | [] => None
          end
      | Some POP => Some (IPOP, 1)
      | Some MOV => decode_pair IMOV rest
      | Some SET => decode_pair ISET rest
      | Some PRT => Some (IPRT, 1)
      | Some NOP => Some (INOP, 1)
      | Some o =>
          match binop_of o, unop_of o, rest with
          | Some b, _, _ => decode_binop b rest
          | None, Some u, t1 :: _ =>
              match operand_of t1 with Some a => Some (IUn u a, 2) | None => None end
          | _, _, _ => None
          end
      end
  end.

(** ** The abstract machine *)

Record AState : Type := mkA {
  astack : list float;      (** top first *)
  abank : list float;       (** A..F *)
  acount : nat;             (** tokens consumed *)
  aout : list event         (** lines printed *)
}.

Inductive signal : Type := Continue | Halted.

Definition tick (k : nat) (a : AState) : AState :=
  mkA (astack a) (abank a) (k + acount a) (aout a).
Definition set_astack (s : list float) (a : AState) : AState :=
  mkA s (abank a) (acount a) (aout a).
Definition set_abank (b : list float) (a : AState) : AState :=
  mkA (astack a) b (acount a) (aout a).
Definition say (ev : event) (a : AState) : AState :=
  mkA (astack a) (abank a) (acount a) (aout a ++ [ev]).

(** A diagnostic, stamped with the tokens consumed so far. *)
Definition diag (e : error) (a : AState) : AState := say (Error (acount a) e) a.

(** Entering HALTED: the final dump of the stack and of A..F. *)
Definition halt (a : AState) : signal * AState :=
  (Halted, say (Finished (astack a) (abank a)) a).

Definition bank (a : AState) (r : reg) : float := abank a !!! reg_pos r.

Definition binop_sem (o : binop) : float -> float -> float :=
  match o with
  | Add => PrimFloat.add | Sub => PrimFloat.sub | Mul => PrimFloat.mul
  | Div => PrimFloat.div | Pow => c_pow
  end.

(** Only DIV guards its operands: both must be non-zero. *)
Definition binop_guard (o : binop) (x y : float) : bool :=
  match o with Div => ne0 x && ne0 y | _ => true end.

Definition unop_sem (o : unop) : float -> float :=
  match o with Sqr => PrimFloat.sqrt | Log => c_log10 | Lon => c_log | Exp => c_exp end.

(** The domain of a unary operator: [x >= 0] for SQR, [x != 0] for the
    logarithms, everything for EXP. *)
Definition unop_guard (o : unop) (x : float) : bool :=
  match o with Sqr => ge0 x | Log | Lon => ne0 x | Exp => true end.

(** The diagnostic of a domain violation, on the stack and on a register. *)
Definition unop_error (o : unop) (onStack : bool) (x : float) : error :=
  match o with
  | Sqr => SqrtNegative x
  | _ => if onStack then StackValueZero else RegisterValueZero
  end.

(** Reading and writing an operand location; S is the top of the stack. *)
Definition load (a : AState) (o : operand) : float :=
  match o with OS => back (astack a) | ON r => bank a r end.

Definition store (o : operand) (v : float) (a : AState) : AState :=
  match o with
  | OS => set_astack (set_back v (astack a)) a
  | ON r => set_abank (<[reg_pos r := v]> (abank a)) a
  end.

(** The operand S, and the empty stack, as tests. *)
Definition is_stack (o : operand) : bool := match o with OS => true | ON _ => false end.
Definition no_values (a : AState) : bool := match astack a with [] => true | _ => false end.

(** A MOV or SET [a b]: a reference to the empty stack is fatal as soon
    as its token has been read (after 2 tokens for [a], 3 for [b]);
    otherwise [act] runs once both operands have been read. *)
Definition with_locations (a b : operand) (act : AState -> AState) (s : AState)
  : signal * AState :=
  let s2 := tick 2 s in
  if is_stack a && no_values s then halt (diag StackEmpty s2)
  else if is_stack b && no_values s then halt (diag StackEmpty (tick 1 s2))
  else (Continue, act (tick 1 s2)).

Definition aunary (o : unop) (x : operand) (s : AState) : signal * AState :=
  let s := tick 2 s in
  match x with
  | OS =>
      match astack s with
      | v :: rest =>
          if unop_guard o v then (Continue, set_astack (unop_sem o v :: rest) s)
          else (Continue, diag (unop_error o true v) s)
      | [] => (Continue, diag StackEmpty s)
      end
  | ON r =>
      if unop_guard o (bank s r) then (Continue, store (ON r) (unop_sem o (bank s r)) s)
      else (Continue, diag (unop_error o false (bank s r)) s)
  end.

(** One instruction, from the state before its opcode token. *)
Definition aexec (i : instr) (s : AState) : signal * AState :=
  match i with
  | IHLT => halt (tick 1 s)
  | IPSH v => (Continue, set_astack (v :: astack s) (tick 2 s))
  | IPOP =>
      let s := tick 1 s in
      match astack s with
      | v :: rest => (Continue, set_astack rest (say (Popped v) s))
      | [] => (Continue, diag CouldNotPop s)
      end
  | IBinS o =>
      let s := tick 2 s in
      match astack s with
      | x :: y :: rest =>
          if binop_guard o x y then (Continue, set_astack (binop_sem o x y :: rest) s)
          else (Continue, diag DivideByZero s)
      | _ => (Continue, diag StackNotEnoughValues s)
      end
  | IBinR o x y d =>
      if binop_guard o (bank s x) (bank s y) then
        (Continue, store (ON d) (binop_sem o (bank s x) (bank s y)) (tick 4 s))
      else (Continue, tick 1 (diag DivideByZero (tick 3 s)))
  | IUn o x => aunary o x s
  | IMOV a b => with_locations a b (fun s => store b (load s a) (store a (load s b) s)) s
  | ISET a b => with_locations a b (fun s => store a (load s b) s) s
  | IPRT => (Continue, say (Dump (astack s) (abank s)) (tick 1 s))
  | INOP => (Continue, say DoNothing (tick 1 s))
  end.

(** The abstract machine on a token stream, for at most [fuel]
    instructions: decode, run, go on after the instruction's tokens
    until one halts.  [None] when a token sequence does not decode. *)
Fixpoint arun (fuel : nat) (toks : list string) (s : AState) : option (signal * AState) :=
  match fuel with
  | 0 => Some (Continue, s)
  | S fuel' =>
      match decode toks with
      | None => None
      | Some (i, k) =>
          match aexec i s with
          | (Continue, s') => arun fuel' (drop k toks) s'
          | (Halted, s') => Some (Halted, s')
          end
      end
  end.
End Decode.
