(* ===== verification/Refinement.v ===== *)
(** * Refinement: [operations] implements the instruction-level specification

    The abstraction [abs] forgets what the specification does not
    describe: the cursor (replaced by the tokens still to read), the
    [isRunning] flag (replaced by the signal) and the scratch slot
    [registers[0]] (the abstract bank holds A..F only).  The main
    theorem, [operations_refines], says that on every decoded
    instruction one call of [operations] does what [aexec] prescribes:
    same outcome, same abstract state, the program unchanged, and the
    cursor moved past exactly the instruction's tokens. *)

From Stdlib Require Import Floats.
From stdpp Require Import base list strings gmap.
From S2P Require Import Prelude Values Tables Machine Executor Run Spec.

Local Open Scope mk_scope.

(** ** The abstraction *)

Definition abs (st : VM) : AState :=
  mkA (stack st) (registersAF st) (commandCount st) (output st).

Definition outcome_of (sg : signal) : outcome unit :=
  match sg with Continue => Ok tt | Halted => Exit end.

(** [implements r st k p]: the result [r] of running from [st] is the
    abstract step [p] of an instruction of [k] tokens. *)
Definition implements (r : outcome unit * VM) (st : VM) (k : nat) (p : signal * AState) : Prop :=
  r.1 = outcome_of p.1 /\ abs r.2 = p.2 /\ code r.2 = code st /\
  match p.1 with
  | Continue => isRunning r.2 = isRunning st /\ next_tokens r.2 = drop k (next_tokens st)
  | Halted => isRunning r.2 = false
  end.

(** The case of [operations] that runs a binary operator. *)
Definition binop_handler `{CMath} (o : binop) : M VM unit :=
  match o with Div => op_DIV | _ => arith (binop_sem o) end.

(** The case of [operations] that runs a unary operator. *)
Definition unop_handler `{CMath} (o : unop) : M VM unit :=
  match o with Sqr => op_SQR | Log => op_LOG | Lon => op_LON | Exp => op_EXP end.

Lemma dispatch_binop `{CMath} oc o :
  binop_of oc = Some o -> dispatch (opcode_number oc) = binop_handler o.
Proof. destruct oc; intros [= <-]; reflexivity. Qed.

(** ** The tables of the specification are the tables of the source *)

(** A lookup in a closed association list, one key at a time. *)
Ltac decide_assoc :=
  repeat match goal with
  | |- context [String.eqb ?s ?t] =>
      destruct (String.eqb_spec s t) as [<-|_]; [intros [= <-]; vm_compute; reflexivity|]
  end;
  intros [=].

Lemma opcode_of_instructionSet t o :
  opcode_of t = Some o -> instructionSet !! t = Some (opcode_number o).
Proof.
  unfold opcode_of, mnemonics. cbn [assoc].
  decide_assoc.
Qed.

Lemma operand_of_registerSet t a :
  operand_of t = Some a -> registerSet !! t = Some (operand_number a).
Proof.
  unfold operand_of, operands. cbn [assoc].
  decide_assoc.
Qed.

Lemma named_of_registerSet t r :
  named_of t = Some r -> registerSet !! t = Some (S (reg_pos r)).
Proof.
  unfold named_of. destruct (operand_of t) as [[|r']|] eqn:E; intros [= <-].
  exact (operand_of_registerSet _ _ E).
Qed.

Lemma reg_pos_inj r1 r2 : ON r1 <> ON r2 -> S (reg_pos r1) <> S (reg_pos r2).
Proof. destruct r1, r2; cbn; congruence. Qed.

Lemma reg_pos_bound r : S (reg_pos r) < 7.
Proof. destruct r; cbn; lia. Qed.

(** ** The handler of each family of instructions *)

Lemma unop_handler_unary `{CMath} o :
  unop_handler o = unary (unop_guard o) (unop_sem o) (unop_error o true) (unop_error o false).
Proof. destruct o; [reflexivity .. | apply exp_unary]. Qed.

Lemma dispatch_unop `{CMath} oc o :
  unop_of oc = Some o -> dispatch (opcode_number oc) = unop_handler o.
Proof. destruct oc; intros [= <-]; reflexivity. Qed.

(** ** The abstraction of the concrete results *)

Lemma drop_insert_scratch (l : list float) v : drop 1 (<[0 := v]> l) = drop 1 l.
Proof. by rewrite drop_insert_lt by lia. Qed.

Lemma drop_insert_named (l : list float) r v :
  drop 1 (<[S (reg_pos r) := v]> l) = <[reg_pos r := v]> (drop 1 l).
Proof. rewrite drop_insert_ge by lia. by rewrite Nat.sub_1_r. Qed.

Lemma registers_bank (st : VM) r : registers st !!! S (reg_pos r) = bank (abs st) r.
Proof. unfold bank, abs, registersAF. cbn. by rewrite lookup_total_drop. Qed.

Create Rewrite HintDb abs.

#[export] Hint Rewrite drop_insert_scratch drop_insert_named registers_bank : abs.

Lemma abs_advance (st : VM) : abs (advance st) = tick 1 (abs st).
Proof. reflexivity. Qed.

Lemma abs_with_registers (st : VM) l : abs (with_registers l st) = set_abank (drop 1 l) (abs st).
Proof. reflexivity. Qed.

Lemma abs_with_stack (st : VM) l : abs (with_stack l st) = set_astack l (abs st).
Proof. reflexivity. Qed.

Lemma abs_emit (st : VM) ev : abs (with_output (output st ++ [ev]) st) = say ev (abs st).
Proof. reflexivity. Qed.

Lemma abs_reported (st : VM) e : abs (reported e st) = diag e (abs st).
Proof. reflexivity. Qed.

Lemma abs_failed (st : VM) e : abs (failed e st) = (halt (diag e (abs st))).2.
Proof. reflexivity. Qed.

Lemma abs_stop (st : VM) : abs (stop st) = (halt (abs st)).2.
Proof. reflexivity. Qed.

#[export] Hint Rewrite abs_advance abs_with_registers abs_with_stack abs_emit abs_reported
  abs_failed abs_stop : abs.

(** [abs_eq] proves an equation between an abstracted concrete state
    and an abstract one: [abs] is pushed through the state updates,
    then both sides are the same abstract updates. *)
Ltac abs_eq :=
  unfold with_machine; cbn [mov_effect set_effect fst snd Nat.eqb];
  autorewrite with mk abs; reflexivity.

Lemma next_tokens_with_registers (st : VM) l :
  next_tokens (with_registers l st) = next_tokens st.
Proof. reflexivity. Qed.

Lemma next_tokens_with_stack (st : VM) l : next_tokens (with_stack l st) = next_tokens st.
Proof. reflexivity. Qed.

Lemma next_tokens_with_output (st : VM) l : next_tokens (with_output l st) = next_tokens st.
Proof. reflexivity. Qed.

Create Rewrite HintDb tokens.
#[export] Hint Rewrite next_tokens_with_registers next_tokens_with_stack next_tokens_with_output
  next_tokens_reported : tokens.

Lemma implements_cont (st st' : VM) k a' :
  abs st' = a' -> code st' = code st -> isRunning st' = isRunning st ->
  next_tokens st' = drop k (next_tokens st) ->
  implements (Ok tt, st') st k (Continue, a').
Proof. intros. unfold implements. cbn. by split_and!. Qed.

Lemma implements_halt (st st' : VM) k a' :
  abs st' = a' -> code st' = code st -> isRunning st' = false ->
  implements (Exit, st') st k (Halted, a').
Proof. intros. unfold implements. cbn. by split_and!. Qed.

(** [continue_with Hn Hk] closes [implements] for a handler that
    returned normally, [Hn] giving the tokens of the instruction and
    [Hk] the tokens after it. *)
Ltac continue_with Hn Hk :=
  apply implements_cont;
  [ abs_eq | reflexivity | reflexivity
  | rewrite (f_equal (drop _) Hn); cbn [drop]; rewrite <- Hk;
    autorewrite with tokens; reflexivity ].

Ltac halt_with :=
  apply implements_halt; [abs_eq | reflexivity | reflexivity].

Section Families.
Context `{CMath}.

Lemma refines_binS (st : VM) t t1 rest oc o :
  length (registers st) = 7 -> next_tokens st = t :: t1 :: rest ->
  opcode_of t = Some oc -> binop_of oc = Some o -> operand_of t1 = Some OS ->
  implements (operations st) st 2 (aexec (IBinS o) (abs st)).
Proof.
  intros Hr Hn Ho Hb H1. apply operand_of_registerSet in H1.
  rewrite (operations_decode _ _ _ _ Hn (opcode_of_instructionSet _ _ Ho)),
    (dispatch_binop _ _ Hb).
  pose proof (next_tokens_advance _ _ _ Hn) as Hn1.
  pose proof (next_tokens_advance _ _ _ Hn1) as Hn2.
  assert (Hform : binop_handler o (advance st) =
    (if 2 <=? length (stack st) then
       if binop_guard o (stack st !!! 0) (stack st !!! 1) then stack_apply (binop_sem o)
       else report DivideByZero
     else report StackNotEnoughValues) (advance (advance st))).
  { destruct o; [exact (arith_stack_form _ _ _ _ Hn1 H1) .. | exact (div_stack_form _ _ _ Hn1 H1)
    | exact (arith_stack_form _ _ _ _ Hn1 H1)]. }
  rewrite Hform. cbn [aexec tick abs astack].
  destruct (stack st) as [|x [|y l]] eqn:Hs; cbn -[abs]; mk_simp;
    [continue_with Hn Hn2 .. |].
  destruct (binop_guard o x y); mk_simp; [|continue_with Hn Hn2].
  rewrite (stack_apply_spec _ (advance (advance st)) x y l Hs Hr).
  continue_with Hn Hn2.
Qed.
Lemma refines_binR (st : VM) t t1 t2 t3 rest oc o x y d :
  next_tokens st = t :: t1 :: t2 :: t3 :: rest ->
  opcode_of t = Some oc -> binop_of oc = Some o -> operand_of t1 = Some (ON x) ->
  named_of t2 = Some y -> named_of t3 = Some d -> x <> y ->
  implements (operations st) st 4 (aexec (IBinR o x y d) (abs st)).
Proof.
  intros Hn Ho Hb H1 H2 H3 Nxy. apply operand_of_registerSet in H1. cbn [operand_number] in H1.
  apply named_of_registerSet in H2, H3.
  rewrite (operations_decode _ _ _ _ Hn (opcode_of_instructionSet _ _ Ho)),
    (dispatch_binop _ _ Hb).
  pose proof (next_tokens_advance _ _ _ Hn) as Hn1.
  pose proof (next_tokens_advance _ _ _ Hn1) as Hn2.
  pose proof (next_tokens_advance _ _ _ Hn2) as Hn3.
  pose proof (next_tokens_advance _ _ _ Hn3) as Hn4.
  assert (Nxy' : S (reg_pos x) <> S (reg_pos y)) by (destruct x, y; cbn; congruence).
  cbn [aexec]. destruct (binop_guard o (bank (abs st) x) (bank (abs st) y)) eqn:Hg.
  - assert (Happ : binop_handler o (advance st) =
      register_apply (binop_sem o) (S (reg_pos x)) (S (reg_pos y))
        (advance (advance (advance st)))).
    { pose proof (arith_register_form (binop_sem o) _ _ _ _ _ _ Hn1 H1 H2
        ltac:(done) ltac:(done) Nxy') as Har.
      destruct o; [exact Har | exact Har | exact Har | | exact Har]. clear Har.
      cbn [binop_handler]. rewrite (div_registers _ _ _ _ _ _ _ _ Hn1 H1 H2 H3 ltac:(done) ltac:(done) ltac:(done) Nxy')
        by (rewrite !registers_bank; exact Hg).
      symmetry. exact (register_apply_spec _ _ _ _ _ _ _ Hn3 H3 ltac:(done)). }
    rewrite Happ, (register_apply_spec _ _ _ _ _ _ _ Hn3 H3 ltac:(done)).
    continue_with Hn Hn4.
  - destruct o; try done. cbn [binop_handler].
    rewrite (div_zero_skip _ _ _ _ _ _ _ _ Hn1 H1 H2 H3 ltac:(done))
      by (rewrite !registers_bank; exact Hg).
    continue_with Hn Hn4.
Qed.
Lemma refines_un (st : VM) t t1 rest oc o a :
  next_tokens st = t :: t1 :: rest ->
  opcode_of t = Some oc -> unop_of oc = Some o -> operand_of t1 = Some a ->
  implements (operations st) st 2 (aexec (IUn o a) (abs st)).
Proof.
  intros Hn Ho Hu H1. apply operand_of_registerSet in H1.
  rewrite (operations_decode _ _ _ _ Hn (opcode_of_instructionSet _ _ Ho)),
    (dispatch_unop _ _ Hu), unop_handler_unary.
  pose proof (next_tokens_advance _ _ _ Hn) as Hn1.
  pose proof (next_tokens_advance _ _ _ Hn1) as Hn2.
  destruct a as [|r]; cbn [operand_number] in H1; cbn [aexec aunary tick abs astack].
  - rewrite (unary_stack_form _ _ _ _ _ _ _ Hn1 H1), advance_stack.
    destruct (stack st) as [|v l] eqn:Hs; [continue_with Hn Hn2|].
    destruct (unop_guard o v); continue_with Hn Hn2.
  - rewrite (unary_register _ _ _ _ _ _ _ _ Hn1 H1 ltac:(done)), registers_bank.
    rewrite abs_advance.
    change (bank (tick 1 (abs st)) r) with (bank (tick 2 (abs st)) r).
    destruct (unop_guard o (bank (tick 2 (abs st)) r)); continue_with Hn Hn2.
Qed.
(** [pair_case] settles one operand combination of MOV or SET: [Hspec]
    is the concrete result, [Hk] the tokens after the instruction. *)
Ltac pair_case Hn Hspec Hk :=
  cbn [opcode_number dispatch andb]; rewrite Hspec; first [continue_with Hn Hk | halt_with].

Lemma refines_mov (st : VM) t t1 t2 rest a b :
  next_tokens st = t :: t1 :: t2 :: rest -> opcode_of t = Some MOV ->
  operand_of t1 = Some a -> operand_of t2 = Some b -> a <> b ->
  implements (operations st) st 3 (aexec (IMOV a b) (abs st)).
Proof.
  intros Hn Ho H1 H2 Nab. apply operand_of_registerSet in H1, H2.
  rewrite (operations_decode _ _ _ _ Hn (opcode_of_instructionSet _ _ Ho)).
  pose proof (next_tokens_advance _ _ _ Hn) as Hn1.
  pose proof (next_tokens_advance _ _ _ Hn1) as Hn2.
  pose proof (next_tokens_advance _ _ _ Hn2) as Hn3.
  destruct a as [|r1], b as [|r2]; [done | ..]; cbn [operand_number] in H1, H2;
    unfold aexec, with_locations, no_values; cbn [is_stack andb abs astack].
  - destruct (stack st) as [|v l] eqn:Hs.
    + pair_case Hn (proj1 (mov_set_empty_first _ _ _ Hn1 H1 Hs)) Hn3.
    + pair_case Hn (mov_spec _ _ _ _ _ _ Hn1 H1 H2 ltac:(done) ltac:(intros _; by rewrite advance_stack, Hs)) Hn3.
  - destruct (stack st) as [|v l] eqn:Hs.
    + pair_case Hn (proj1 (mov_set_empty_second _ _ _ _ _ Hn1 H1 H2 ltac:(done) Hs)) Hn3.
    + pair_case Hn (mov_spec _ _ _ _ _ _ Hn1 H1 H2 ltac:(done) ltac:(intros _; by rewrite advance_stack, Hs)) Hn3.
  - pair_case Hn (mov_spec _ _ _ _ _ _ Hn1 H1 H2 (reg_pos_inj _ _ Nab)
                    ltac:(by intros [|])) Hn3.
Qed.

Lemma refines_set (st : VM) t t1 t2 rest a b :
  next_tokens st = t :: t1 :: t2 :: rest -> opcode_of t = Some SET ->
  operand_of t1 = Some a -> operand_of t2 = Some b -> a <> b ->
  implements (operations st) st 3 (aexec (ISET a b) (abs st)).
Proof.
  intros Hn Ho H1 H2 Nab. apply operand_of_registerSet in H1, H2.
  rewrite (operations_decode _ _ _ _ Hn (opcode_of_instructionSet _ _ Ho)).
  pose proof (next_tokens_advance _ _ _ Hn) as Hn1.
  pose proof (next_tokens_advance _ _ _ Hn1) as Hn2.
  pose proof (next_tokens_advance _ _ _ Hn2) as Hn3.
  destruct a as [|r1], b as [|r2]; [done | ..]; cbn [operand_number] in H1, H2;
    unfold aexec, with_locations, no_values; cbn [is_stack andb abs astack].
  - destruct (stack st) as [|v l] eqn:Hs.
    + pair_case Hn (proj2 (mov_set_empty_first _ _ _ Hn1 H1 Hs)) Hn3.
    + pair_case Hn (set_spec _ _ _ _ _ _ Hn1 H1 H2 ltac:(done) ltac:(intros _; by rewrite advance_stack, Hs)) Hn3.
  - destruct (stack st) as [|v l] eqn:Hs.
    + pair_case Hn (proj2 (mov_set_empty_second _ _ _ _ _ Hn1 H1 H2 ltac:(done) Hs)) Hn3.
    + pair_case Hn (set_spec _ _ _ _ _ _ Hn1 H1 H2 ltac:(done) ltac:(intros _; by rewrite advance_stack, Hs)) Hn3.
  - pair_case Hn (set_spec _ _ _ _ _ _ Hn1 H1 H2 (reg_pos_inj _ _ Nab)
                    ltac:(by intros [|])) Hn3.
Qed.
Lemma refines_hlt (st : VM) t rest :
  next_tokens st = t :: rest -> opcode_of t = Some HLT ->
  implements (operations st) st 1 (aexec IHLT (abs st)).
Proof.
  intros Hn Ho. rewrite (operations_decode _ _ _ _ Hn (opcode_of_instructionSet _ _ Ho)).
  cbn [opcode_number dispatch]. unfold op_HLT. rewrite execution_spec. halt_with.
Qed.

Lemma refines_psh (st : VM) t t1 rest v :
  next_tokens st = t :: t1 :: rest -> opcode_of t = Some PSH -> c_stod t1 = Some v ->
  implements (operations st) st 2 (aexec (IPSH v) (abs st)).
Proof.
  intros Hn Ho Hv. rewrite (operations_decode _ _ _ _ Hn (opcode_of_instructionSet _ _ Ho)).
  pose proof (next_tokens_advance _ _ _ Hn) as Hn1.
  pose proof (next_tokens_advance _ _ _ Hn1) as Hn2.
  cbn [opcode_number dispatch]. rewrite (psh_spec _ _ _ _ Hn1 Hv). continue_with Hn Hn2.
Qed.

Lemma refines_pop (st : VM) t rest :
  next_tokens st = t :: rest -> opcode_of t = Some POP ->
  implements (operations st) st 1 (aexec IPOP (abs st)).
Proof.
  intros Hn Ho. rewrite (operations_decode _ _ _ _ Hn (opcode_of_instructionSet _ _ Ho)).
  pose proof (next_tokens_advance _ _ _ Hn) as Hn1.
  cbn [opcode_number dispatch aexec tick abs astack]. rewrite pop_spec, advance_stack.
  destruct (stack st); continue_with Hn Hn1.
Qed.

Lemma refines_prt_nop (st : VM) t rest oc i :
  next_tokens st = t :: rest -> opcode_of t = Some oc ->
  (oc = PRT /\ i = IPRT \/ oc = NOP /\ i = INOP) ->
  implements (operations st) st 1 (aexec i (abs st)).
Proof.
  intros Hn Ho Hi. rewrite (operations_decode _ _ _ _ Hn (opcode_of_instructionSet _ _ Ho)).
  pose proof (next_tokens_advance _ _ _ Hn) as Hn1.
  destruct Hi as [[-> ->]|[-> ->]]; cbn [opcode_number dispatch op_PRT op_NOP];
    mk_simp; continue_with Hn Hn1.
Qed.
End Families.

(** Every key of a table built by [list_to_map] comes from its list. *)
Ltac from_table H :=
  apply elem_of_list_to_map_2 in H;
  repeat (apply elem_of_cons in H as [H|H]; [injection H as -> ->; eexists; split; reflexivity|]);
  by apply elem_of_nil in H.

Lemma instructionSet_opcode_of t n :
  instructionSet !! t = Some n -> exists o, opcode_of t = Some o /\ opcode_number o = n.
Proof. unfold instructionSet. intros H. from_table H. Qed.

Lemma registerSet_operand_of t n :
  registerSet !! t = Some n -> exists a, operand_of t = Some a /\ operand_number a = n.
Proof. unfold registerSet. intros H. from_table H. Qed.

(** ** Inverting the decoder *)

Lemma decode_binop_inv o rest i k :
  decode_binop o rest = Some (i, k) ->
  (exists t1 rest', rest = t1 :: rest' /\ operand_of t1 = Some OS /\ i = IBinS o /\ k = 2) \/
  (exists t1 t2 t3 rest' x y d, rest = t1 :: t2 :: t3 :: rest' /\
     operand_of t1 = Some (ON x) /\ named_of t2 = Some y /\ named_of t3 = Some d /\
     x <> y /\ i = IBinR o x y d /\ k = 4).
Proof.
  unfold decode_binop. destruct rest as [|t1 rest]; [done|].
  destruct (operand_of t1) as [[|x]|] eqn:H1; [intros [= <- <-]; left; eauto 10 | | done].
  destruct rest as [|t2 [|t3 rest]]; try done.
  destruct (named_of t2) eqn:?, (named_of t3) eqn:?; try done.
  case_decide; [done|]. intros [= <- <-]. right. eauto 20.
Qed.

Lemma decode_pair_inv mk rest i k :
  decode_pair mk rest = Some (i, k) ->
  exists t1 t2 rest' a b, rest = t1 :: t2 :: rest' /\ operand_of t1 = Some a /\
    operand_of t2 = Some b /\ a <> b /\ i = mk a b /\ k = 3.
Proof.
  unfold decode_pair. destruct rest as [|t1 [|t2 rest]]; try done.
  destruct (operand_of t1) eqn:?, (operand_of t2) eqn:?; try done.
  case_decide; [done|]. intros [= <- <-]. eauto 20.
Qed.

(** The binary and unary operator cases of the decoder. *)
Ltac binop_case Hr Hn Ho Hd :=
  let H1 := fresh "H1" in let H2 := fresh "H2" in let H3 := fresh "H3" in
  let Nxy := fresh "Nxy" in
  apply decode_binop_inv in Hd as
    [(? & ? & -> & H1 & -> & ->)
    |(? & ? & ? & ? & ? & ? & ? & -> & H1 & H2 & H3 & Nxy & -> & ->)];
  [exact (refines_binS _ _ _ _ _ _ Hr Hn Ho eq_refl H1)
  |exact (refines_binR _ _ _ _ _ _ _ _ _ _ _ Hn Ho eq_refl H1 H2 H3 Nxy)].

Ltac unop_case Hn Ho Hd :=
  let H1 := fresh "H1" in
  match goal with
  | Hn : next_tokens _ = _ :: ?rest |- _ =>
      destruct rest as [|? rest]; [done|];
      match type of Hd with
      | context [operand_of ?t1] =>
          destruct (operand_of t1) as [?|] eqn:H1; [|done]; injection Hd as <- <-;
          exact (refines_un _ _ _ _ _ _ _ Hn Ho eq_refl H1)
      end
  end.

Section Refinement.
Context `{CMath}.

(** C2. Refinement of the instruction-level specification: from any
    state whose register vector has its seven slots, if the tokens
    still to read decode to a well-formed instruction [i] of [k] tokens,
    one call of [operations] has the outcome [aexec i] prescribes
    (continue, or halt through [execution()]), leaves the abstract state
    (stack, registers A..F, instruction counter, printed lines) [aexec]
    computes, keeps the program, and, when it continues, has consumed
    exactly the [k] tokens of the instruction. *)
Theorem operations_refines (st : VM) i k :
  length (registers st) = 7 -> decode (next_tokens st) = Some (i, k) ->
  implements (operations st) st k (aexec i (abs st)).
Proof.
  intros Hr Hd. destruct (next_tokens st) as [|t rest] eqn:Hn; [done|].
  cbn [decode] in Hd. destruct (opcode_of t) as [oc|] eqn:Ho; [|done].
  destruct oc; cbn [binop_of unop_of] in Hd.
  4-8: binop_case Hr Hn Ho Hd.
  4-7: unop_case Hn Ho Hd.
  - injection Hd as <- <-. exact (refines_hlt _ _ _ Hn Ho).
  - destruct rest as [|t1 rest]; [done|]. destruct (c_stod t1) eqn:Hv; [|done].
    injection Hd as <- <-. exact (refines_psh _ _ _ _ _ Hn Ho Hv).
  - injection Hd as <- <-. exact (refines_pop _ _ _ Hn Ho).
  - apply decode_pair_inv in Hd as (t1 & t2 & rest' & a & b & -> & H1 & H2 & Nab & -> & ->).
    exact (refines_mov _ _ _ _ _ _ _ Hn Ho H1 H2 Nab).
  - apply decode_pair_inv in Hd as (t1 & t2 & rest' & a & b & -> & H1 & H2 & Nab & -> & ->).
    exact (refines_set _ _ _ _ _ _ _ Hn Ho H1 H2 Nab).
  - injection Hd as <- <-. exact (refines_prt_nop _ _ _ _ _ Hn Ho (or_introl (conj eq_refl eq_refl))).
  - injection Hd as <- <-. exact (refines_prt_nop _ _ _ _ _ Hn Ho (or_intror (conj eq_refl eq_refl))).
Qed.
End Refinement.

(** C7. The two [std::map] tables of the source (lines 10-37) are
    exactly the tables of section 6 of the specification: on every
    string, [instructionSet] finds the code of the mnemonic the
    specification lists and [registerSet] the index of the operand
    (S = 0, A..F = 1..6), and both fail on every other string. *)
Theorem tables_agree (t : string) :
  instructionSet !! t = opcode_number <$> opcode_of t /\
  registerSet !! t = operand_number <$> operand_of t.
Proof.
  split.
  - destruct (opcode_of t) as [o|] eqn:E; [by rewrite (opcode_of_instructionSet _ _ E)|].
    destruct (instructionSet !! t) eqn:F; [|done].
    apply instructionSet_opcode_of in F as (o & Ho & _). congruence.
  - destruct (operand_of t) as [a|] eqn:E; [by rewrite (operand_of_registerSet _ _ E)|].
    destruct (registerSet !! t) eqn:F; [|done].
    apply registerSet_operand_of in F as (a & Ha & _). congruence.
Qed.

(** C3. The main loop of the source refines the abstract machine run
    on the whole program: from a well-formed running state, if [arun]
    decodes and runs the tokens still to read for at most [fuel]
    instructions and ends with signal [sg] in the abstract state [a'],
    then [run fuel] (the [while (isRunning)] loop of [main]) ends with
    the corresponding outcome ([exit] for a halt) in a state whose
    abstraction is [a']: same stack, registers A..F, instruction count
    and printed lines. *)
Theorem run_refines `{CMath} fuel (st : VM) sg a' :
  wf st -> isRunning st = true ->
  arun fuel (next_tokens st) (abs st) = Some (sg, a') ->
  (run fuel st).1 = outcome_of sg /\ abs (run fuel st).2 = a'.
Proof.
  revert st. induction fuel as [|fuel IH]; intros st Hwf Hrun Ha.
  - injection Ha as <- <-. done.
  - cbn [arun] in Ha. destruct (decode (next_tokens st)) as [[i k]|] eqn:Hd; [|done].
    pose proof (operations_refines st i k (proj2 (proj2 Hwf)) Hd) as Href.
    pose proof ((safe_bind_lt _ _ safe_getInstruction safe_dispatch : safe lt operations)
                  st Hwf Hrun) as Hs.
    cbn [run]. mk_simp. rewrite Hrun.
    destruct (aexec i (abs st)) as [[|] s'] eqn:E;
      destruct (operations st) as [[[]| |] st1] eqn:Eo;
      destruct Href as (Ho & Habs & Hc & Hk); cbn in Ho, Habs, Hk; try done.
    + rewrite (bind_Ok _ _ _ _ _ Eo). destruct Hs as (Hwf1 & Hrun1 & _).
      destruct Hk as [_ Hk]. apply IH; [done | done |]. rewrite Hk, Habs. exact Ha.
    + rewrite (bind_Exit _ _ _ _ Eo). injection Ha as <- <-. by split.
Qed.

Lemma run_refines_witness :
  wf (initial ["PSH"; "5"; "PSH"; "3"; "ADD"; "S"; "HLT"]) /\
  isRunning (initial ["PSH"; "5"; "PSH"; "3"; "ADD"; "S"; "HLT"]) = true /\
  @arun integer_cmath 4 (next_tokens (initial ["PSH"; "5"; "PSH"; "3"; "ADD"; "S"; "HLT"]))
    (abs (initial ["PSH"; "5"; "PSH"; "3"; "ADD"; "S"; "HLT"])) =
    Some (Halted, mkA [8%float] (replicate 6 PrimFloat.zero) 7
                    [Finished [8%float] (replicate 6 PrimFloat.zero)]) /\
  (@run integer_cmath 4 (initial ["PSH"; "5"; "PSH"; "3"; "ADD"; "S"; "HLT"])).1 = Exit.
Proof.
  assert (Hwf : wf (initial ["PSH"; "5"; "PSH"; "3"; "ADD"; "S"; "HLT"]))
    by (apply initial_wf; discriminate).
  assert (Ha : @arun integer_cmath 4 (next_tokens (initial ["PSH"; "5"; "PSH"; "3"; "ADD"; "S"; "HLT"]))
                 (abs (initial ["PSH"; "5"; "PSH"; "3"; "ADD"; "S"; "HLT"])) =
               Some (Halted, mkA [8%float] (replicate 6 PrimFloat.zero) 7
                               [Finished [8%float] (replicate 6 PrimFloat.zero)]))
    by (vm_compute; reflexivity).
  split; [exact Hwf|]. split; [reflexivity|]. split; [exact Ha|].
  exact (proj1 (@run_refines integer_cmath 4 _ _ _ Hwf eq_refl Ha)).
Defined.

(** The register-form ADD of the registers A and B into C, decoded and
    run from the start of a program. *)
Lemma operations_refines_witness :
  length (registers (initial ["ADD"; "A"; "B"; "C"])) = 7 /\
  @decode integer_cmath (next_tokens (initial ["ADD"; "A"; "B"; "C"])) =
    Some (IBinR Add RA RB RC, 4) /\
  implements (@operations integer_cmath (initial ["ADD"; "A"; "B"; "C"]))
    (initial ["ADD"; "A"; "B"; "C"]) 4
    (@aexec integer_cmath (IBinR Add RA RB RC) (abs (initial ["ADD"; "A"; "B"; "C"]))).
Proof.
  assert (Hr : length (registers (initial ["ADD"; "A"; "B"; "C"])) = 7) by reflexivity.
  assert (Hd : @decode integer_cmath (next_tokens (initial ["ADD"; "A"; "B"; "C"])) =
                 Some (IBinR Add RA RB RC, 4)) by (vm_compute; reflexivity).
  split; [exact Hr|]. split; [exact Hd|].
  exact (@operations_refines integer_cmath _ _ _ Hr Hd).
Defined.
