(* ===== verification/Loader.v ===== *)
(** * Loader: [main] of VirtualMK.cpp

    The entry point (lines 868-898): the argument count and file name
    checks, reading the file with [file >> command] (whitespace-separated
    words), [std::transform] with [toupper] on each word, and the run
    loop on the resulting token vector.  The file system is a function
    from names to contents ([None] when [std::ifstream] cannot open the
    file); [argv] is the list of arguments, [argv[0]] included. *)

From Stdlib Require Import Ascii String Floats.
From stdpp Require Import base list strings.
From S2P Require Import Prelude Values Tables Machine Executor Run.

Local Open Scope mk_scope.

(** ** Reading words: [file >> command] *)

(** [isspace] in the C locale: space, \t, \n, \v, \f, \r. *)
Definition is_space (c : ascii) : bool :=
  let n := nat_of_ascii c in (n =? 32) || ((9 <=? n) && (n <=? 13)).

(** [scan s] is the word [s] starts with (empty if it starts with
    whitespace or is empty) and the words after it. *)
Fixpoint scan (s : string) : string * list string :=
  match s with
  | EmptyString => (EmptyString, [])
  | String c s' =>
      let (w, ws) := scan s' in
      if is_space c then (EmptyString, match w with EmptyString => ws | _ => w :: ws end)
      else (String c w, ws)
  end.

(** The words the loop [while (file >> command)] extracts, in order:
    each extraction skips whitespace and reads the longest run of
    non-whitespace characters; it fails at the end of the file. *)
Definition words (s : string) : list string :=
  let (w, ws) := scan s in match w with EmptyString => ws | _ => w :: ws end.

(** ** [toupper] *)

(** [toupper] on one [char].  [char] is signed on the usual targets: a
    byte from 128 to 254 is passed to [toupper] as a negative [int] other
    than [EOF], which is undefined behaviour ([None]); byte 255 is
    [EOF] and comes back unchanged. *)
Definition c_toupper (c : ascii) : option ascii :=
  let n := nat_of_ascii c in
  if n <? 128 then Some (if (97 <=? n) && (n <=? 122) then ascii_of_nat (n - 32) else c)
  else if n =? 255 then Some c
  else None.

(** [std::transform(command.begin(), command.end(), command.begin(), toupper)]. *)
Fixpoint upcase (s : string) : option string :=
  match s with
  | EmptyString => Some EmptyString
  | String c s' =>
      match c_toupper c, upcase s' with
      | Some c', Some s'' => Some (String c' s'')
      | _, _ => None
      end
  end.

Fixpoint upcase_all (ws : list string) : option (list string) :=
  match ws with
  | [] => Some []
  | w :: ws' =>
      match upcase w, upcase_all ws' with
      | Some w', Some ws'' => Some (w' :: ws'')
      | _, _ => None
      end
  end.

(** The token vector [code] after the reading loop (lines 885-889), or
    [None] when a [toupper] call is undefined. *)
Definition load (contents : string) : option (list string) := upcase_all (words contents).

(** ** [main] *)

(** The three messages [main] prints before returning -1. *)
Inductive main_error : Type :=
| NoInputFile                      (** "error: no input file" *)
| WrongExtension                   (** "error: wrong file extension" *)
| CouldNotRead (filename : string). (** "error: could not read file " filename *)

Inductive main_result : Type :=
| MainError (e : main_error)               (** printed, then [return -1] *)
| MainUndefined                            (** undefined behaviour in the loader *)
| MainRan (r : outcome unit * VM).         (** the run loop, from [initial code] *)

Section Main.
Context `{CMath}.

(** [main] (lines 868-898), with at most [fuel] iterations of the loop. *)
Definition main (fuel : nat) (argv : list string) (fs : string -> option string)
  : main_result :=
  match argv with
  | _ :: filename :: _ =>
      match String.index 0 ".mk" filename with
      | None => MainError WrongExtension
      | Some _ =>
          match fs filename with
          | None => MainError (CouldNotRead filename)
          | Some contents =>
              match load contents with
              | None => MainUndefined
              | Some code => MainRan (run fuel (initial code))
              end
          end
      end
  | _ => MainError NoInputFile
  end.
End Main.

(** The exit status of the process, when it has ended: [return -1] is
    status 255, [exit(0)] in [execution()] status 0. *)
Definition exit_status (r : main_result) : option nat :=
  match r with
  | MainError _ => Some 255
  | MainRan (Exit, _) => Some 0
  | _ => None
  end.

(** ** Tokens *)

(** A string with no whitespace character. *)
Fixpoint spaceless (s : string) : bool :=
  match s with
  | EmptyString => true
  | String c s' => negb (is_space c) && spaceless s'
  end.

(** A token as the core receives it: non-empty, without whitespace, and
    unchanged by [toupper]. *)
Definition token_ok (t : string) : Prop :=
  t <> EmptyString /\ spaceless t = true /\ upcase t = Some t.

(** Words written out separated by one space. *)
Fixpoint unwords (ws : list string) : string :=
  match ws with
  | [] => EmptyString
  | [w] => w
  | w :: ws' => String.append w (String " " (unwords ws'))
  end.

(** The characters C's [isspace] accepts in the "C" locale (C11
    7.4.1.10): space, form feed, newline, carriage return, horizontal
    and vertical tab. *)
Definition c_space_codes : list nat := [32; 12; 10; 13; 9; 11].

(** A token stated on character codes, independently of the loader's
    functions: non-empty, with no character [isspace] accepts and no
    lower-case letter ['a'..'z']. *)
Definition token_chars (t : string) : Prop :=
  t <> EmptyString /\
  Forall (fun c => nat_of_ascii c ∉ c_space_codes /\ ~ (97 <= nat_of_ascii c <= 122)%nat)
    (list_ascii_of_string t).

(** ** Reading words *)

(** [String.append] is [simpl never] under stdpp: its two equations. *)
Lemma append_empty_l (s : string) : String.append EmptyString s = s.
Proof. reflexivity. Qed.

Lemma append_String c (s t : string) :
  String.append (String c s) t = String c (String.append s t).
Proof. reflexivity. Qed.

Lemma append_empty_r (s : string) : String.append s EmptyString = s.
Proof. induction s as [|c s IH]; [done|]. by rewrite append_String, IH. Qed.

(** Scanning a word without whitespace keeps it whole in front of what
    follows. *)
Lemma scan_app (w s : string) :
  spaceless w = true ->
  scan (String.append w s) = let (w', ws) := scan s in (String.append w w', ws).
Proof.
  induction w as [|c w IH]; intros Hw; [rewrite !append_empty_l; by destruct (scan s)|].
  rewrite append_String. cbn in Hw |- *.
  apply andb_true_iff in Hw as [Hc Hw]. rewrite (IH Hw).
  destruct (scan s) as [w' ws]. apply negb_true_iff in Hc. by rewrite Hc.
Qed.

Lemma scan_space (s : string) : scan (String " " s) = (EmptyString, words s).
Proof. cbn. unfold words. by destruct (scan s). Qed.

(** Every word [scan] returns is non-empty and without whitespace, and
    the word in front has no whitespace. *)
Lemma scan_spaceless (s : string) :
  spaceless (scan s).1 = true /\
  Forall (fun w => w <> EmptyString /\ spaceless w = true) (scan s).2.
Proof.
  induction s as [|c s IH]; cbn; [done|].
  destruct (scan s) as [w ws]; cbn in IH |- *. destruct IH as [Hw Hws].
  destruct (is_space c) eqn:Hc; cbn; [split; [done|]|by rewrite Hc].
  destruct w; [done|]. by constructor.
Qed.

Lemma words_spaceless (s : string) :
  Forall (fun w => w <> EmptyString /\ spaceless w = true) (words s).
Proof.
  unfold words. pose proof (scan_spaceless s) as [Hw Hws].
  destruct (scan s) as [[|c w] ws]; cbn in *; [done|]. by constructor.
Qed.

(** ** [toupper] *)

(** [toupper] is idempotent and maps whitespace to whitespace only, on
    every byte where it is defined (checked on the 256 bytes). *)
Lemma c_toupper_idem (c c' : ascii) :
  c_toupper c = Some c' -> c_toupper c' = Some c' /\ is_space c' = is_space c.
Proof.
  intros E. destruct c as [[] [] [] [] [] [] [] []]; vm_compute in E;
    solve [discriminate E | injection E as <-; split; vm_compute; reflexivity].
Qed.

Lemma upcase_token (w w' : string) :
  upcase w = Some w' ->
  upcase w' = Some w' /\ spaceless w' = spaceless w /\ (w' = EmptyString <-> w = EmptyString).
Proof.
  revert w'. induction w as [|c w IH]; cbn; intros w' E; [by injection E as <-|].
  destruct (c_toupper c) as [c'|] eqn:Ec, (upcase w) as [w''|]; try done.
  injection E as <-. destruct (c_toupper_idem _ _ Ec) as [Ec' Hs].
  destruct (IH w'' eq_refl) as (Hu & Hsp & _). cbn. rewrite Ec', Hu, Hs, Hsp. done.
Qed.

Lemma upcase_all_forall (ws ws' : list string) :
  upcase_all ws = Some ws' -> Forall2 (fun w w' => upcase w = Some w') ws ws'.
Proof.
  revert ws'. induction ws as [|w ws IH]; cbn; intros ws' E; [by injection E as <-|].
  destruct (upcase w) eqn:Ew, (upcase_all ws) eqn:Ews; try done.
  injection E as <-. constructor; [done | by apply IH].
Qed.

(** C15. Round trip of the reading loop: writing non-empty words without
    whitespace separated by single spaces and reading them back with
    [while (file >> command)] gives the same words, in order. *)
Theorem words_unwords (ws : list string) :
  Forall (fun w => w <> EmptyString /\ spaceless w = true) ws -> words (unwords ws) = ws.
Proof.
  induction 1 as [|w ws [Hne Hw] Hws IH]; [done|].
  destruct ws as [|w2 ws].
  - unfold words. cbn [unwords].
    rewrite <- (append_empty_r w), (scan_app _ _ Hw). cbn. rewrite append_empty_r.
    by destruct w.
  - change (unwords (w :: w2 :: ws)) with (String.append w (String " " (unwords (w2 :: ws)))).
    unfold words at 1. rewrite (scan_app _ _ Hw), scan_space, append_empty_r, IH.
    by destruct w.
Qed.

(** One character of a token: not a C whitespace character, and not a
    lower-case letter. *)
Lemma token_char_code (c : ascii) :
  is_space c = false -> c_toupper c = Some c ->
  nat_of_ascii c ∉ c_space_codes /\ ~ (97 <= nat_of_ascii c <= 122)%nat.
Proof.
  unfold is_space, c_toupper. intros Hs Hu. pose proof (nat_ascii_bounded c).
  split.
  - rewrite list_elem_of_In. cbn.
    apply orb_false_iff in Hs as [H32 H913]. apply Nat.eqb_neq in H32.
    apply andb_false_iff in H913 as [Hb|Hb]; apply Nat.leb_gt in Hb; lia.
  - intros Hl. destruct (Nat.ltb_spec (nat_of_ascii c) 128); [|lia].
    replace ((97 <=? nat_of_ascii c) && (nat_of_ascii c <=? 122)) with true in Hu
      by (symmetry; apply andb_true_iff; split; apply Nat.leb_le; lia).
    injection Hu as Hu. apply (f_equal nat_of_ascii) in Hu.
    rewrite nat_ascii_embedding in Hu by lia. lia.
Qed.

Lemma token_ok_chars (t : string) : token_ok t -> token_chars t.
Proof.
  intros (Hne & Hsp & Hup). split; [exact Hne|]. clear Hne.
  induction t as [|c t IH]; [constructor|]. cbn in Hsp, Hup |- *.
  apply andb_true_iff in Hsp as [Hc Hsp]. apply negb_true_iff in Hc.
  destruct (c_toupper c) as [c'|] eqn:Ec; [|discriminate].
  destruct (upcase t) as [t'|] eqn:Et; [|discriminate]. injection Hup as <- <-.
  constructor; [by apply token_char_code | by apply IH].
Qed.

(** C14. The tokens the loader hands to the core are well formed, stated
    on character codes: every token of [code] is non-empty, contains
    none of the six characters C's [isspace] accepts, and no lower-case
    letter a..z (the [toupper] of line 889 has raised them), whatever the
    file. *)
Theorem load_tokens (contents : string) (code : list string) :
  load contents = Some code -> Forall token_chars code.
Proof.
  unfold load. intros E. apply upcase_all_forall in E.
  pose proof (words_spaceless contents) as Hw.
  induction E as [|w w' ws ws' Hu _ IH]; [done|]. inversion Hw as [|? ? [Hne Hsp] Hws]; subst.
  constructor; [|by apply IH]. apply token_ok_chars.
  destruct (upcase_token _ _ Hu) as (Hu' & Hsp' & Hnil). split_and!; [|congruence|done].
  intros ->. by apply Hne, Hnil.
Qed.

Section MainTheorems.
Context `{CMath}.

(** C5. The process ends: for a command line whose file name contains
    ".mk", a file that can be read, and contents whose [toupper] calls
    are defined and that hold at least one word, [main] reaches [exit(0)]
    within [length code + 1] iterations of its loop, with isRunning false,
    the final dump as the last line printed, and exit status 0 (the
    specification: the process terminates with a success status whether
    the halt comes from HLT or from a fatal error). *)
Theorem main_exits (prog filename : string) rest fs contents code :
  String.index 0 ".mk" filename <> None -> fs filename = Some contents ->
  load contents = Some code -> code <> [] ->
  exists st, main (S (length code)) (prog :: filename :: rest) fs = MainRan (Exit, st) /\
    exited st /\
    exit_status (main (S (length code)) (prog :: filename :: rest) fs) = Some 0.
Proof.
  intros Hx Hf Hl Hc. unfold main.
  destruct (String.index 0 ".mk" filename); [|done]. rewrite Hf, Hl.
  destruct (run_exits (S (length code)) (initial code) (initial_wf _ Hc) eq_refl)
    as (st & Hr & He); [cbn; lia|].
  exists st. rewrite Hr. by split_and!.
Qed.
End MainTheorems.

(** ** The extension check and the undefined inputs *)

(** [prefix p f] holds exactly when [f] starts with [p]. *)
Lemma prefix_app (p b : string) : String.prefix p (String.append p b) = true.
Proof.
  induction p as [|c p IH]; [by destruct b|]. rewrite append_String. cbn.
  destruct (ascii_dec c c); [exact IH | done].
Qed.

Lemma prefix_split (p f : string) : String.prefix p f = true -> exists b, f = String.append p b.
Proof.
  revert f. induction p as [|c p IH]; intros f H; [by exists f|].
  destruct f as [|c' f]; [discriminate|]. cbn in H. destruct (ascii_dec c c') as [<-|]; [|discriminate].
  destruct (IH f H) as [b ->]. exists b. by rewrite append_String.
Qed.

(** [filename.find(p) != npos] exactly when [p] occurs in [filename]. *)
Lemma index_found (p a b : string) :
  String.index 0 p (String.append a (String.append p b)) <> None.
Proof.
  induction a as [|c a IH].
  - rewrite append_empty_l. destruct (String.append p b) as [|c s] eqn:E.
    + destruct p; [done | discriminate].
    + cbn [String.index]. by rewrite <- E, prefix_app.
  - rewrite append_String. cbn [String.index]. destruct (String.prefix _ _); [done|].
    destruct (String.index 0 p _); done.
Qed.

Lemma index_split (p f : string) (n : nat) :
  String.index 0 p f = Some n -> exists a b, f = String.append a (String.append p b).
Proof.
  revert n. induction f as [|c f IH]; intros n H.
  - destruct p; [|discriminate]. by exists EmptyString, EmptyString.
  - cbn [String.index] in H. destruct (String.prefix p (String c f)) eqn:Hp.
    + destruct (prefix_split _ _ Hp) as [b ->]. by exists EmptyString, b.
    + destruct (String.index 0 p f) as [m|] eqn:E; [|discriminate].
      destruct (IH m eq_refl) as (a & b & ->). exists (String c a), b. by rewrite append_String.
Qed.

(** A byte from 128 to 254 in a word makes [toupper] undefined. *)
Lemma upcase_high_byte (w : string) (c : ascii) :
  c ∈ list_ascii_of_string w -> (128 <= nat_of_ascii c <= 254)%nat -> upcase w = None.
Proof.
  induction w as [|c0 w IH]; intros Hc Hn; [by apply elem_of_nil in Hc|].
  cbn in Hc |- *. apply elem_of_cons in Hc as [<-|Hc].
  - unfold c_toupper. destruct (Nat.ltb_spec (nat_of_ascii c) 128); [lia|].
    destruct (Nat.eqb_spec (nat_of_ascii c) 255); [lia|]. done.
  - rewrite (IH Hc Hn). by destruct (c_toupper c0).
Qed.

Lemma upcase_all_none (ws : list string) (w : string) :
  w ∈ ws -> upcase w = None -> upcase_all ws = None.
Proof.
  induction ws as [|w0 ws IH]; intros Hw Hu; [by apply elem_of_nil in Hw|].
  cbn. apply elem_of_cons in Hw as [->|Hw]; [by rewrite Hu|].
  rewrite (IH Hw Hu). by destruct (upcase w0).
Qed.

(** On an empty program the first [*ip] dereferences [code.end()]. *)
Lemma run_empty_stuck `{CMath} (fuel : nat) :
  exists st, run (S fuel) (initial []) = (Stuck, st).
Proof.
  cbn [run]. rewrite bind_get. cbn [isRunning initial]. unfold operations.
  eexists. unfold bind at 1. unfold bind at 1. reflexivity.
Qed.

(** ** Whole processes *)

(** C24. The extension check is a substring search: [main] gets past
    [filename.find(".mk") == npos] exactly on the names in which ".mk"
    occurs anywhere ("notes.mkv" and "prog.mk.bak" pass; "PROG.MK" does
    not, as the search is case-sensitive); the name's extension itself
    is never examined. *)
Theorem extension_check_substring `{CMath} fuel (prog filename : string) rest fs :
  main fuel (prog :: filename :: rest) fs <> MainError WrongExtension <->
  exists a b, filename = String.append a (String.append ".mk" b).
Proof.
  unfold main. split.
  - destruct (String.index 0 ".mk" filename) as [n|] eqn:E; [|done].
    intros _. exact (index_split _ _ n E).
  - intros (a & b & ->). pose proof (index_found ".mk" a b) as Hf.
    destruct (String.index 0 ".mk" _); [|done].
    destruct (fs _); [destruct (load _)|]; discriminate.
Qed.

(** C25. Two kinds of input the loader accepts lead to undefined
    behaviour, for every file: a word holding a byte from 128 to 254
    makes [toupper] receive a negative [char] other than [EOF] (line
    889); contents with no word at all give an empty [code], and the
    first [getInstruction] dereferences [code.end()]. *)
Theorem loader_undefined `{CMath} fuel (prog filename : string) rest fs contents :
  String.index 0 ".mk" filename <> None -> fs filename = Some contents ->
  ((exists w c, w ∈ words contents /\ c ∈ list_ascii_of_string w /\
                (128 <= nat_of_ascii c <= 254)%nat) ->
     main fuel (prog :: filename :: rest) fs = MainUndefined) /\
  (words contents = [] ->
     exists st, main (S fuel) (prog :: filename :: rest) fs = MainRan (Stuck, st)).
Proof.
  intros Hx Hfs. unfold main. destruct (String.index 0 ".mk" filename); [|done]. rewrite Hfs.
  split.
  - intros (w & c & Hw & Hc & Hn). unfold load.
    by rewrite (upcase_all_none _ _ Hw (upcase_high_byte _ _ Hc Hn)).
  - intros Hnil. unfold load. rewrite Hnil. cbn [upcase_all]. destruct (run_empty_stuck fuel) as [st ->]. by exists st.
Qed.

Lemma words_unwords_witness :
  Forall (fun w => w <> EmptyString /\ spaceless w = true) ["PSH"; "5"] /\
  words (unwords ["PSH"; "5"]) = ["PSH"; "5"].
Proof.
  assert (H : Forall (fun w => w <> EmptyString /\ spaceless w = true) ["PSH"; "5"])
    by (repeat constructor; discriminate).
  split; [exact H | exact (words_unwords _ H)].
Defined.

Lemma load_tokens_witness :
  load "psh  5" = Some ["PSH"; "5"] /\ Forall token_chars ["PSH"; "5"].
Proof.
  assert (H : load "psh  5" = Some ["PSH"; "5"]) by (vm_compute; reflexivity).
  split; [exact H | exact (load_tokens _ _ H)].
Defined.

Lemma main_exits_witness :
  String.index 0 ".mk" "p.mk" <> None /\
  (exists st, @main integer_cmath 3 ["vm"; "p.mk"] (fun _ => Some "nop hlt") = MainRan (Exit, st) /\
     exited st /\
     exit_status (@main integer_cmath 3 ["vm"; "p.mk"] (fun _ => Some "nop hlt")) = Some 0).
Proof.
  assert (Hx : String.index 0 ".mk" "p.mk" <> None) by discriminate.
  split; [exact Hx|].
  exact (@main_exits integer_cmath "vm" "p.mk" [] (fun _ => Some "nop hlt") "nop hlt"
           ["NOP"; "HLT"] Hx eq_refl ltac:(vm_compute; reflexivity) ltac:(discriminate)).
Defined.

Lemma loader_undefined_witness :
  String.index 0 ".mk" "p.mk" <> None /\
  @main integer_cmath 3 ["vm"; "p.mk"] (fun _ => Some (String "233" "")) = MainUndefined.
Proof.
  split; [discriminate|].
  apply (proj1 (@loader_undefined integer_cmath 3 "vm" "p.mk" [] (fun _ => Some (String "233" ""))
                  (String "233" "") ltac:(discriminate) eq_refl)).
  exists (String "233" ""), "233"%char. split_and!.
  - cbn. apply elem_of_cons. left. reflexivity.
  - cbn. apply elem_of_cons. left. reflexivity.
  - vm_compute. lia.
  - vm_compute. lia.
Defined.
