(* ===== verification/Render.v ===== *)
(** * Render: the text VirtualMK writes to [std::cout]

    The machine records what it prints as a list of [event]s; this file
    gives the characters each one stands for, after the output
    statements of the source: the three printing helpers
    [printVector], [reversePrintVector] and [printRegisters] (lines
    48-82), the final dump of [execution] (lines 84-91), the message of
    every diagnostic, and the three messages of [main].  How
    [operator<<] writes a [double] is the field of the class [Ostream],
    whose instance [g_ostream] of [Output] is the default stream
    format of [Format]; an [int] is written in decimal.  [std::endl] is a newline
    (the flush is not observable in the text). *)

From Stdlib Require Import Ascii String Floats ZArith.
From stdpp Require Import base list strings pretty.
From S2P Require Import Prelude Values Tables Machine Loader.

(** [std::cout << x] on a [double].  Its one law: with the default
    flags the text of a number ("-1.5", "1e+20", "inf", "nan") has no
    whitespace. *)
Class Ostream := {
  show_double : float -> string;
  show_double_spaceless : forall v, spaceless (show_double v) = true
}.

(** [std::endl]. *)
Definition endl : string := String "010" EmptyString.

(** [std::cout << n] on an [int] (the counts are non-negative). *)
Definition show_count (n : nat) : string := pretty n.

Section Render.
Context `{Ostream}.

(** The loop [for (auto e : vec) std::cout << e << " ";]. *)
Fixpoint print_elems (l : list float) : string :=
  match l with
  | [] => EmptyString
  | e :: l' => String.append (show_double e) (String " " (print_elems l'))
  end.

(** [printVector] (lines 48-59), on the vector in its order (never
    called by the program). *)
Definition printVector (vec : list float) : string :=
  String.append (match vec with [] => "empty" | _ => print_elems vec end) endl.

(** [reversePrintVector] (lines 61-72): the same loop from [rbegin()]
    to [rend()]. *)
Definition reversePrintVector (vec : list float) : string :=
  String.append (match vec with [] => "empty" | _ => print_elems (rev vec) end) endl.

(** The loop of [printRegisters]: [++c; std::cout << c << " = " << *e << "  ";]. *)
Fixpoint print_regs (c : nat) (l : list float) : string :=
  match l with
  | [] => EmptyString
  | e :: l' =>
      String (ascii_of_nat (S c))
        (String.append " = " (String.append (show_double e) (String.append "  " (print_regs (S c) l'))))
  end.

(** [printRegisters] (lines 74-82): [char c = 64], the registers from
    [begin() + 1]; [regsAF] is that range. *)
Definition printRegistersAF (regsAF : list float) : string :=
  String.append "Registers: " (String.append (print_regs 64 regsAF) endl).

Definition printRegisters (regs : list float) : string := printRegistersAF (drop 1 regs).

(** The text after ["<count> | error: "] of each diagnostic. *)
Definition error_message (e : error) : string :=
  match e with
  | NotEnoughInstructions => "not enough instructions"
  | InstructionUnknown tok => String.append "instruction unknown: " tok
  | RegisterUnknown tok => String.append "register unknown: " tok
  | NumberIncorrect tok => String.append "number incorrect : " tok
  | CouldNotPop => "could not pop value, stack is empty "
  | StackNotEnoughValues => "stack has not enough values"
  | RegisterIncorrect => "register is incorrect"
  | DivideByZero => "could not be divide by zero"
  | SqrtNegative v =>
      String.append "could not calculate square root from negative number: " (show_double v)
  | StackEmpty => "stack is empty"
  | StackValueZero => "value on stack is zero"
  | RegisterValueZero => "register value is zero"
  | UnknownInstructionCode n => String.append "unknown instruction: " (show_count n)
  end.

(** ["Finished execution \n \n"]. *)
Definition finished_banner : string :=
  String.append "Finished execution " (String.append endl (String " " endl)).

(** The characters of one event.  The stack of the model is the vector
    of the source reversed, so [reversePrintVector] receives [rev stk]. *)
Definition render_event (ev : event) : string :=
  match ev with
  | Error c e =>
      String.append (show_count c) (String.append " | error: " (String.append (error_message e) endl))
  | Popped v => String.append "popped value: " (String.append (show_double v) endl)
  | Dump stk regsAF =>
      String.append endl (String.append "Stack: "
        (String.append (reversePrintVector (rev stk)) (String.append (printRegistersAF regsAF) endl)))
  | DoNothing => String.append "do nothing" endl
  | Finished stk regsAF =>
      String.append endl (String.append finished_banner (String.append "Stack: "
        (String.append (reversePrintVector (rev stk))
           (String.append (printRegistersAF regsAF) endl))))
  end.

(** Everything the run has printed. *)
Definition render (out : list event) : string :=
  foldr (fun ev acc => String.append (render_event ev) acc) EmptyString out.

(** The messages of [main] (lines 871, 877, 883). *)
Definition render_main_error (e : main_error) : string :=
  match e with
  | NoInputFile => String.append "error: no input file" endl
  | WrongExtension => String.append "error: wrong file extension" endl
  | CouldNotRead f => String.append "error: could not read file " (String.append f endl)
  end.

(** The text has no newline character. *)
Fixpoint newline_free (s : string) : bool :=
  match s with
  | EmptyString => true
  | String c s' => negb (Ascii.eqb c "010") && newline_free s'
  end.

(** The tokens a diagnostic quotes have no whitespace, as every token of
    a loaded program ([load_tokens]). *)
Definition error_tokens_ok (e : error) : Prop :=
  match e with
  | InstructionUnknown t | RegisterUnknown t | NumberIncorrect t => spaceless t = true
  | _ => True
  end.

(** The standard output of the process, when its behaviour is defined. *)
Definition stdout (r : main_result) : option string :=
  match r with
  | MainError e => Some (render_main_error e)
  | MainRan (_, st) => Some (render (output st))
  | MainUndefined => None
  end.
End Render.

(** ** Strings *)

Lemma append_assoc_str (a b c : string) :
  String.append (String.append a b) c = String.append a (String.append b c).
Proof. induction a as [|x a IH]; [done|]. rewrite !append_String, IH. done. Qed.

Lemma newline_free_append (a b : string) :
  newline_free (String.append a b) = newline_free a && newline_free b.
Proof.
  induction a as [|x a IH]; [done|]. rewrite append_String. cbn. rewrite IH.
  by destruct (negb _), (newline_free a).
Qed.

Lemma spaceless_append (a b : string) :
  spaceless (String.append a b) = spaceless a && spaceless b.
Proof.
  induction a as [|x a IH]; [done|]. rewrite append_String. cbn. rewrite IH.
  by destruct (negb _), (spaceless a).
Qed.

Lemma spaceless_newline_free (s : string) : spaceless s = true -> newline_free s = true.
Proof.
  induction s as [|c s IH]; [done|]. cbn. intros [Hc Hs]%andb_true_iff.
  rewrite (IH Hs), andb_true_r. apply negb_true_iff in Hc. apply negb_true_iff.
  destruct (Ascii.eqb_spec c "010") as [->|]; [done | reflexivity].
Qed.

Lemma pretty_N_char_not_space (d : N) : is_space (pretty_N_char d) = false.
Proof. unfold pretty_N_char. repeat case_match; reflexivity. Qed.

Lemma pretty_N_go_spaceless (x : N) (s : string) :
  spaceless s = true -> spaceless (pretty_N_go x s) = true.
Proof.
  revert s. induction (N.lt_wf_0 x) as [x _ IH]; intros s Hs.
  destruct (decide (x = 0%N)) as [->|Hx]; [by rewrite pretty_N_go_0|].
  rewrite pretty_N_go_step by lia. apply IH; [apply N.div_lt; lia|].
  cbn [spaceless]. by rewrite Hs, pretty_N_char_not_space.
Qed.

Lemma show_count_spaceless (n : nat) : spaceless (show_count n) = true.
Proof.
  unfold show_count.
  change (pretty n) with
    (if decide (N.of_nat n = 0%N) then "0" else pretty_N_go (N.of_nat n) "").
  destruct (decide _); [done|]. by apply pretty_N_go_spaceless.
Qed.

Section RenderTheorems.
Context `{Ostream}.

Lemma error_message_newline_free (e : error) :
  error_tokens_ok e -> newline_free (error_message e) = true.
Proof.
  destruct e; cbn [error_tokens_ok error_message]; intros Ht; try reflexivity;
    rewrite newline_free_append; apply andb_true_intro; split; try reflexivity;
    apply spaceless_newline_free;
    solve [exact Ht | apply show_double_spaceless | apply show_count_spaceless].
Qed.

(** C26. Every diagnostic is exactly one line (specification, section 7:
    "every fatal and recoverable condition produces exactly one
    diagnostic line"; section 6: each is prefixed with the count and a
    pipe): the text of [Error c e] is ["<c> | error: <message>"] with no
    newline inside, then [std::endl], as long as the token it quotes has
    no whitespace, which holds for every token of a loaded program. *)
Theorem diagnostic_single_line (c : nat) (e : error) :
  error_tokens_ok e ->
  exists line, newline_free line = true /\
    render_event (Error c e) = String.append line endl /\
    line = String.append (show_count c) (String.append " | error: " (error_message e)).
Proof.
  intros He.
  exists (String.append (show_count c) (String.append " | error: " (error_message e))).
  split_and!; [|cbn [render_event]; by rewrite !append_assoc_str | done].
  rewrite !newline_free_append, (error_message_newline_free _ He),
    (spaceless_newline_free _ (show_count_spaceless c)). done.
Qed.

End RenderTheorems.
