(* ===== verification/Format.v ===== *)
(** * Format: [std::cout << x] on a [double], the default stream format

    With the flags of a fresh [std::cout] (no [fixed], no [scientific],
    precision 6), libstdc++'s [num_put] writes a double with the C
    conversion ["%.6g"] in the C locale.  This file computes that text
    exactly, after the C standard (7.21.6.1): the value [m * 2^e] of the
    double is a fraction [num / den]; [exp10] is its decimal exponent
    [X0]; [significand] rounds it to six significant digits, to
    nearest with ties to even as glibc does in the default rounding
    mode, and moves to the exponent [X0 + 1] when the rounding carries
    to [10^6].  Style [f] with [5 - X] decimals is used when
    [-4 <= X < 6], style [e] with five decimals and an exponent of at
    least two digits otherwise; trailing zeros of the fraction and a
    bare decimal point are removed.  Zeros print ["0"] and ["-0"], the
    infinities ["inf"] and ["-inf"], a NaN ["nan"] (its sign, which
    glibc prints as ["-nan"], is not part of Rocq's floats).  The
    [Ostream] instance [g_ostream] of [Output] writes doubles with
    [show_g]. *)

From Stdlib Require Import Ascii String Floats ZArith Lia.
From stdpp Require Import base list strings pretty.
From S2P Require Import Prelude Values Loader Render.

Local Open Scope Z_scope.

(** [std::ios_base::precision()] of a fresh stream. *)
Definition precision : Z := 6.

(** ** Decimal digits *)

Definition digit_char (d : Z) : ascii := ascii_of_nat (48 + Z.to_nat d).

(** The [w] low decimal digits of [q], most significant first, before
    [acc]. *)
Fixpoint zdigits_go (w : nat) (q : Z) (acc : string) : string :=
  match w with
  | O => acc
  | S w' => zdigits_go w' (q / 10) (String (digit_char (q mod 10)) acc)
  end.

Definition zdigits (w : nat) (q : Z) : string := zdigits_go w q EmptyString.

(** Removes the trailing zeros of a string of digits. *)
Fixpoint strip_zeros (s : string) : string :=
  match s with
  | EmptyString => EmptyString
  | String c r =>
      let r' := strip_zeros r in
      if String.eqb r' EmptyString && Ascii.eqb c "0" then EmptyString else String c r'
  end.

(** The number of decimal digits of [n >= 1], minus one.  Each step
    divides by 10, so [log2 n + 1] steps are enough. *)
Fixpoint ilog10_go (fuel : nat) (n : Z) : Z :=
  match fuel with
  | O => 0
  | S f => if n <? 10 then 0 else 1 + ilog10_go f (n / 10)
  end.

Definition ilog10 (n : Z) : Z := ilog10_go (S (Z.to_nat (Z.log2 n))) n.

(** [10^k] for a signed [k], as a factor of the numerator and one of
    the denominator. *)
Definition pow10_num (k : Z) : Z := 10 ^ Z.max k 0.
Definition pow10_den (k : Z) : Z := 10 ^ Z.max (- k) 0.

(** [le10 num den x]: [10^x <= num / den]. *)
Definition le10 (num den x : Z) : Prop := den * pow10_num x <= num * pow10_den x.

(** The decimal exponent of [num / den]: the [X] with
    [10^X <= num / den < 10^(X+1)]. *)
Definition exp10 (num den : Z) : Z :=
  let c := ilog10 num - ilog10 den in
  if den * pow10_num c <=? num * pow10_den c then c else c - 1.

(** [num / den] rounded to the nearest integer, ties to even. *)
Definition round_even (num den : Z) : Z :=
  let q := num / den in
  match Z.compare (2 * (num mod den)) den with
  | Lt => q
  | Gt => q + 1
  | Eq => if Z.even q then q else q + 1
  end.

(** The six significant digits [q] ([10^5 <= q < 10^6]) of [num / den]
    and the exponent [X] of style [e]: [num / den ~ q * 10^(X - 5)]. *)
Definition significand (num den : Z) : Z * Z :=
  let x := exp10 num den in
  let k := precision - 1 - x in
  let q := round_even (num * pow10_num k) (den * pow10_den k) in
  if q =? 10 ^ precision then (10 ^ (precision - 1), x + 1) else (q, x).

(** ** The text *)

(** The fraction after the decimal point, without its trailing zeros;
    no point when nothing is left. *)
Definition fraction (s : string) : string :=
  match strip_zeros s with
  | EmptyString => EmptyString
  | f => String "." f
  end.

(** [q * 10^-k] with [k] decimals, trailing zeros removed. *)
Definition fixed (k : nat) (q : Z) : string :=
  String.append (pretty (Z.to_N (q / 10 ^ Z.of_nat k)))
    (fraction (zdigits k (q mod 10 ^ Z.of_nat k))).

(** ["e"], the sign, and at least two digits. *)
Definition exponent_text (x : Z) : string :=
  String "e" (String.append (if x <? 0 then "-" else "+")
    (if Z.abs x <? 10 then String "0" (pretty (Z.to_N (Z.abs x)))
     else pretty (Z.to_N (Z.abs x)))).

(** ["%.6g"] of the positive number [num / den]. *)
Definition show_g_finite (num den : Z) : string :=
  let '(q, x) := significand num den in
  if (-4 <=? x) && (x <? precision) then fixed (Z.to_nat (precision - 1 - x)) q
  else String.append (fixed (Z.to_nat (precision - 1)) q) (exponent_text x).

(** [std::cout << v]. *)
Definition show_g (v : float) : string :=
  match FloatOps.Prim2SF v with
  | SpecFloat.S754_zero s => if s then "-0" else "0"
  | SpecFloat.S754_infinity s => if s then "-inf" else "inf"
  | SpecFloat.S754_nan => "nan"
  | SpecFloat.S754_finite s m e =>
      String.append (if s then "-" else "")
        (show_g_finite (Z.pos m * 2 ^ Z.max e 0) (2 ^ Z.max (- e) 0))
  end.

(** ** The digit arithmetic *)

Lemma ilog10_go_spec (f : nat) (n : Z) :
  1 <= n -> n < 10 ^ Z.of_nat f ->
  0 <= ilog10_go f n /\ 10 ^ ilog10_go f n <= n < 10 ^ (ilog10_go f n + 1).
Proof.
  revert n. induction f as [|f IH]; intros n H1 H2; [cbn in H2; lia|].
  cbn [ilog10_go]. destruct (Z.ltb_spec n 10); [cbn; lia|].
  rewrite Nat2Z.inj_succ, Z.pow_succ_r in H2 by lia.
  destruct (IH (n / 10)) as (Hr & Hlo & Hhi);
    [apply Z.div_le_lower_bound; lia | apply Z.div_lt_upper_bound; lia |].
  set (r := ilog10_go f (n / 10)) in *.
  replace (1 + r + 1) with (Z.succ (r + 1)) by lia. replace (1 + r) with (Z.succ r) by lia.
  rewrite !Z.pow_succ_r by lia.
  pose proof (Z.mul_div_le n 10). pose proof (Z.mod_pos_bound n 10).
  pose proof (Z.div_mod n 10). lia.
Qed.

Lemma ilog10_spec (n : Z) :
  1 <= n -> 0 <= ilog10 n /\ 10 ^ ilog10 n <= n < 10 ^ (ilog10 n + 1).
Proof.
  intros Hn. apply ilog10_go_spec; [done|].
  pose proof (Z.log2_spec n) as [_ Hl]; [lia|]. pose proof (Z.log2_nonneg n).
  rewrite Nat2Z.inj_succ, Z2Nat.id, <- Z.add_1_r by lia.
  eapply Z.lt_le_trans; [exact Hl|]. apply Z.pow_le_mono_l; lia.
Qed.

Lemma le10_shift (num den x k : Z) :
  0 <= k -> 0 <= x + k ->
  (le10 num den x <-> den * 10 ^ (x + k) <= num * 10 ^ k).
Proof.
  intros Hk Hxk. unfold le10, pow10_num, pow10_den.
  destruct (Z.leb_spec 0 x).
  - rewrite Z.max_l, (Z.max_r (- x)), Z.pow_0_r, Z.mul_1_r, Z.pow_add_r by lia.
    pose proof (Z.pow_pos_nonneg 10 k). nia.
  - rewrite Z.max_r, (Z.max_l (- x)), Z.pow_0_r, Z.mul_1_r by lia.
    replace k with (- x + (x + k)) at 2 by lia. rewrite (Z.pow_add_r 10 (- x) (x + k)) by lia.
    pose proof (Z.pow_pos_nonneg 10 (x + k)). nia.
Qed.

Lemma le10_mono (num den x y : Z) :
  0 < den -> y <= x -> le10 num den x -> le10 num den y.
Proof.
  intros Hd Hyx. set (k := Z.abs x + Z.abs y).
  rewrite (le10_shift num den x k), (le10_shift num den y k) by lia. intros H.
  enough (10 ^ (y + k) <= 10 ^ (x + k)) by nia. apply Z.pow_le_mono_r; lia.
Qed.

(** [exp10] is the decimal exponent: [10^X <= num / den < 10^(X+1)]. *)
Lemma exp10_spec (num den : Z) :
  1 <= num -> 1 <= den ->
  le10 num den (exp10 num den) /\ ~ le10 num den (exp10 num den + 1).
Proof.
  intros Hn Hd. destruct (ilog10_spec num Hn) as (Ha & Ha1 & Ha2).
  destruct (ilog10_spec den Hd) as (Hb & Hb1 & Hb2).
  set (a := ilog10 num) in *. set (b := ilog10 den) in *.
  assert (Hlo : le10 num den (a - b - 1)).
  { rewrite (le10_shift _ _ _ (b + 1)) by lia. replace (a - b - 1 + (b + 1)) with a by lia. nia. }
  assert (Hhi : ~ le10 num den (a - b + 1)).
  { rewrite (le10_shift _ _ _ b) by lia. replace (a - b + 1 + b) with (a + 1) by lia. nia. }
  unfold exp10. fold a b. destruct (Z.leb_spec (den * pow10_num (a - b)) (num * pow10_den (a - b))).
  - split; [exact H|exact Hhi].
  - split; [exact Hlo|]. replace (a - b - 1 + 1) with (a - b) by lia. unfold le10. lia.
Qed.

Lemma exp10_unique (num den j : Z) :
  1 <= num -> 1 <= den -> le10 num den j -> ~ le10 num den (j + 1) -> exp10 num den = j.
Proof.
  intros Hn Hd Hj Hj1. destruct (exp10_spec num den Hn Hd) as [Hx Hx1].
  destruct (Z.lt_total (exp10 num den) j) as [Hlt|[Heq|Hgt]]; [|exact Heq|].
  - exfalso. apply Hx1. apply (le10_mono _ _ j); [lia|lia|exact Hj].
  - exfalso. apply Hj1. apply (le10_mono _ _ (exp10 num den)); [lia|lia|exact Hx].
Qed.

Lemma round_even_exact (q den : Z) : 0 < den -> round_even (q * den) den = q.
Proof.
  intros Hd. unfold round_even. rewrite Z.div_mul, Z.mod_mul by lia.
  by destruct (Z.compare_spec (2 * 0) den); [lia| |lia].
Qed.

Lemma strip_zeros_zdigits_0 (w : nat) (acc : string) :
  strip_zeros acc = EmptyString -> strip_zeros (zdigits_go w 0 acc) = EmptyString.
Proof.
  revert acc. induction w as [|w IH]; intros acc H; [exact H|].
  cbn [zdigits_go]. apply IH. cbn [strip_zeros]. rewrite H. reflexivity.
Qed.

Lemma fixed_exact (k : nat) (n : Z) :
  0 <= n -> fixed k (n * 10 ^ Z.of_nat k) = pretty (Z.to_N n).
Proof.
  intros Hn. pose proof (Z.pow_pos_nonneg 10 (Z.of_nat k)).
  unfold fixed. rewrite Z.div_mul, Z.mod_mul by lia.
  unfold fraction, zdigits. rewrite strip_zeros_zdigits_0 by reflexivity.
  apply append_empty_r.
Qed.

(** An integer [n] with [1 <= n < 10^6]: six digits are enough, its
    exponent is its number of digits minus one, and it is printed in
    style [f] with no fraction. *)
Lemma significand_int (den n : Z) :
  1 <= den -> 1 <= n < 10 ^ 6 ->
  significand (n * den) den = (n * 10 ^ (5 - ilog10 n), ilog10 n) /\ 0 <= ilog10 n <= 5.
Proof.
  intros Hd Hn. destruct (ilog10_spec n) as (Hj & Hj1 & Hj2); [lia|].
  set (j := ilog10 n) in *.
  assert (Hj5 : j <= 5).
  { destruct (Z.le_gt_cases j 5) as [|Hgt]; [done|].
    pose proof (Z.pow_le_mono_r 10 6 j ltac:(lia) ltac:(lia)). lia. }
  assert (Hpk : 0 < 10 ^ (5 - j)) by (apply Z.pow_pos_nonneg; lia).
  assert (Hsplit : 10 ^ (j + 1) * 10 ^ (5 - j) = 10 ^ 6)
    by (rewrite <- Z.pow_add_r by lia; f_equal; lia).
  assert (He : exp10 (n * den) den = j).
  { apply exp10_unique; [nia|lia| |].
    - rewrite (le10_shift _ _ _ 0), Z.add_0_r, Z.pow_0_r by lia. nia.
    - rewrite (le10_shift _ _ _ 0), Z.add_0_r, Z.pow_0_r by lia. nia. }
  split; [|lia].
  unfold significand, precision. rewrite He.
  unfold pow10_num, pow10_den. rewrite (Z.max_l (6 - 1 - j)), (Z.max_r (- _)), Z.pow_0_r by lia.
  replace (6 - 1 - j) with (5 - j) by lia.
  replace (n * den * 10 ^ (5 - j)) with (n * 10 ^ (5 - j) * (den * 1)) by ring.
  rewrite round_even_exact by lia.
  destruct (Z.eqb_spec (n * 10 ^ (5 - j)) (10 ^ 6)); [nia | reflexivity].
Qed.

Lemma show_g_finite_int (den n : Z) :
  1 <= den -> 1 <= n < 10 ^ 6 -> show_g_finite (n * den) den = pretty (Z.to_N n).
Proof.
  intros Hd Hn. destruct (significand_int den n Hd Hn) as [Hs Hj].
  unfold show_g_finite. rewrite Hs. cbn beta iota.
  unfold precision. replace ((-4 <=? ilog10 n) && (ilog10 n <? 6)) with true
    by (symmetry; apply andb_true_intro; split; apply Z.leb_le || apply Z.ltb_lt; lia).
  rewrite <- (Z2Nat.id (5 - ilog10 n)) at 1 by lia.
  replace (6 - 1 - ilog10 n) with (5 - ilog10 n) by lia.
  apply fixed_exact. lia.
Qed.

(** C27. [std::cout << v] on a double whose value is an integer [n]
    with [|n| < 10^6] writes the sign and the decimal digits of [n], as
    [std::cout] writes an integer: six significant digits hold every
    such value exactly, and the default format removes the trailing
    zeros and the decimal point. *)
Theorem show_g_integer (v : float) (s : bool) (m : positive) (e n : Z) :
  FloatOps.Prim2SF v = SpecFloat.S754_finite s m e ->
  Z.pos m * 2 ^ Z.max e 0 = n * 2 ^ Z.max (- e) 0 ->
  1 <= n < 10 ^ 6 ->
  show_g v = String.append (if s then "-" else "") (pretty (Z.to_N n)).
Proof.
  intros Hv Hval Hn. unfold show_g. rewrite Hv, Hval. f_equal.
  apply show_g_finite_int; [|exact Hn].
  pose proof (Z.pow_pos_nonneg 2 (Z.max (- e) 0)). lia.
Qed.

Lemma show_g_integer_witness :
  show_g (-123456)%float = String.append "-" (pretty (Z.to_N 123456)).
Proof.
  apply (show_g_integer _ true 8483831719919616 (-36) 123456);
    [vm_compute; reflexivity | vm_compute; reflexivity | lia].
Defined.

(** ** No whitespace in the text *)

Lemma digit_char_not_space (d : Z) : 0 <= d < 10 -> is_space (digit_char d) = false.
Proof.
  intros Hd. assert (d = 0 \/ d = 1 \/ d = 2 \/ d = 3 \/ d = 4 \/ d = 5 \/ d = 6 \/
                     d = 7 \/ d = 8 \/ d = 9) as Hc by lia.
  repeat destruct Hc as [->|Hc]; [reflexivity..|subst; reflexivity].
Qed.

Lemma zdigits_go_spaceless (w : nat) (q : Z) (acc : string) :
  spaceless acc = true -> spaceless (zdigits_go w q acc) = true.
Proof.
  revert q acc. induction w as [|w IH]; intros q acc H; [exact H|].
  cbn [zdigits_go]. apply IH. cbn [spaceless].
  rewrite digit_char_not_space, H by (apply Z.mod_pos_bound; lia). reflexivity.
Qed.

Lemma strip_zeros_spaceless (s : string) : spaceless s = true -> spaceless (strip_zeros s) = true.
Proof.
  induction s as [|c s IH]; [done|]. cbn [spaceless strip_zeros].
  intros [Hc Hs]%andb_true_iff. destruct (_ && _); [done|].
  cbn [spaceless]. by rewrite Hc, IH.
Qed.

Lemma pretty_N_spaceless (x : N) : spaceless (pretty x) = true.
Proof.
  change (pretty x) with (if decide (x = 0%N) then "0" else pretty_N_go x "").
  destruct (decide _); [done|]. by apply pretty_N_go_spaceless.
Qed.

Lemma fixed_spaceless (k : nat) (q : Z) : spaceless (fixed k q) = true.
Proof.
  unfold fixed, fraction. rewrite spaceless_append, pretty_N_spaceless.
  pose proof (strip_zeros_spaceless (zdigits k (q mod 10 ^ Z.of_nat k))
                (zdigits_go_spaceless _ _ EmptyString eq_refl)) as H.
  by destruct (strip_zeros _); cbn [spaceless]; rewrite ?H.
Qed.

Lemma show_g_spaceless (v : float) : spaceless (show_g v) = true.
Proof.
  unfold show_g. destruct (FloatOps.Prim2SF v) as [[]|[]| |s m e]; try reflexivity.
  rewrite spaceless_append. apply andb_true_intro. split; [by destruct s|].
  unfold show_g_finite. destruct (significand _ _) as [q x].
  destruct (_ && _); [apply fixed_spaceless|].
  rewrite spaceless_append, fixed_spaceless. unfold exponent_text. cbn [spaceless].
  rewrite spaceless_append. destruct (x <? 0), (Z.abs x <? 10); cbn [spaceless];
    rewrite pretty_N_spaceless; reflexivity.
Qed.

(** ** The width of the text *)

Lemma length_append_str (a b : string) :
  String.length (String.append a b) = (String.length a + String.length b)%nat.
Proof. induction a as [|c a IH]; [done|]. rewrite append_String. cbn. by rewrite IH. Qed.

Lemma pretty_N_go_length (d : nat) (x : N) (s : string) :
  (x < 10 ^ N.of_nat d)%N -> (String.length (pretty_N_go x s) <= d + String.length s)%nat.
Proof.
  revert x s. induction d as [|d IH]; intros x s Hx.
  - assert (x = 0%N) as -> by (cbn in Hx; lia). rewrite pretty_N_go_0. lia.
  - destruct (decide (x = 0%N)) as [->|Hx0]; [rewrite pretty_N_go_0; lia|].
    rewrite pretty_N_go_step by lia.
    enough (String.length (pretty_N_go (x / 10) (String (pretty_N_char (x `mod` 10)) s))
              <= d + S (String.length s))%nat by lia.
    apply IH. apply N.div_lt_upper_bound; [lia|].
    rewrite Nat2N.inj_succ, N.pow_succ_r' in Hx. exact Hx.
Qed.

(** The decimal text of [0 <= z < 10^d] has at most [d] characters. *)
Lemma pretty_length (d : nat) (z : Z) :
  (1 <= d)%nat -> 0 <= z < 10 ^ Z.of_nat d -> (String.length (pretty (Z.to_N z)) <= d)%nat.
Proof.
  intros Hd Hz.
  change (pretty (Z.to_N z)) with
    (if decide (Z.to_N z = 0%N) then "0" else pretty_N_go (Z.to_N z) "").
  destruct (decide _); [cbn; lia|].
  rewrite <- (Nat.add_0_r d). apply (pretty_N_go_length d (Z.to_N z) "").
  apply N2Z.inj_lt. rewrite N2Z.inj_pow, Z2N.id, nat_N_Z by lia. lia.
Qed.

Lemma length_zdigits_go (w : nat) (q : Z) (acc : string) :
  String.length (zdigits_go w q acc) = (w + String.length acc)%nat.
Proof.
  revert q acc. induction w as [|w IH]; intros q acc; [done|]. cbn [zdigits_go].
  rewrite IH. cbn. lia.
Qed.

Lemma length_strip_zeros (s : string) : (String.length (strip_zeros s) <= String.length s)%nat.
Proof.
  induction s as [|c s IH]; [done|]. cbn [strip_zeros]. destruct (_ && _); cbn; lia.
Qed.

Lemma length_fraction (k : nat) (q : Z) :
  (String.length (fraction (zdigits k q)) <= k + 1)%nat.
Proof.
  unfold fraction. pose proof (length_strip_zeros (zdigits k q)) as H.
  unfold zdigits in H. rewrite length_zdigits_go in H.
  destruct (strip_zeros _); cbn in *; lia.
Qed.

(** Style [f] with [k] decimals of [q < 10^6]: at most seven characters
    when [k <= 5] ("12345.6"), and ["0."] and [k] digits otherwise. *)
Lemma fixed_length (k : nat) (q : Z) :
  0 <= q < 10 ^ 6 -> (String.length (fixed k q) <= Nat.max 7 (k + 2))%nat.
Proof.
  intros Hq. unfold fixed. rewrite length_append_str.
  pose proof (length_fraction k (q mod 10 ^ Z.of_nat k)).
  pose proof (Z.pow_pos_nonneg 10 (Z.of_nat k)).
  destruct (Nat.le_gt_cases k 5).
  - assert (String.length (pretty (Z.to_N (q / 10 ^ Z.of_nat k))) <= 6 - k)%nat; [|lia].
    apply pretty_length; [lia|]. split; [apply Z.div_pos; lia|].
    apply Z.div_lt_upper_bound; [lia|].
    rewrite <- Z.pow_add_r by lia. replace (Z.of_nat k + Z.of_nat (6 - k)) with 6 by lia. lia.
  - rewrite Z.div_small; [change (pretty (Z.to_N 0)) with "0"%string; cbn [String.length]; lia|]. split; [lia|].
    eapply Z.lt_le_trans; [apply Hq|]. apply Z.pow_le_mono_r; lia.
Qed.

Lemma exponent_text_length (x : Z) :
  Z.abs x < 1000 -> (String.length (exponent_text x) <= 5)%nat.
Proof.
  intros Hx. unfold exponent_text. cbn [String.length]. rewrite length_append_str.
  assert (String.length (if x <? 0 then "-" else "+") = 1%nat) as -> by (by destruct (x <? 0)).
  destruct (Z.ltb_spec (Z.abs x) 10); cbn [String.length].
  - pose proof (pretty_length 1 (Z.abs x) ltac:(lia) ltac:(cbn; lia)). lia.
  - pose proof (pretty_length 3 (Z.abs x) ltac:(lia) ltac:(cbn; lia)). lia.
Qed.

Lemma round_even_bound (num den b : Z) :
  0 <= num -> 0 < den -> num < den * b -> 0 <= round_even num den <= b.
Proof.
  intros Hn Hd Hb. assert (num / den < b) by (apply Z.div_lt_upper_bound; lia).
  assert (0 <= num / den) by (apply Z.div_pos; lia).
  unfold round_even. destruct (Z.compare _ _); [destruct (Z.even _)|..]; lia.
Qed.

(** The digits [q] of [significand] are below [10^6], and its exponent
    is [exp10] or, after a carry, [exp10 + 1]. *)
Lemma significand_bound (num den : Z) :
  1 <= num -> 1 <= den ->
  0 <= (significand num den).1 < 10 ^ 6 /\
  exp10 num den <= (significand num den).2 <= exp10 num den + 1.
Proof.
  intros Hn Hd. destruct (exp10_spec num den Hn Hd) as [_ Hx1].
  unfold significand, precision. set (x := exp10 num den) in *.
  assert (Hq : 0 <= round_even (num * pow10_num (6 - 1 - x)) (den * pow10_den (6 - 1 - x)) <= 10 ^ 6).
  { unfold pow10_num, pow10_den. apply round_even_bound.
    - pose proof (Z.pow_pos_nonneg 10 (Z.max (6 - 1 - x) 0)). lia.
    - pose proof (Z.pow_pos_nonneg 10 (Z.max (- (6 - 1 - x)) 0)). lia.
    - destruct (Z.leb_spec x 5).
      + rewrite (le10_shift _ _ _ (5 - x)) in Hx1 by lia.
        rewrite Z.max_l, Z.max_r, Z.pow_0_r by lia.
        replace (x + 1 + (5 - x)) with 6 in Hx1 by lia.
        replace (6 - 1 - x) with (5 - x) by lia. lia.
      + rewrite (le10_shift _ _ _ 0), Z.add_0_r, Z.pow_0_r in Hx1 by lia.
        rewrite Z.max_r, Z.max_l, Z.pow_0_r by lia.
        rewrite <- Z.mul_assoc, <- Z.pow_add_r by lia.
        replace (- (6 - 1 - x) + 6) with (x + 1) by lia. lia. }
  destruct (Z.eqb_spec (round_even (num * pow10_num (6 - 1 - x)) (den * pow10_den (6 - 1 - x))) (10 ^ 6)); cbn [fst snd]; lia.
Qed.

Lemma digits2_pos_size (m : positive) : SpecFloat.digits2_pos m = Pos.size m.
Proof. induction m as [m IH|m IH|]; cbn; rewrite ?IH; reflexivity. Qed.

(** A finite double: [m < 2^53] and [-1074 <= e <= 971]. *)
Lemma valid_finite_bounds (s : bool) (m : positive) (e : Z) :
  SpecFloat.valid_binary FloatOps.prec FloatOps.emax (SpecFloat.S754_finite s m e) = true ->
  Z.pos m < 2 ^ 53 /\ -1074 <= e <= 971.
Proof.
  unfold SpecFloat.valid_binary, SpecFloat.bounded, SpecFloat.canonical_mantissa,
    SpecFloat.fexp, SpecFloat.emin, FloatOps.prec, FloatOps.emax.
  rewrite digits2_pos_size. intros [He%Z.eqb_eq Hle%Z.leb_le]%andb_true_iff.
  pose proof (Pos.size_gt m) as Hs. change (Z.pos m < Z.pos (2 ^ Pos.size m)) in Hs. rewrite Pos2Z.inj_pow in Hs.
  split; [|lia]. eapply Z.lt_le_trans; [exact Hs|]. apply Z.pow_le_mono_r; lia.
Qed.

(** The decimal exponent of a finite double lies in [-324, 308]. *)
Lemma exp10_range (s : bool) (m : positive) (e : Z) :
  SpecFloat.valid_binary FloatOps.prec FloatOps.emax (SpecFloat.S754_finite s m e) = true ->
  -324 <= exp10 (Z.pos m * 2 ^ Z.max e 0) (2 ^ Z.max (- e) 0) <= 308.
Proof.
  intros Hv. destruct (valid_finite_bounds s m e Hv) as [Hm He].
  set (num := Z.pos m * 2 ^ Z.max e 0). set (den := 2 ^ Z.max (- e) 0).
  assert (Hnum : 1 <= num < 2 ^ 1024).
  { unfold num. pose proof (Z.pow_pos_nonneg 2 (Z.max e 0)).
    pose proof (Z.pow_le_mono_r 2 (Z.max e 0) 971 ltac:(lia) ltac:(lia)).
    replace (2 ^ 1024) with (2 ^ 53 * 2 ^ 971) by reflexivity. nia. }
  assert (Hden : 1 <= den <= 2 ^ 1074).
  { unfold den. pose proof (Z.pow_pos_nonneg 2 (Z.max (- e) 0)).
    pose proof (Z.pow_le_mono_r 2 (Z.max (- e) 0) 1074 ltac:(lia) ltac:(lia)). lia. }
  assert (H1 : 2 ^ 1024 < 10 ^ 309) by reflexivity.
  assert (H2 : 2 ^ 1074 < 10 ^ 324) by reflexivity.
  destruct (exp10_spec num den ltac:(lia) ltac:(lia)) as [Hx Hx1].
  split; apply Z.nlt_ge; intros Hlt.
  - apply Hx1. apply (le10_mono _ _ (-324)); [lia|lia|].
    rewrite (le10_shift _ _ _ 324) by lia. cbn [Z.add]. rewrite Z.pow_0_r. nia.
  - assert (Hl : le10 num den 309) by (apply (le10_mono _ _ (exp10 num den)); [lia|lia|exact Hx]).
    rewrite (le10_shift _ _ _ 0), Z.add_0_r, Z.pow_0_r in Hl by lia. nia.
Qed.

(** C28. [std::cout << v] writes at most 13 characters for every double:
    ["-1.23457e-308"] is the longest form, a sign, six digits, the point
    and an exponent of at most three digits; style [f] never needs more
    than ["-0.000123457"]. *)
Theorem show_g_length (v : float) : (String.length (show_g v) <= 13)%nat.
Proof.
  unfold show_g. pose proof (FloatAxioms.Prim2SF_valid v) as Hv.
  destruct (FloatOps.Prim2SF v) as [[]|[]| |s m e]; try (cbn; lia).
  rewrite length_append_str.
  assert (String.length (if s then "-" else "") <= 1)%nat by (destruct s; cbn; lia).
  pose proof (exp10_range s m e Hv) as Hr.
  set (num := Z.pos m * 2 ^ Z.max e 0) in *. set (den := 2 ^ Z.max (- e) 0) in *.
  assert (1 <= num) by (unfold num; pose proof (Z.pow_pos_nonneg 2 (Z.max e 0)); lia).
  assert (1 <= den) by (unfold den; pose proof (Z.pow_pos_nonneg 2 (Z.max (- e) 0)); lia).
  destruct (significand_bound num den) as [Hq Hx]; [lia|lia|].
  enough (String.length (show_g_finite num den) <= 12)%nat by lia.
  unfold show_g_finite. destruct (significand num den) as [q x]. cbn [fst snd] in Hq, Hx.
  unfold precision. destruct (Z.leb_spec (-4) x), (Z.ltb_spec x 6); cbn [andb].
  - pose proof (fixed_length (Z.to_nat (6 - 1 - x)) q Hq). lia.
  - rewrite length_append_str. pose proof (fixed_length (Z.to_nat (6 - 1)) q Hq).
    pose proof (exponent_text_length x ltac:(lia)). cbn in *. lia.
  - rewrite length_append_str. pose proof (fixed_length (Z.to_nat (6 - 1)) q Hq).
    pose proof (exponent_text_length x ltac:(lia)). cbn in *. lia.
  - rewrite length_append_str. pose proof (fixed_length (Z.to_nat (6 - 1)) q Hq).
    pose proof (exponent_text_length x ltac:(lia)). cbn in *. lia.
Qed.
