(* ===== verification/Stod.v ===== *)
(** * Stod: [std::stod], the number parser [getNumber] calls

    [std::stod(s)] calls [strtod(s.c_str(), &end)]: it throws
    [std::invalid_argument] when no prefix of [s] is a number
    ([end == s]) and [std::out_of_range] when [strtod] sets [errno] to
    [ERANGE]; otherwise it returns the value of the longest prefix that
    is a number, whatever follows it.  This file models [strtod] in the C
    locale after the C standard (7.22.1.3): leading whitespace, an
    optional sign, then [INF], [INFINITY], [NAN] or [NAN(...)] in any
    case, a hexadecimal floating constant [0x...p...], or a decimal one
    with an optional exponent.  The decimal value is rounded to the
    nearest binary64 number, ties to even, with the rounding of Rocq's
    [SpecFloat] (the one primitive floats are specified by); [ERANGE] is
    set on overflow and when the result underflows inexactly.  The sign
    of a NaN is not modelled.  The theorems: a token of digits followed
    by a character that cannot continue a number is read as its digits;
    on the integer literals [integer_stod] accepts this [std::stod]
    returns the same double ([binary_round] of an integer below 2^53
    only shifts it to 53 bits); every token starting with [INF] or
    [NAN], in any case, reads as infinity or NaN, so [getNumber] puts
    them on the stack. *)

From Stdlib Require Import Ascii String Floats ZArith.
From stdpp Require Import base list strings.
From S2P Require Import Prelude Values Tables Machine Executor Run Loader Render Format.

Local Open Scope Z_scope.

(** ** Lexing *)

Definition dec_digit (c : ascii) : option Z :=
  let n := nat_of_ascii c in
  if (48 <=? n)%nat && (n <=? 57)%nat then Some (Z.of_nat (n - 48)) else None.

Definition hex_digit (c : ascii) : option Z :=
  let n := nat_of_ascii c in
  if (48 <=? n)%nat && (n <=? 57)%nat then Some (Z.of_nat (n - 48))
  else if (65 <=? n)%nat && (n <=? 70)%nat then Some (Z.of_nat (n - 55))
  else if (97 <=? n)%nat && (n <=? 102)%nat then Some (Z.of_nat (n - 87))
  else None.

(** The longest run of digits in base [b] at the front of [s]: its
    value, accumulated onto [acc], its length, and the rest. *)
Fixpoint digit_run (digit : ascii -> option Z) (b acc : Z) (s : string) : Z * nat * string :=
  match s with
  | String c s' =>
      match digit c with
      | Some d => let '(v, n, r) := digit_run digit b (acc * b + d) s' in (v, S n, r)
      | None => (acc, 0%nat, s)
      end
  | EmptyString => (acc, 0%nat, s)
  end.

(** [s] starts with [pat] (upper case) in any case: the rest. *)
Fixpoint ci_prefix (pat s : string) : option string :=
  match pat, s with
  | EmptyString, _ => Some s
  | String p pat', String c s' =>
      let n := nat_of_ascii c in
      let c' := if (97 <=? n)%nat && (n <=? 122)%nat then ascii_of_nat (n - 32) else c in
      if Ascii.eqb p c' then ci_prefix pat' s' else None
  | String _ _, EmptyString => None
  end.

Fixpoint skip_space (s : string) : string :=
  match s with
  | String c s' => if is_space c then skip_space s' else s
  | EmptyString => s
  end.

(** An optional sign: [true] for minus. *)
Definition sign (s : string) : bool * string :=
  match s with
  | String "-" s' => (true, s')
  | String "+" s' => (false, s')
  | _ => (false, s)
  end.

(** An exponent part [e[sign]digits] (or [p...]): consumed only when at
    least one digit follows. *)
Definition exponent (marker : string) (s : string) : Z * string :=
  match ci_prefix marker s with
  | Some s1 =>
      let (neg, s2) := sign s1 in
      let '(v, n, s3) := digit_run dec_digit 10 0 s2 in
      if (n =? 0)%nat then (0, s) else (if neg then - v else v, s3)
  | None => (0, s)
  end.

(** What the number part of a literal denotes. *)
Inductive literal : Type :=
| LInf
| LNaN
| LDec (m : Z) (e10 : Z)     (** [m * 10^e10] *)
| LHex (m : Z) (e2 : Z).     (** [m * 2^e2] *)

(** A decimal constant: digits, an optional point and digits (at least
    one digit in all), an optional exponent. *)
Definition decimal (s : string) : option (literal * string) :=
  let '(m1, n1, r1) := digit_run dec_digit 10 0 s in
  let '(m, n2, r2) :=
    match r1 with
    | String "." r => digit_run dec_digit 10 m1 r
    | _ => (m1, 0%nat, r1)
    end in
  if (n1 + n2 =? 0)%nat then None
  else
    let r2' := match r1 with String "." _ => r2 | _ => r1 end in
    let (e, r3) := exponent "E" r2' in
    Some (LDec m (e - Z.of_nat n2), r3).

(** A hexadecimal constant after [0x]: hex digits, an optional point and
    hex digits (at least one in all), an optional binary exponent. *)
Definition hexadecimal (s : string) : option (literal * string) :=
  let '(m1, n1, r1) := digit_run hex_digit 16 0 s in
  let '(m, n2, r2) :=
    match r1 with
    | String "." r => digit_run hex_digit 16 m1 r
    | _ => (m1, 0%nat, r1)
    end in
  if (n1 + n2 =? 0)%nat then None
  else
    let r2' := match r1 with String "." _ => r2 | _ => r1 end in
    let (e, r3) := exponent "P" r2' in
    Some (LHex m (e - 4 * Z.of_nat n2), r3).

(** [NAN] optionally followed by [(n-char-sequence)]. *)
Fixpoint nchars (s : string) : option string :=
  match s with
  | String ")" s' => Some s'
  | String c s' =>
      let n := nat_of_ascii c in
      if (48 <=? n)%nat && (n <=? 57)%nat || (65 <=? n)%nat && (n <=? 90)%nat ||
         (97 <=? n)%nat && (n <=? 122)%nat || (n =? 95)%nat
      then nchars s' else None
  | EmptyString => None
  end.

(** The number part, after the sign: its literal and the rest. *)
Definition number (s : string) : option (literal * string) :=
  match ci_prefix "INFINITY" s, ci_prefix "INF" s, ci_prefix "NAN" s with
  | Some r, _, _ => Some (LInf, r)
  | None, Some r, _ => Some (LInf, r)
  | None, None, Some r =>
      Some (LNaN, match r with String "(" r' => default r (nchars r') | _ => r end)
  | None, None, None =>
      match ci_prefix "0X" s with
      | Some r =>
          match hexadecimal r with
          | Some res => Some res
          | None => decimal s
          end
      | None => decimal s
      end
  end.

(** ** Rounding to binary64 *)

Definition prec : Z := 53.
Definition emax : Z := 1024.

(** The number of binary digits of [m]. *)
Definition bits (m : positive) : Z := Zpos (SpecFloat.digits2_pos m).

(** [m * 2^e] (with [m > 0]) rounded to nearest, ties to even, with the
    sign [neg].  The bounds keep the computation small and change
    nothing: a value of at least [2^1024] overflows, one below
    [2^-1076] rounds to zero. *)
Definition round_binary (neg : bool) (m : positive) (e : Z) : spec_float :=
  if 1024 <? bits m + e then S754_infinity neg
  else if bits m + e <? -1075 then S754_zero neg
  else SpecFloat.binary_normalize prec emax (if neg then Zneg m else Zpos m) e neg.

(** [m * 10^e] (with [m > 0]) rounded likewise.  With [e > 309] the
    value is at least [10^310] and overflows; with [10^(-e) >= 8^(-e) >=
    2^(bits m + 1076)] it is below [2^-1076] and rounds to zero. *)
Definition round_decimal (neg : bool) (m : positive) (e : Z) : spec_float :=
  if 0 <=? e then
    if 309 <? e then S754_infinity neg
    else SpecFloat.binary_normalize prec emax ((if neg then Z.opp else id) (Zpos m * 10 ^ e)) 0 neg
  else if bits m + 1076 <=? 3 * (- e) then S754_zero neg
  else
    let '(q, e', loc) := SpecFloat.SFdiv_core_binary prec emax (Zpos m) 0 (10 ^ (- e)) 0 in
    SpecFloat.binary_round_aux prec emax neg q e' loc.

(** ** [ERANGE] *)

(** The result [rm * 2^re] is below the smallest normal number. *)
Definition tiny (rm : positive) (re : Z) : bool := bits rm + re <=? -1022.

(** [rm * 2^re = m * 10^e] and [rm * 2^re = m * 2^e]. *)
Definition exact_dec (m : positive) (e : Z) (rm : positive) (re : Z) : bool :=
  Zpos rm * 2 ^ Z.max re 0 * 10 ^ Z.max (- e) 0 =? Zpos m * 10 ^ Z.max e 0 * 2 ^ Z.max (- re) 0.

Definition exact_bin (m : positive) (e : Z) (rm : positive) (re : Z) : bool :=
  Zpos rm * 2 ^ (re - Z.min re e) =? Zpos m * 2 ^ (e - Z.min re e).

(** [strtod] sets [ERANGE] when a non-zero value overflows to infinity
    or underflows inexactly (to a subnormal number or to zero). *)
Definition erange (exact : positive -> Z -> bool) (r : spec_float) : bool :=
  match r with
  | S754_infinity _ | S754_zero _ => true
  | S754_finite _ rm re => tiny rm re && negb (exact rm re)
  | S754_nan => false
  end.

(** ** [strtod] and [std::stod] *)

Inductive strtod_result : Type :=
| NoConversion                                        (** [end == s] *)
| Converted (v : float) (erange : bool) (rest : string).

(** The value of a literal with its sign, and whether [ERANGE] is set. *)
Definition convert (neg : bool) (lit : literal) : spec_float * bool :=
  match lit with
  | LInf => (S754_infinity neg, false)
  | LNaN => (S754_nan, false)
  | LDec (Zpos m) e => let r := round_decimal neg m e in (r, erange (exact_dec m e) r)
  | LHex (Zpos m) e => let r := round_binary neg m e in (r, erange (exact_bin m e) r)
  | LDec _ _ | LHex _ _ => (S754_zero neg, false)
  end.

Definition strtod (s : string) : strtod_result :=
  let (neg, s2) := sign (skip_space s) in
  match number s2 with
  | None => NoConversion
  | Some (lit, rest) => let (v, er) := convert neg lit in Converted (FloatOps.SF2Prim v) er rest
  end.

(** [std::stod]: the value, or [None] when it throws. *)
Definition stod (s : string) : option float :=
  match strtod s with
  | Converted v false _ => Some v
  | _ => None
  end.

(** The C library with this [std::stod]; the transcendental functions
    are not modelled (NaN), no theorem that uses this instance calls
    them. *)
Definition strtod_cmath : CMath := {|
  c_pow := fun _ _ => PrimFloat.nan;
  c_log10 := fun _ => PrimFloat.nan;
  c_log := fun _ => PrimFloat.nan;
  c_exp := fun _ => PrimFloat.nan;
  c_stod := stod
|}.

(** [c] is a decimal digit. *)
Definition is_digit (c : ascii) : bool := match dec_digit c with Some _ => true | None => false end.

(** A string of decimal digits. *)
Fixpoint digits_only (s : string) : bool :=
  match s with
  | EmptyString => true
  | String c s' => is_digit c && digits_only s'
  end.

(** The characters that can continue a decimal number after its digits. *)
Definition continues_number (c : ascii) : bool :=
  is_digit c || Ascii.eqb c "." || Ascii.eqb c "E" || Ascii.eqb c "e" ||
  Ascii.eqb c "X" || Ascii.eqb c "x".

Definition stops_number (rest : string) : bool :=
  match rest with
  | EmptyString => true
  | String c _ => negb (continues_number c)
  end.

(** ** The numeric prefix *)

Lemma digit_run_app (acc : Z) (d rest : string) :
  digits_only d = true -> stops_number rest = true ->
  digit_run dec_digit 10 acc (String.append d rest) =
    ((digit_run dec_digit 10 acc d).1.1, String.length d, rest) /\
  (digit_run dec_digit 10 acc d).2 = EmptyString /\
  (digit_run dec_digit 10 acc d).1.2 = String.length d.
Proof.
  revert acc. induction d as [|c d IH]; intros acc Hd Hr.
  - rewrite append_empty_l. cbn. split_and!; [|done|done].
    destruct rest as [|c rest]; [done|]. unfold stops_number, continues_number, is_digit in Hr.
    cbn. destruct (dec_digit c); [|done]. discriminate Hr.
  - rewrite append_String. cbn in Hd |- *. apply andb_true_iff in Hd as [Hc Hd].
    unfold is_digit in Hc. destruct (dec_digit c) as [x|]; [|done].
    destruct (IH (acc * 10 + x) Hd Hr) as (E1 & E2 & E3). rewrite E1.
    destruct (digit_run dec_digit 10 (acc * 10 + x) d) as [[v n] r]. cbn in *. by subst.
Qed.

(** The first character of a number made of digits is no letter of
    [INFINITY], [INF], [NAN] (checked on the 256 bytes). *)
Lemma digit_not_special (c : ascii) (r : string) :
  is_digit c = true ->
  ci_prefix "INFINITY" (String c r) = None /\ ci_prefix "INF" (String c r) = None /\
  ci_prefix "NAN" (String c r) = None.
Proof.
  intros H. destruct c as [[] [] [] [] [] [] [] []]; vm_compute in H;
    solve [discriminate H | split_and!; reflexivity].
Qed.

(** After a digit, a character that stops the number is no [X]. *)
Lemma digit_not_hex (c : ascii) (d rest : string) :
  is_digit c = true -> digits_only d = true -> stops_number rest = true ->
  ci_prefix "0X" (String c (String.append d rest)) = None.
Proof.
  intros Hc Hd Hr. destruct d as [|c' d].
  - rewrite append_empty_l. destruct rest as [|c' rest].
    + destruct c as [[] [] [] [] [] [] [] []]; reflexivity.
    + cbn in Hr. destruct c as [[] [] [] [] [] [] [] []]; vm_compute in Hc; try discriminate Hc;
        try reflexivity;
        destruct c' as [[] [] [] [] [] [] [] []]; vm_compute in Hr; solve [discriminate Hr | reflexivity].
  - rewrite append_String. cbn in Hd. apply andb_true_iff in Hd as [Hc' _].
    destruct c as [[] [] [] [] [] [] [] []]; vm_compute in Hc; try discriminate Hc; try reflexivity;
      destruct c' as [[] [] [] [] [] [] [] []]; vm_compute in Hc'; solve [discriminate Hc' | reflexivity].
Qed.

(** A digit is neither whitespace nor a sign (checked on the 256 bytes). *)
Lemma digit_start (c : ascii) (r : string) :
  is_digit c = true -> skip_space (String c r) = String c r /\ sign (String c r) = (false, String c r).
Proof.
  intros H. destruct c as [[] [] [] [] [] [] [] []]; vm_compute in H;
    solve [discriminate H | split; reflexivity].
Qed.

Lemma decimal_digits_prefix (d rest : string) :
  d <> EmptyString -> digits_only d = true -> stops_number rest = true ->
  decimal (String.append d rest) = Some (LDec (digit_run dec_digit 10 0 d).1.1 0, rest) /\
  decimal d = Some (LDec (digit_run dec_digit 10 0 d).1.1 0, EmptyString).
Proof.
  intros Hne Hd Hr.
  destruct (digit_run_app 0 d rest Hd Hr) as (E1 & E2 & E3).
  destruct (digit_run_app 0 d EmptyString Hd eq_refl) as (F1 & _ & _).
  rewrite append_empty_r in F1. unfold decimal. rewrite E1, F1.
  destruct (digit_run dec_digit 10 0 d) as [[v n] r]. cbn [fst snd] in *.
  assert (Hl : (String.length d + 0 =? 0)%nat = false) by (destruct d; done).
  split; [|cbn; rewrite Hl; reflexivity].
  destruct rest as [|c rest]; [cbn; rewrite Hl; reflexivity|].
  destruct c as [[] [] [] [] [] [] [] []]; vm_compute in Hr;
    solve [discriminate Hr | cbn; rewrite Hl; reflexivity].
Qed.

Lemma number_digits_prefix (d rest : string) :
  d <> EmptyString -> digits_only d = true -> stops_number rest = true ->
  number (String.append d rest) = Some (LDec (digit_run dec_digit 10 0 d).1.1 0, rest) /\
  number d = Some (LDec (digit_run dec_digit 10 0 d).1.1 0, EmptyString).
Proof.
  intros Hne Hd Hr. destruct (decimal_digits_prefix d rest Hne Hd Hr) as [D1 D2].
  destruct d as [|c d']; [done|]. cbn in Hd. apply andb_true_iff in Hd as [Hc Hd'].
  rewrite append_String in D1 |- *. unfold number.
  destruct (digit_not_special c (String.append d' rest) Hc) as (-> & -> & ->).
  destruct (digit_not_special c d' Hc) as (-> & -> & ->).
  rewrite (digit_not_hex c d' rest Hc Hd' Hr).
  rewrite <- (append_empty_r d'), (digit_not_hex c d' EmptyString Hc Hd' eq_refl), append_empty_r.
  split; assumption.
Qed.

(** [std::stod] reads the longest numeric prefix: a token made of decimal
    digits followed by anything that cannot continue the number is read
    as the digits alone. *)
Lemma stod_digits_prefix (d rest : string) :
  d <> EmptyString -> digits_only d = true -> stops_number rest = true ->
  stod (String.append d rest) = stod d.
Proof.
  intros Hne Hd Hr. destruct (number_digits_prefix d rest Hne Hd Hr) as [N1 N2].
  destruct d as [|c d']; [done|]. cbn in Hd. apply andb_true_iff in Hd as [Hc _].
  unfold stod, strtod. rewrite append_String in N1 |- *.
  destruct (digit_start c (String.append d' rest) Hc) as [-> ->].
  destruct (digit_start c d' Hc) as [-> ->]. rewrite N1, N2.
  by destruct (convert false _).
Qed.

(** C29. [getNumber] accepts a numeric prefix (the specification says an
    unparsable literal is fatal): with [std::stod] as the C library has
    it, a token made of decimal digits followed by a character that
    cannot continue a number (["12ABC"], ["7,5"]) is read as the digits
    alone, with no diagnostic; the rest of the token is ignored. *)
Theorem getNumber_numeric_prefix (st : VM) (d rest : string) :
  code st !! fetch_pos st = Some (String.append d rest) ->
  d <> EmptyString -> digits_only d = true -> stops_number rest = true ->
  @getNumber strtod_cmath st =
    match stod d with
    | Some v => (Ok v, advance st)
    | None => (Exit, failed (NumberIncorrect (String.append d rest)) (advance st))
    end.
Proof.
  intros Htok Hne Hd Hr. pose proof (stod_digits_prefix d rest Hne Hd Hr) as E.
  destruct (stod d) as [v|] eqn:Hv.
  - exact (@getNumber_ok strtod_cmath st _ v Htok E).
  - exact (@getNumber_bad strtod_cmath st _ Htok E).
Qed.

Lemma getNumber_numeric_prefix_witness :
  stops_number "ABC" = true /\
  @getNumber strtod_cmath (mkVM ["PSH"; "12ABC"] 0 [] (initial []).(registers) true 1 []) =
    (Ok 12%float, advance (mkVM ["PSH"; "12ABC"] 0 [] (initial []).(registers) true 1 [])).
Proof.
  split; [reflexivity|].
  rewrite (getNumber_numeric_prefix (mkVM ["PSH"; "12ABC"] 0 [] (initial []).(registers) true 1 [])
             "12" "ABC" eq_refl ltac:(discriminate) eq_refl eq_refl).
  vm_compute. reflexivity.
Defined.

(** ** Integers below 2^53 are read exactly *)

Lemma digits2_pos_iter_xO (m k : positive) :
  SpecFloat.digits2_pos (Pos.iter xO m k) = (SpecFloat.digits2_pos m + k)%positive.
Proof.
  induction k as [|k IH] using Pos.peano_ind.
  - cbn. by rewrite Pos.add_1_r.
  - rewrite Pos.iter_succ. cbn [SpecFloat.digits2_pos]. rewrite IH. lia.
Qed.

(** [binary_round] of a positive integer below 2^53: the mantissa is
    shifted left to 53 bits, nothing is rounded off. *)
Lemma binary_round_small (sx : bool) (m : positive) :
  Zpos m < 2 ^ 53 ->
  exists mz, SpecFloat.binary_round prec emax sx m 0 =
               S754_finite sx mz (bits m - 53) /\ bits mz = 53.
Proof.
  intros Hm. unfold bits in *.
  assert (Hd : 1 <= Zpos (SpecFloat.digits2_pos m) <= 53).
  { split; [lia|]. pose proof (Pos.size_le m) as Hs. rewrite <- digits2_pos_size in Hs.
    destruct (Z.le_gt_cases (Zpos (SpecFloat.digits2_pos m)) 53) as [|Hgt]; [done|].
    exfalso. change (Zpos (2 ^ SpecFloat.digits2_pos m) <= Zpos m~0) in Hs.
    rewrite Pos2Z.inj_pow, (Pos2Z.inj_xO m) in Hs.
    pose proof (Z.pow_le_mono_r 2 54 (Zpos (SpecFloat.digits2_pos m)) ltac:(lia) ltac:(lia)).
    replace (2 ^ 54) with (2 * 2 ^ 53) in H by reflexivity. lia. }
  set (d := SpecFloat.digits2_pos m) in *.
  assert (Hf : SpecFloat.fexp prec emax (Zpos d + 0) = Zpos d - 53)
    by (unfold SpecFloat.fexp, SpecFloat.emin, prec, emax; lia).
  unfold SpecFloat.binary_round. fold d. rewrite Hf. unfold SpecFloat.shl_align.
  destruct (Zpos d - 53 - 0) as [|p|p] eqn:Hp; [| lia |].
  - exists m. split; [|fold d; lia].
    unfold SpecFloat.binary_round_aux, SpecFloat.shr_fexp. cbn [SpecFloat.Zdigits2]. fold d.
    replace (SpecFloat.fexp prec emax (Zpos d + 0) - 0) with 0 by (rewrite Hf; lia).
    cbn. unfold SpecFloat.shr_fexp. cbn [SpecFloat.Zdigits2]. fold d.
    replace (SpecFloat.fexp prec emax (Zpos d + 0) - 0) with 0 by (rewrite Hf; lia).
    cbn. replace (0 <=? emax - prec) with true by reflexivity. f_equal. lia.
  - exists (Pos.iter xO m p). rewrite digits2_pos_iter_xO. fold d.
    assert (Hdz : Zpos (d + p) = 53) by lia.
    split; [|exact Hdz].
    assert (Hz : SpecFloat.fexp prec emax (Zpos (d + p) + (Zpos d - 53)) - (Zpos d - 53) = 0)
      by (unfold SpecFloat.fexp, SpecFloat.emin, prec, emax; lia).
    unfold SpecFloat.binary_round_aux, SpecFloat.shr_fexp. cbn [SpecFloat.Zdigits2].
    rewrite digits2_pos_iter_xO. fold d. rewrite Hz.
    cbn [SpecFloat.shr SpecFloat.shr_record_of_loc SpecFloat.shr_m
         SpecFloat.loc_of_shr_record SpecFloat.round_nearest_even SpecFloat.Zdigits2].
    rewrite digits2_pos_iter_xO. fold d. rewrite Hz. cbn [SpecFloat.shr SpecFloat.shr_m].
    replace (Zpos d - 53 <=? emax - prec) with true by (unfold emax, prec; lia).
    reflexivity.
Qed.

Lemma binary_round_opp (m : positive) (e : Z) :
  SpecFloat.SFopp (SpecFloat.binary_round prec emax false m e) =
    SpecFloat.binary_round prec emax true m e.
Proof.
  unfold SpecFloat.binary_round, SpecFloat.binary_round_aux.
  destruct (SpecFloat.shl_align _ _ _) as [mz ez].
  destruct (SpecFloat.shr_fexp _ _ _ _ _) as [mrs e'].
  destruct (SpecFloat.shr_fexp _ _ _ _ _) as [mrs' e''].
  destruct (SpecFloat.shr_m mrs') as [|p|p]; [reflexivity| |reflexivity].
  by destruct (e'' <=? _).
Qed.

(** The value [digits_value] reads is the one [digit_run] reads. *)
Lemma digits_value_run (acc z : Z) (s : string) :
  digits_value acc s = Some z ->
  digits_only s = true /\ z = (digit_run dec_digit 10 acc s).1.1.
Proof.
  revert acc. induction s as [|c s IH]; intros acc H; cbn in H.
  - injection H as <-. done.
  - change (digit_value c) with (dec_digit c) in H. cbn [digits_only digit_run].
    unfold is_digit. destruct (dec_digit c) as [d|]; [|discriminate].
    destruct (IH _ H) as [Hs ->]. split; [exact Hs|].
    by destruct (digit_run dec_digit 10 (acc * 10 + d) s) as [[v n] r].
Qed.

Lemma digits_value_nonneg (acc z : Z) (s : string) :
  0 <= acc -> digits_value acc s = Some z -> 0 <= z.
Proof.
  revert acc. induction s as [|c s IH]; intros acc Ha H; cbn in H; [by injection H as <-|].
  unfold digit_value in H. destruct (_ && _); [|discriminate]. eapply IH; [|exact H]; lia.
Qed.

Lemma of_uint63_small (z : Z) :
  0 <= z < 2 ^ 53 ->
  FloatOps.Prim2SF (PrimFloat.of_uint63 (Uint63.of_Z z)) =
    SpecFloat.binary_normalize prec emax z 0 false.
Proof.
  intros Hz. rewrite FloatAxioms.of_uint63_spec, Uint63.of_Z_spec, Z.mod_small; [reflexivity|].
  unfold Uint63.wB, Uint63.size. cbn. lia.
Qed.

(** [round_decimal] of an integer below 2^53: the correctly rounded
    (here exact) double, and no [ERANGE]. *)
Lemma convert_small (neg : bool) (m : positive) :
  Zpos m < 2 ^ 53 ->
  convert neg (LDec (Zpos m) 0) =
    (FloatOps.Prim2SF ((if neg then PrimFloat.opp else id)
                         (PrimFloat.of_uint63 (Uint63.of_Z (Zpos m)))), false).
Proof.
  intros Hm.
  assert (Hrd : round_decimal neg m 0 = SpecFloat.binary_round prec emax neg m 0)
    by (unfold round_decimal; replace (Zpos m * 10 ^ 0) with (Zpos m) by lia; by destruct neg).
  unfold convert. rewrite Hrd. destruct (binary_round_small neg m Hm) as (mz & Hr & Hb).
  destruct neg; cbn [id].
  - rewrite FloatAxioms.opp_spec, of_uint63_small by lia. cbn [SpecFloat.binary_normalize].
    rewrite binary_round_opp, Hr. unfold erange, tiny. rewrite Hb.
    replace (53 + (bits m - 53) <=? -1022) with false by (symmetry; apply Z.leb_gt; unfold bits; lia). done.
  - rewrite of_uint63_small by lia. cbn [SpecFloat.binary_normalize].
    rewrite Hr. unfold erange, tiny. rewrite Hb.
    replace (53 + (bits m - 53) <=? -1022) with false by (symmetry; apply Z.leb_gt; unfold bits; lia). done.
Qed.

(** [integer_stod] by cases on the sign character. *)
Lemma integer_stod_sign (s : string) :
  integer_stod s =
    match s with
    | String c r =>
        if Ascii.eqb c "-" then option_map PrimFloat.opp (z ← unsigned_value r; float_of_nat_Z z)
        else if Ascii.eqb c "+" then z ← unsigned_value r; float_of_nat_Z z
        else z ← unsigned_value s; float_of_nat_Z z
    | EmptyString => None
    end.
Proof.
  destruct s as [|[[] [] [] [] [] [] [] []] r]; try reflexivity;
    cbn [integer_stod Ascii.eqb Bool.eqb andb]; by destruct (unsigned_value _).
Qed.

(** After the sign, a token [integer_stod] accepts is a decimal integer
    literal that [strtod] converts exactly. *)
Lemma strtod_unsigned (neg : bool) (r : string) (z : Z) (f : float) :
  unsigned_value r = Some z -> float_of_nat_Z z = Some f ->
  number r = Some (LDec z 0, EmptyString) /\
  convert neg (LDec z 0) = (FloatOps.Prim2SF ((if neg then PrimFloat.opp else id) f), false).
Proof.
  intros Hr Hf. unfold float_of_nat_Z in Hf. destruct (Z.ltb_spec z (2 ^ 53)); [|discriminate].
  injection Hf as <-. destruct r as [|c r']; [discriminate|].
  pose proof (digits_value_nonneg 0 z _ ltac:(lia) Hr) as Hz0.
  destruct (digits_value_run 0 z _ Hr) as [Hd Hv].
  split.
  - rewrite Hv. by destruct (number_digits_prefix (String c r') EmptyString ltac:(discriminate) Hd eq_refl).
  - destruct z as [|m|m]; [|by apply convert_small|lia].
    by destruct neg; vm_compute.
Qed.

(** C12. [std::stod] of C refines the reader [integer_stod] the witnesses
    run with: on every token [integer_stod] accepts (an optional sign and
    decimal digits of value below 2^53), [strtod] reads the whole token,
    rounds exactly and does not set [ERANGE], so [std::stod] returns the
    same double. *)
Theorem stod_extends_integer_stod (s : string) (v : float) :
  integer_stod s = Some v -> stod s = Some v.
Proof.
  rewrite integer_stod_sign. destruct s as [|c r]; [discriminate|].
  unfold stod, strtod.
  destruct (Ascii.eqb_spec c "-") as [->|Hm]; [|destruct (Ascii.eqb_spec c "+") as [->|Hp]].
  - destruct (unsigned_value r) as [z|] eqn:Hr; [|discriminate]. cbn [mbind option_bind].
    destruct (float_of_nat_Z z) as [f|] eqn:Hf; [|discriminate]. intros [= <-].
    replace (sign (skip_space (String "-" r))) with (true, r) by reflexivity.
    destruct (strtod_unsigned true r z f Hr Hf) as [-> ->]. cbn.
    by rewrite FloatAxioms.SF2Prim_Prim2SF.
  - destruct (unsigned_value r) as [z|] eqn:Hr; [|discriminate]. cbn [mbind option_bind].
    destruct (float_of_nat_Z z) as [f|] eqn:Hf; [|discriminate]. intros [= <-].
    replace (sign (skip_space (String "+" r))) with (false, r) by reflexivity.
    destruct (strtod_unsigned false r z f Hr Hf) as [-> ->]. cbn.
    by rewrite FloatAxioms.SF2Prim_Prim2SF.
  - destruct (unsigned_value (String c r)) as [z|] eqn:Hr; [|discriminate]. cbn [mbind option_bind].
    destruct (float_of_nat_Z z) as [f|] eqn:Hf; [|discriminate]. intros Hv.
    destruct (digits_value_run 0 z _ Hr) as [Hd _]. cbn in Hd. apply andb_true_iff in Hd as [Hc _].
    destruct (digit_start c r Hc) as [-> ->].
    destruct (strtod_unsigned false (String c r) z f Hr Hf) as [-> ->]. cbn.
    rewrite FloatAxioms.SF2Prim_Prim2SF. by injection Hv as ->.
Qed.

Lemma stod_extends_integer_stod_witness :
  integer_stod "-4096" = Some (-4096)%float /\ stod "-4096" = Some (-4096)%float.
Proof.
  split; [vm_compute; reflexivity|].
  apply stod_extends_integer_stod. vm_compute. reflexivity.
Defined.

(** ** Infinity and NaN *)

(** The first character of [INF...] and of [NAN...], in either case. *)
Lemma ci_INF_first (c : ascii) (t : string) :
  ci_prefix "INF" (String c t) <> None -> c = "I"%char \/ c = "i"%char.
Proof.
  intros H. destruct c as [[] [] [] [] [] [] [] []];
    solve [left; reflexivity | right; reflexivity | exfalso; apply H; reflexivity].
Qed.

Lemma ci_NAN_first (c : ascii) (t : string) :
  ci_prefix "NAN" (String c t) <> None -> c = "N"%char \/ c = "n"%char.
Proof.
  intros H. destruct c as [[] [] [] [] [] [] [] []];
    solve [left; reflexivity | right; reflexivity | exfalso; apply H; reflexivity].
Qed.

Lemma SF2Prim_inf : FloatOps.SF2Prim (S754_infinity false) = PrimFloat.infinity.
Proof. vm_compute. reflexivity. Qed.

Lemma SF2Prim_nan : FloatOps.SF2Prim S754_nan = PrimFloat.nan.
Proof. vm_compute. reflexivity. Qed.

(** [strtod] reads [INF], [INFINITY] and [NAN] in any case, whatever
    follows them. *)
Lemma stod_inf_nan (t : string) :
  (ci_prefix "INF" t <> None -> stod t = Some PrimFloat.infinity) /\
  (ci_prefix "NAN" t <> None -> stod t = Some PrimFloat.nan).
Proof.
  destruct t as [|c t']; [split; intros H; by contradiction H|].
  unfold stod, strtod. split; intros H.
  - destruct (ci_INF_first c t' H) as [->| ->].
    + change (ci_prefix "INF" (String "I" t')) with (ci_prefix "NF" t') in H.
      change (sign (skip_space (String "I" t'))) with (false, String "I" t'). unfold number.
      change (ci_prefix "INFINITY" (String "I" t')) with (ci_prefix "NFINITY" t').
      change (ci_prefix "INF" (String "I" t')) with (ci_prefix "NF" t').
      destruct (ci_prefix "NFINITY" t'); [|destruct (ci_prefix "NF" t'); [|congruence]];
        cbn [convert]; by rewrite SF2Prim_inf.
    + change (ci_prefix "INF" (String "i" t')) with (ci_prefix "NF" t') in H.
      change (sign (skip_space (String "i" t'))) with (false, String "i" t'). unfold number.
      change (ci_prefix "INFINITY" (String "i" t')) with (ci_prefix "NFINITY" t').
      change (ci_prefix "INF" (String "i" t')) with (ci_prefix "NF" t').
      destruct (ci_prefix "NFINITY" t'); [|destruct (ci_prefix "NF" t'); [|congruence]];
        cbn [convert]; by rewrite SF2Prim_inf.
  - destruct (ci_NAN_first c t' H) as [->| ->].
    + change (ci_prefix "NAN" (String "N" t')) with (ci_prefix "AN" t') in H.
      change (sign (skip_space (String "N" t'))) with (false, String "N" t'). unfold number.
      change (ci_prefix "INFINITY" (String "N" t')) with (@None string).
      change (ci_prefix "INF" (String "N" t')) with (@None string).
      change (ci_prefix "NAN" (String "N" t')) with (ci_prefix "AN" t').
      destruct (ci_prefix "AN" t'); [|congruence]. cbn [convert]. by rewrite SF2Prim_nan.
    + change (ci_prefix "NAN" (String "n" t')) with (ci_prefix "AN" t') in H.
      change (sign (skip_space (String "n" t'))) with (false, String "n" t'). unfold number.
      change (ci_prefix "INFINITY" (String "n" t')) with (@None string).
      change (ci_prefix "INF" (String "n" t')) with (@None string).
      change (ci_prefix "NAN" (String "n" t')) with (ci_prefix "AN" t').
      destruct (ci_prefix "AN" t'); [|congruence]. cbn [convert]. by rewrite SF2Prim_nan.
Qed.

(** C30. [getNumber], the literal reader of PSH, returns infinity or
    NaN for every token under the cursor that starts with [INF] or
    [NAN] in any case: it consumes the token and prints no diagnostic,
    because [std::stod] accepts these forms.  The specification
    (section 3) says stack values are always real numbers. *)
Theorem getNumber_inf_nan (st : VM) (t : string) :
  code st !! fetch_pos st = Some t ->
  (ci_prefix "INF" t <> None -> @getNumber strtod_cmath st = (Ok PrimFloat.infinity, advance st)) /\
  (ci_prefix "NAN" t <> None -> @getNumber strtod_cmath st = (Ok PrimFloat.nan, advance st)).
Proof.
  intros Ht. destruct (stod_inf_nan t) as [Hi Hn]. split; intros H.
  - exact (@getNumber_ok strtod_cmath st t _ Ht (Hi H)).
  - exact (@getNumber_ok strtod_cmath st t _ Ht (Hn H)).
Qed.

Lemma getNumber_inf_nan_witness :
  ci_prefix "INF" "Infinity" <> None /\
  @getNumber strtod_cmath (mkVM ["PSH"; "Infinity"] 0 [] (initial []).(registers) true 1 []) =
    (Ok PrimFloat.infinity, advance (mkVM ["PSH"; "Infinity"] 0 [] (initial []).(registers) true 1 [])).
Proof.
  split; [discriminate|].
  exact (proj1 (getNumber_inf_nan (mkVM ["PSH"; "Infinity"] 0 [] (initial []).(registers) true 1 [])
                  "Infinity" eq_refl) ltac:(discriminate)).
Defined.
