(* ===== verification/Output.v ===== *)
(** * Output: standard output in the default stream format

    [g_ostream] is the [Ostream] of a fresh [std::cout]: [operator<<] on
    a double writes [show_g] of [Format].  [lines] writes lines of text,
    each ended by [std::endl]; the witness of [diagnostic_single_line]
    renders one diagnostic with them. *)

From Stdlib Require Import Floats.
From stdpp Require Import base list strings.
From S2P Require Import Prelude Values Tables Machine Loader Render Format.

(** [operator<<] on a double, in the default stream format. *)
#[local] Instance g_ostream : Ostream :=
  {| show_double := show_g; show_double_spaceless := show_g_spaceless |}.

(** Lines of text, each ended by [std::endl]. *)
Fixpoint lines (ls : list string) : string :=
  match ls with
  | [] => EmptyString
  | l :: ls' => String.append l (String.append endl (lines ls'))
  end.

Lemma diagnostic_single_line_witness :
  error_tokens_ok (RegisterUnknown "X") /\
  render_event (Error 2 (RegisterUnknown "X")) = lines ["2 | error: register unknown: X"].
Proof.
  assert (Ht : error_tokens_ok (RegisterUnknown "X")) by reflexivity.
  split; [exact Ht|].
  destruct (diagnostic_single_line 2 (RegisterUnknown "X") Ht) as (l & _ & -> & ->).
  vm_compute. reflexivity.
Defined.
